(** * The receipt store of the REST gateway

    A shallow embedding of the reply/receipt core of firefly-ethconnect:

    - [receiptStore] of package [rest] (reservation of request ids, the
      accepted write, reply ingestion, the retrying persistence write and
      the [/replies] and [/reply/:id] handlers);
    - [memoryReceipts] of package [kldrest] (the bounded in-memory list);
    - [processReply] of package [kldwebhooks] (the first reply processor).

    Go values are modelled as the code has them: [int] and [int64] as [Z]
    with the wrap-around written out, [float64] through the IEEE-754
    functions of [SpecFloat], [map[string]interface{}] as a [gmap] from
    strings to JSON values, [(value, error)] results as pairs.  Effects
    (the clock, the persistence tier, the log, the smart contract gateway,
    panics) are threaded through a small state-and-panic monad. *)

From Stdlib Require Import ZArith String List Lia Bool Ascii.
From Stdlib Require Import Floats.SpecFloat.
From stdpp Require Import gmap strings list fin_maps.

#[local] Set Warnings "-register-all".
#[local] Open Scope string_scope.
#[local] Open Scope list_scope.
#[local] Open Scope Z_scope.

(** ** Go runtime values *)

Module Go.

(** Two's complement wrap-around of a 64-bit signed integer ([int] and
    [int64] on the 64-bit targets of the Makefile). *)
Definition wrap64 (z : Z) : Z := (z + 2 ^ 63) mod 2 ^ 64 - 2 ^ 63.

Definition maxInt64 : Z := 2 ^ 63 - 1.
Definition minInt64 : Z := - 2 ^ 63.

(** [time.Time.Sub] saturates at the bounds of [time.Duration]. *)
Definition satInt64 (z : Z) : Z := Z.max minInt64 (Z.min maxInt64 z).

(** [time.Millisecond], in nanoseconds. *)
Definition Millisecond : Z := 1000000.

(** *** runtime.makeslice *)

(** The size of a word, which is the size of a map value, and the
    runtime's bound on a single allocation, in bytes, on the amd64
    targets of the Makefile: [maxAlloc = 1 << 48]. *)
Definition PtrSize : Z := 8.
Definition maxAlloc : Z := 2 ^ 48.

(** The check that [make([]T, 0, cap)] makes before it allocates, for an
    element of [size] bytes: [uintptr(cap)] times the size must not
    overflow and must not be beyond [maxAlloc], which fails for every
    negative [cap] too; otherwise [makeslice] panics with "cap out of
    range".  Whether the machine has the memory that a capacity within
    the bound asks for is not modelled: a process that runs out of memory
    is ended by the runtime. *)
Definition makeslice_cap_in_range (size cap : Z) : bool :=
  (0 <=? cap) && (size * cap <=? maxAlloc).

(** *** float64 *)

Definition prec : Z := 53.
Definition emax : Z := 1024.

(** [float64(i)] for an integer [i]: round to nearest even. *)
Definition float64_of_int (i : Z) : spec_float :=
  match i with
  | Z0 => S754_zero false
  | Zpos p => binary_normalize prec emax (Zpos p) 0 false
  | Zneg p => SFopp (binary_normalize prec emax (Zpos p) 0 false)
  end.

(** [int64(f)]: truncation towards zero; a value outside of int64 (or a
    NaN) converts to the "integer indefinite" value of the amd64
    conversion instruction. *)
Definition int64_of_float64 (f : spec_float) : Z :=
  match f with
  | S754_zero _ => 0
  | S754_finite s m e =>
      let mag := if 0 <=? e then Zpos m * 2 ^ e else Zpos m / 2 ^ (- e) in
      let v := if s then - mag else mag in
      if (minInt64 <=? v) && (v <=? maxInt64) then v else minInt64
  | _ => minInt64
  end.

Definition float64_mul : spec_float -> spec_float -> spec_float :=
  SFmul prec emax.

(** *** strconv.ParseInt(s, 10, bitSize) *)

Inductive NumError := ErrSyntax | ErrRange.

Definition digit_of (c : ascii) : option Z :=
  let n := Z.of_nat (nat_of_ascii c) in
  if (48 <=? n) && (n <=? 57) then Some (n - 48) else None.

(** [strconv.ParseUint(s, 10, bitSize)], the loop over the digits: a
    character that is not a digit is a syntax error, a value that leaves
    [bitSize] bits is a range error, reported as soon as it is seen. *)
Fixpoint ParseUint_loop (bitSize : Z) (n : Z) (s : string)
  : Z * option NumError :=
  match s with
  | EmptyString => (n, None)
  | String c s' =>
      match digit_of c with
      | None => (0, Some ErrSyntax)
      | Some d =>
          let maxVal := 2 ^ bitSize - 1 in
          if (2 ^ 64 - 1) / 10 + 1 <=? n then (maxVal, Some ErrRange)
          else
            let n1 := 10 * n + d in
            if maxVal <? n1 then (maxVal, Some ErrRange)
            else ParseUint_loop bitSize n1 s'
      end
  end.

Definition ParseUint (s : string) (bitSize : Z) : Z * option NumError :=
  match s with
  | EmptyString => (0, Some ErrSyntax)
  | _ => ParseUint_loop bitSize 0 s
  end.

(** [strconv.ParseInt(s, 10, bitSize)] returns the value together with
    the error; on a syntax error the value is 0, on a range error it is
    the extreme value of the sign. *)
Definition ParseInt (s : string) (bitSize : Z) : Z * option NumError :=
  match s with
  | EmptyString => (0, Some ErrSyntax)
  | _ =>
      let '(neg, body) :=
        match s with
        | String "+" r => (false, r)
        | String "-" r => (true, r)
        | _ => (false, s)
        end in
      match ParseUint body bitSize with
      | (_, Some ErrSyntax) => (0, Some ErrSyntax)
      | (un, _) =>
          let cutoff := 2 ^ (bitSize - 1) in
          if negb neg && (cutoff <=? un) then (cutoff - 1, Some ErrRange)
          else if neg && (cutoff <? un) then (- cutoff, Some ErrRange)
          else (if neg then - un else un, None)
      end
  end.

(** *** The regular expression [^[0-9a-zA-Z-]+$] *)

Definition uuidChar (c : ascii) : bool :=
  let n := Z.of_nat (nat_of_ascii c) in
  ((48 <=? n) && (n <=? 57)) || ((97 <=? n) && (n <=? 122))
  || ((65 <=? n) && (n <=? 90)) || (n =? 45).

Fixpoint allChars (p : ascii -> bool) (s : string) : bool :=
  match s with
  | EmptyString => true
  | String c s' => p c && allChars p s'
  end.

Definition uuidCharsVerifier_MatchString (s : string) : bool :=
  negb (String.eqb s "") && allChars uuidChar s.

End Go.

(** ** JSON values, errors, receipts *)

(** The dynamic values of [interface{}] that a decoded JSON document or the
    code itself puts into a receipt. *)
Inductive Json : Type :=
| JNull
| JBool (b : bool)
| JInt (z : Z)
| JFloat (f : spec_float)
| JString (s : string)
| JArray (l : list Json)
| JObject (m : gmap string Json).

Abbreviation Receipt := (gmap string Json).

(** The message identifiers of package [errors] that the receipt store
    raises. *)
Inductive ErrorMessage :=
| Unauthorized
| ReceiptStoreDisabled
| ReceiptStoreInvalidRequestID
| ReceiptStoreInvalidRequestMaxLimit
| ReceiptStoreInvalidRequestBadLimit
| ReceiptStoreInvalidRequestBadSkip
| ReceiptStoreInvalidRequestBadSince
| ReceiptStoreFailedQuery
| ReceiptStoreFailedQuerySingle
| ReceiptStoreFailedNotFound
| ReceiptStoreSerializeResponse
| ReceiptStoreKeyNotUnique
| ResubmissionPreventedCheckTransactionHash.

(** A Go [error]: built by [errors.Errorf] from a message identifier and
    its arguments, or a plain error of a driver or of [fmt.Errorf]. *)
Inductive error : Type :=
| Errorf (m : ErrorMessage) (args : list fmtArg)
| ErrorString (s : string)
with fmtArg : Type :=
| ArgInt (z : Z)
| ArgError (e : error).

(** Modelled from the spec: the message type constants of package
    [messages] are not under src/; the spec names the reply kinds
    [error], [transaction-success], [transaction-failure] and
    [transaction-redelivery-prevented]. *)
Definition MsgTypeError : string := "error".
Definition MsgTypeTransactionSuccess : string := "transaction-success".
Definition MsgTypeTransactionFailure : string := "transaction-failure".
Definition MsgTypeTransactionRedeliveryPrevented : string :=
  "transaction-redelivery-prevented".

(** Modelled from the spec: [utils.GetMapString] is not under src/; it is
    the helper "to safely extract strings from generic interface maps":
    the string stored under the key, and the empty string when the key is
    absent or holds anything else. *)
Definition GetMapString (genericMap : Receipt) (key : string) : string :=
  match genericMap !! key with
  | Some (JString s) => s
  | _ => ""
  end.

(** ** The persistence interface *)

(** [receipts.ReceiptStorePersistence]: the three methods the receipt
    store calls, over the state [P] of an implementation.  The queries
    return Go's [(pointer, error)] pair; [AddReceipt] returns the error and
    the next state.  [AddReceiptDuration] is no method of the interface:
    it is the time, in nanoseconds, that the call of [AddReceipt] takes
    on the wall clock, which [writeReceipt] measures with [time.Since]. *)
Class ReceiptStorePersistence (P : Type) := {
  GetReceipts : P -> Z -> Z -> list string -> Z ->
                string -> string -> string ->
                option (list Receipt) * option error;
  GetReceipt : P -> string -> option Receipt * option error;
  AddReceipt : P -> string -> Receipt -> bool -> option error * P;
  AddReceiptDuration : P -> string -> Receipt -> bool -> N
}.

(** [receipts.ReceiptStoreConf], the fields the store reads. *)
Record ReceiptStoreConf := mkConf {
  MaxDocs : Z;
  QueryLimit : Z;
  RetryInitialDelayMS : Z;
  RetryTimeoutMS : Z
}.

(** ** Effects *)

Inductive Level :=
  DebugLevel | InfoLevel | WarnLevel | ErrorLevel | PanicLevel.

Inductive PanicValue :=
| NilDereference             (* a call or a read through nil *)
| TypeAssertion              (* x.(T) on a value that is not a T *)
| MakesliceCap               (* make with a capacity out of range *)
| LogPanic (format : string) (* log.Panicf *).

(** The outcome of running a piece of Go code from a state: it returns, it
    panics, or the fuel given to its loop ran out. *)
Inductive Outcome (S A : Type) : Type :=
| Done (a : A) (s : S)
| Panic (v : PanicValue) (s : S)
| OutOfFuel.
Arguments Done {S A} a s.
Arguments Panic {S A} v s.
Arguments OutOfFuel {S A}.

Definition M (S A : Type) : Type := S -> Outcome S A.

Definition ret {S A} (a : A) : M S A := fun s => Done a s.

Definition bind {S A B} (c : M S A) (k : A -> M S B) : M S B :=
  fun s =>
    match c s with
    | Done a s' => k a s'
    | Panic v s' => Panic v s'
    | OutOfFuel => OutOfFuel
    end.

Definition panic {S A} (v : PanicValue) : M S A := fun s => Panic v s.

(** What an outcome ends in. *)
Definition panicOf {S A} (o : Outcome S A) : option PanicValue :=
  match o with Panic v _ => Some v | _ => None end.

Definition stateOf {S A} (o : Outcome S A) : option S :=
  match o with Done _ s | Panic _ s => Some s | OutOfFuel => None end.

Declare Scope go_scope.
Delimit Scope go_scope with go.
Notation "x <- c ;; k" := (bind c (fun x => k))
  (at level 100, c at next level, right associativity) : go_scope.
Notation "c ;; k" := (bind c (fun _ => k))
  (at level 100, right associativity) : go_scope.
#[local] Open Scope go_scope.

(** ** Collaborators outside of the repository *)

(** The decoder and encoder of [encoding/json], [time.Parse], the
    authorisation hooks of package [auth], the codes and texts of package
    [errors], and the type of a decoded transaction receipt of package
    [messages]. *)
Class Externals := {
  TransactionReceipt : Type;
  RequestContext : Type;
  json_Unmarshal : list Byte.byte -> Receipt + error;
  json_Unmarshal_receipt : list Byte.byte -> TransactionReceipt + error;
  json_MarshalIndent : Json -> list Byte.byte + error;
  time_Parse_RFC3339Nano : string -> option Z;
  AuthListAsyncReplies : RequestContext -> option error;
  AuthReadAsyncReplyByUUID : RequestContext -> option error;
  Code : error -> string;
  ErrorNoCode : error -> string
}.

(** ** The receipt store *)

Section ReceiptStore.

Context `{Ext : Externals} {P : Type} `{!ReceiptStorePersistence P}.

(** [contractgateway.SmartContractGateway]: the result of its
    [PostDeploy] hook; the calls themselves are recorded as events. *)
Record SmartContractGateway := mkGateway {
  PostDeploy : TransactionReceipt -> option error
}.

(** What the code does to the outside, in order: log lines (level and
    format string), sleeps, the calls of the persistence tier with their
    results, the calls of the gateway, and the statuses and bodies written
    to the HTTP response (response headers are left out). *)
Inductive Event :=
| EvLog (lvl : Level) (format : string)
| EvSleep (d : Z)
| EvGetReceipt (requestID : string) (result : option Receipt * option error)
| EvGetReceipts (skip limit : Z) (ids : list string) (sinceEpochMS : Z)
                (from to start : string)
                (result : option (list Receipt) * option error)
| EvAddReceipt (requestID : string) (receipt : Receipt) (overwrite : bool)
               (err : option error)
| EvPostDeploy (receipt : TransactionReceipt)
| EvSendReply (receipt : Receipt)
| EvSendRESTError (err : error) (status : Z)
| EvWriteHeader (status : Z)
| EvWrite (body : list Byte.byte).

(** The struct [receiptStore] (both mutexes left out: the model is
    sequential), together with the monotonic clock in nanoseconds and the
    events so far.  [persistence] and [smartContractGW] are interface
    values: [None] is nil.  [clock] is what [time.Now] reads.  Time
    passes while the code sleeps and while it waits for [AddReceipt]:
    these are the steps between the two readings that [writeReceipt]
    compares, and the time that the statements around them take is
    counted with the duration of the call. *)
Record receiptStore := mkStore {
  conf : ReceiptStoreConf;
  persistence : option P;
  smartContractGW : option SmartContractGateway;
  reservedIDs : gmap string bool;
  clock : Z;
  events : list Event
}.

Definition set_persistence (p : P) (r : receiptStore) : receiptStore :=
  mkStore (conf r) (Some p) (smartContractGW r) (reservedIDs r)
          (clock r) (events r).
Definition set_reservedIDs (m : gmap string bool) (r : receiptStore)
  : receiptStore :=
  mkStore (conf r) (persistence r) (smartContractGW r) m
          (clock r) (events r).
Definition set_clock (t : Z) (r : receiptStore) : receiptStore :=
  mkStore (conf r) (persistence r) (smartContractGW r) (reservedIDs r)
          t (events r).
Definition emit (e : Event) (r : receiptStore) : receiptStore :=
  mkStore (conf r) (persistence r) (smartContractGW r) (reservedIDs r)
          (clock r) (events r ++ [e]).

(** What a run of the store's methods leaves alone. *)
Definition sameStore (r r' : receiptStore) : Prop :=
  conf r' = conf r /\ smartContractGW r' = smartContractGW r
  /\ reservedIDs r' = reservedIDs r /\ is_Some (persistence r').

Abbreviation Run := (M receiptStore).

(** *** Primitive effects *)

Definition log (lvl : Level) (format : string) : Run unit :=
  fun r => Done tt (emit (EvLog lvl format) r).

Definition time_Now : Run Z := fun r => Done (clock r) r.

(** [time.Since(t)]: the time on the clock less [t]. *)
Definition time_Since (t : Z) : Run Z :=
  fun r => Done (Go.satInt64 (clock r - t)) r.

(** [time.Sleep]: a negative or zero duration returns at once.  A sleep
    that lasts longer than asked for shows in the duration of the call
    that follows. *)
Definition time_Sleep (d : Z) : Run unit :=
  fun r => Done tt (emit (EvSleep d) (set_clock (clock r + Z.max 0 d) r)).

(** [r.persistence.GetReceipt(id)]; the call through a nil interface
    panics. *)
Definition persistence_GetReceipt (id : string)
  : Run (option Receipt * option error) :=
  fun r =>
    match persistence r with
    | None => Panic NilDereference r
    | Some p =>
        let result := GetReceipt p id in
        Done result (emit (EvGetReceipt id result) r)
    end.

Definition persistence_GetReceipts (skip limit : Z)
    (ids : list string) (sinceEpochMS : Z) (from to start : string)
  : Run (option (list Receipt) * option error) :=
  fun r =>
    match persistence r with
    | None => Panic NilDereference r
    | Some p =>
        let result :=
          GetReceipts p skip limit ids sinceEpochMS from to start in
        Done result
             (emit (EvGetReceipts skip limit ids sinceEpochMS from to start
                                  result) r)
    end.

(** [r.persistence.AddReceipt(id, &receipt, overwrite)]: the clock moves
    on by the time that the call takes. *)
Definition persistence_AddReceipt (id : string) (receipt : Receipt)
    (overwrite : bool) : Run (option error) :=
  fun r =>
    match persistence r with
    | None => Panic NilDereference r
    | Some p =>
        let '(err, p') := AddReceipt p id receipt overwrite in
        let now :=
          clock r + Z.of_N (AddReceiptDuration p id receipt overwrite) in
        Done err (emit (EvAddReceipt id receipt overwrite err)
                       (set_persistence p' (set_clock now r)))
    end.

(** The time that the first [n] calls of [AddReceipt] for a receipt take
    together, from the tier [p] on. *)
Fixpoint took (n : nat) (p : P) (id : string) (receipt : Receipt)
    (overwrite : bool) : Z :=
  match n with
  | O => 0
  | S n' =>
      Z.of_N (AddReceiptDuration p id receipt overwrite)
      + took n' (snd (AddReceipt p id receipt overwrite)) id receipt
             overwrite
  end.

(** *** newReceiptStore *)

Definition defaultReceiptLimit : Z := 10.
Definition defaultRetryTimeout : Z := 120 * 1000.
Definition defaultRetryInitialDelay : Z := 500.
Definition defaultMaxDocs : Z := 250.

(** The constant [backoffFactor = 1.1] as the float64 nearest to it. *)
Definition backoffFactor : spec_float :=
  S754_finite false 4953959590107546 (-52).

Definition newReceiptStore (c : ReceiptStoreConf) (p : option P)
    (gw : option SmartContractGateway) (now : Z) : receiptStore :=
  let c1 := if RetryTimeoutMS c <=? 0
            then mkConf (MaxDocs c) (QueryLimit c) (RetryInitialDelayMS c)
                        defaultRetryTimeout
            else c in
  let c2 := if RetryInitialDelayMS c1 <=? 0
            then mkConf (MaxDocs c1) (QueryLimit c1)
                        defaultRetryInitialDelay (RetryTimeoutMS c1)
            else c1 in
  let c3 := if MaxDocs c2 <=? 0
            then mkConf defaultMaxDocs (QueryLimit c2)
                        (RetryInitialDelayMS c2) (RetryTimeoutMS c2)
            else c2 in
  mkStore c3 p gw ∅ now [].

(** *** extractHeaders *)

Definition extractHeaders (parsedMsg : Receipt) : option Receipt :=
  match parsedMsg !! "headers" with
  | Some (JObject headers) => Some headers
  | _ => None
  end.

(** *** reserveID *)

(** [r.reservedIDs[msgID]]: the zero value [false] when the key is
    absent. *)
Definition reserved (msgID : string) (r : receiptStore) : bool :=
  default false (reservedIDs r !! msgID).

(** The closure returned by [reserveID]. *)
Definition release (msgID : string) : Run unit :=
  fun r => Done tt (set_reservedIDs (delete msgID (reservedIDs r)) r).

Definition reserveID (msgID : string)
  : Run (option (Run unit) * option error) :=
  res <- persistence_GetReceipt msgID ;;
  let '(m, err) := res in
  match err with
  | Some e => ret (None, Some e)
  | None =>
      fun r =>
        if bool_decide (is_Some m) || reserved msgID r
        then Done (None, Some (Errorf ReceiptStoreKeyNotUnique [])) r
        else Done (Some (release msgID), None)
                  (set_reservedIDs (<[msgID := true]> (reservedIDs r)) r)
  end.

(** *** writeReceipt *)

(** [time.Duration(float64(delay) * backoffFactor)]. *)
Definition backoff (delay : Z) : Z :=
  Go.int64_of_float64
    (Go.float64_mul (Go.float64_of_int delay) backoffFactor).

(** The first [n] delays of the retry loop that starts with [delay]. *)
Fixpoint schedule (n : nat) (delay : Z) : list Z :=
  match n with
  | O => []
  | S n' => delay :: schedule n' (backoff delay)
  end.

(** How the [for] loop of [writeReceipt] is left. *)
Inductive LoopExit := Break | Return (err : error).

Fixpoint writeReceipt_loop (fuel : nat) (requestID : string)
    (receipt : Receipt) (overwriteAndRetry : bool)
    (startTime retryTimeout delay attempt : Z) : Run LoopExit :=
  match fuel with
  | O => fun _ => OutOfFuel
  | S fuel' =>
      delay' <- (if 0 <? attempt then
                   log InfoLevel
                     "%s: Waiting %.2fs before re-attempt:%d mongo write" ;;
                   time_Sleep delay ;;
                   ret (backoff delay)
                 else ret delay) ;;
      let attempt' := Go.wrap64 (attempt + 1) in
      err <- persistence_AddReceipt requestID receipt overwriteAndRetry ;;
      match err with
      | None =>
          log InfoLevel "%s: Inserted receipt into receipt store" ;;
          ret Break
      | Some e =>
          if negb overwriteAndRetry then ret (Return e)
          else
            log ErrorLevel "%s: addReceipt attempt: %d failed, err: %s" ;;
            timeRetrying <- time_Since startTime ;;
            (if retryTimeout <? timeRetrying then
               log InfoLevel "%s: receipt: %+v" ;;
               log PanicLevel
                 "%s: Failed to insert into receipt store after %.2fs: %s" ;;
               panic (LogPanic
                 "%s: Failed to insert into receipt store after %.2fs: %s")
             else ret tt) ;;
            writeReceipt_loop fuel' requestID receipt overwriteAndRetry
                              startTime retryTimeout delay' attempt'
      end
  end.

(** [r.smartContractGW.SendReply(receipt)] when a gateway is set. *)
Definition sendReply (receipt : Receipt) : Run unit :=
  fun r =>
    match smartContractGW r with
    | Some _ => Done tt (emit (EvSendReply receipt) r)
    | None => Done tt r
    end.

(** [time.Duration(r.conf.RetryInitialDelayMS) * time.Millisecond] and
    [time.Duration(r.conf.RetryTimeoutMS) * time.Millisecond]. *)
Definition initialDelay (r : receiptStore) : Z :=
  Go.wrap64 (RetryInitialDelayMS (conf r) * Go.Millisecond).
Definition retryDeadline (r : receiptStore) : Z :=
  Go.wrap64 (RetryTimeoutMS (conf r) * Go.Millisecond).

Definition writeReceipt (fuel : nat) (requestID : string)
    (receipt : Receipt) (overwriteAndRetry : bool) : Run (option error) :=
  startTime <- time_Now ;;
  fun r =>
    let delay := initialDelay r in
    let attempt := 0 in
    let retryTimeout := retryDeadline r in
    (exit <- writeReceipt_loop fuel requestID receipt overwriteAndRetry
                               startTime retryTimeout delay attempt ;;
     match exit with
     | Return err => ret (Some err)
     | Break => sendReply receipt ;; ret None
     end) r.

(** [time.Now().UnixNano() / int64(time.Millisecond)]. *)
Definition nowMillis : Run Z :=
  now <- time_Now ;; ret (Z.quot now Go.Millisecond).

(** *** writeAccepted *)

(** The receipt that [writeAccepted] builds in [msg] before writing. *)
Definition acceptedReceipt (msgID msgAck : string) (msg : Receipt)
    (receivedAt : Z) : Receipt :=
  <["_id" := JString msgID]>
    (<["msgAck" := JString msgAck]>
       (<["pending" := JBool true]>
          (<["receivedAt" := JInt receivedAt]> msg))).

Definition writeAccepted (fuel : nat) (msgID msgAck : string)
    (msg : Receipt) : Run (option error) :=
  receivedAt <- nowMillis ;;
  writeReceipt fuel msgID (acceptedReceipt msgID msgAck msg receivedAt)
               false.

(** *** processReply *)

Definition idempotencyErr : error :=
  Errorf ResubmissionPreventedCheckTransactionHash [].

(** The message after the redelivery branch has swapped it into an
    error. *)
Definition redeliveryError (parsedMsg : Receipt) : Receipt :=
  <["errorMessage" := JString (ErrorNoCode idempotencyErr)]>
    (<["errorCode" := JString (Code idempotencyErr)]> parsedMsg).

(** Whether an existing receipt already holds a transaction result. *)
Definition isTerminal (existingReceipt : Receipt) : bool :=
  let existingHeaders := default ∅ (extractHeaders existingReceipt) in
  let msgType := GetMapString existingHeaders "type" in
  String.eqb msgType MsgTypeTransactionFailure
  || String.eqb msgType MsgTypeTransactionSuccess.

(** The [switch msgType] of [processReply]: [None] is the early return
    of the redelivery case, otherwise the message to go on with. *)
Definition classifyReply (requestID msgType : string) (parsedMsg : Receipt)
  : Run (option Receipt) :=
  if String.eqb msgType MsgTypeError then ret (Some parsedMsg)
  else if String.eqb msgType MsgTypeTransactionRedeliveryPrevented then
    res <- persistence_GetReceipt requestID ;;
    let '(existingReceipt, err) := res in
    match err, existingReceipt with
    | None, Some existing =>
        if isTerminal existing then
          log WarnLevel
            "Ignoring redelivery reply message. requestId='%s' reqOffset='%s' type='%s': %s" ;;
          ret None
        else ret (Some (redeliveryError parsedMsg))
    | _, _ => ret (Some (redeliveryError parsedMsg))
    end
  else ret (Some parsedMsg).

(** The hand-over of a contract deployment to the gateway. *)
Definition postDeploy (msgType contractAddr : string)
    (msgBytes : list Byte.byte) : Run unit :=
  fun r =>
    match smartContractGW r with
    | Some gw =>
        if String.eqb msgType MsgTypeTransactionSuccess
           && negb (String.eqb contractAddr "")
        then
          match json_Unmarshal_receipt msgBytes with
          | inl receipt =>
              let r' := emit (EvPostDeploy receipt) r in
              match PostDeploy gw receipt with
              | Some _ =>
                  log ErrorLevel
                    "Failed to process receipt in smart contract gateway: %s"
                    r'
              | None => Done tt r'
              end
          | inr _ =>
              log ErrorLevel
                "Failed to parse message as transaction receipt: %s" r
          end
        else Done tt r
    | None => Done tt r
    end.

Definition processReply (fuel : nat) (msgBytes : list Byte.byte)
  : Run unit :=
  match json_Unmarshal msgBytes with
  | inr _ =>
      log ErrorLevel "Unable to unmarshal reply message '%s' as JSON: %s"
  | inl parsedMsg =>
      match extractHeaders parsedMsg with
      | None =>
          log ErrorLevel "Failed to extract request headers from '%+v'"
      | Some headers =>
          let requestID := GetMapString headers "requestId" in
          if String.eqb requestID "" then
            log ErrorLevel "Failed to extract headers.requestId from '%+v'"
          else
            let msgType := GetMapString headers "type" in
            let contractAddr := GetMapString parsedMsg "contractAddress" in
            next <- classifyReply requestID msgType parsedMsg ;;
            match next with
            | None => ret tt
            | Some parsedMsg =>
                log InfoLevel
                  "Received reply message. requestId='%s' reqOffset='%s' type='%s': %s" ;;
                postDeploy msgType contractAddr msgBytes ;;
                receivedAt <- nowMillis ;;
                let parsedMsg :=
                  <["_id" := JString requestID]>
                    (<["receivedAt" := JInt receivedAt]> parsedMsg) in
                fun r =>
                  if negb (String.eqb requestID "")
                     && bool_decide (is_Some (persistence r))
                  then (writeReceipt fuel requestID parsedMsg true ;;
                        ret tt) r
                  else Done tt r
            end
      end
  end.

(** *** The REST surface *)

(** The part of [http.Request] the handlers read: the request context
    (for the authorisation hooks) and the parsed form. *)
Record Request := mkRequest {
  Ctx : RequestContext;
  Form : gmap string (list string)
}.

(** [req.FormValue(key)]: the first value of the key, or the empty
    string. *)
Definition FormValue (req : Request) (key : string) : string :=
  match Form req !! key with
  | Some (v :: _) => v
  | _ => ""
  end.

(** [params.ByName(name)] of httprouter: the first matching parameter, or
    the empty string. *)
Fixpoint ByName (params : list (string * string)) (name : string)
  : string :=
  match params with
  | [] => ""
  | (k, v) :: rest => if String.eqb k name then v else ByName rest name
  end.

(** Modelled from the spec: [sendRESTError] belongs to package [rest] but
    is not under src/; it answers the request with the given error and
    HTTP status. *)
Definition sendRESTError (err : error) (status : Z) : Run unit :=
  fun r => Done tt (emit (EvSendRESTError err status) r).

(** The status line the client sees: the first status written. *)
Fixpoint responseStatus (evs : list Event) : option Z :=
  match evs with
  | [] => None
  | EvSendRESTError _ status :: _ => Some status
  | EvWriteHeader status :: _ => Some status
  | _ :: rest => responseStatus rest
  end.

Definition marshalAndReply (result : Json) : Run unit :=
  match json_MarshalIndent result with
  | inr _ =>
      log ErrorLevel "Error serializing receipts: %s" ;;
      sendRESTError (Errorf ReceiptStoreSerializeResponse []) 500
  | inl resBytes =>
      log InfoLevel "<-- %s %s [%d]" ;;
      fun r => Done tt (emit (EvWrite resBytes) (emit (EvWriteHeader 200) r))
  end.

(** A query parameter is either accepted with a value or refused with a
    log line and an error that is sent with status 400. *)
Inductive Extracted (A : Type) :=
| Accept (a : A)
| Refuse (format : string) (err : error).
Arguments Accept {A} a.
Arguments Refuse {A} format err.

(** The ids of the query and the default limit that goes with them. *)
Definition extractIDs (req : Request) : Extracted (Z * list string) :=
  match Form req !! "id" with
  | Some ids =>
      if forallb Go.uuidCharsVerifier_MatchString ids
      then Accept (0, ids)
      else Refuse "Invalid id '%s' %d"
                  (Errorf ReceiptStoreInvalidRequestID [])
  | None => Accept (defaultReceiptLimit, [])
  end.

Definition extractLimit (queryLimit limit : Z) (req : Request)
  : Extracted Z :=
  let limitStr := FormValue req "limit" in
  if String.eqb limitStr "" then Accept limit
  else
    match Go.ParseInt limitStr 32 with
    | (customLimit, None) =>
        if queryLimit <? customLimit then
          Refuse "Invalid limit value: %s"
                 (Errorf ReceiptStoreInvalidRequestMaxLimit
                         [ArgInt queryLimit])
        else if 0 <? customLimit then Accept customLimit
        else Accept limit
    | (_, Some _) =>
        Refuse "Invalid limit value: %s"
               (Errorf ReceiptStoreInvalidRequestBadLimit [])
    end.

Definition extractSkip (req : Request) : Extracted Z :=
  let skipStr := FormValue req "skip" in
  if String.eqb skipStr "" then Accept 0
  else
    match Go.ParseInt skipStr 32 with
    | (skipI64, None) =>
        if 0 <? skipI64 then Accept skipI64
        else Refuse "Invalid skip value: %s"
                    (Errorf ReceiptStoreInvalidRequestBadSkip [])
    | (_, Some _) =>
        Refuse "Invalid skip value: %s"
               (Errorf ReceiptStoreInvalidRequestBadSkip [])
    end.

(** [since]: the epoch in milliseconds, and whether the value was
    refused.  The handler answers 400 for a refused value and goes on
    with the query all the same (there is no [return]). *)
Definition extractSince (req : Request) : Z * bool :=
  let since := FormValue req "since" in
  if String.eqb since "" then (0, false)
  else
    match time_Parse_RFC3339Nano since with
    | Some unixNano => (Z.quot unixNano Go.Millisecond, false)
    | None =>
        match Go.ParseInt since 64 with
        | (sinceEpochMS, None) => (sinceEpochMS, false)
        | (sinceEpochMS, Some _) => (sinceEpochMS, true)
        end
    end.

Definition refuse (format : string) (err : error) : Run unit :=
  log ErrorLevel format ;; sendRESTError err 400.

(** The call of the persistence tier at the end of [getReplies]. *)
Definition queryReplies (skip limit : Z) (ids : list string)
    (sinceEpochMS : Z) (from to start : string) : Run unit :=
  res <- persistence_GetReceipts skip limit ids sinceEpochMS from to start ;;
  let '(results, err) := res in
  match err with
  | Some e =>
      log ErrorLevel "Error querying replies: %s" ;;
      sendRESTError (Errorf ReceiptStoreFailedQuery [ArgError e]) 500
  | None =>
      match results with
      | None => panic NilDereference
      | Some rs =>
          log DebugLevel "Replies query: skip=%d limit=%d replies=%d" ;;
          marshalAndReply (JArray (JObject <$> rs))
      end
  end.

Definition getReplies (req : Request) : Run unit :=
  log InfoLevel "--> %s %s" ;;
  match AuthListAsyncReplies (Ctx req) with
  | Some _ =>
      log ErrorLevel "Error querying replies: %s" ;;
      sendRESTError (Errorf Unauthorized []) 401
  | None =>
      fun r =>
        match persistence r with
        | None => sendRESTError (Errorf ReceiptStoreDisabled []) 405 r
        | Some _ =>
            match extractIDs req with
            | Refuse format err => refuse format err r
            | Accept (limit, ids) =>
                match extractLimit (QueryLimit (conf r)) limit req with
                | Refuse format err => refuse format err r
                | Accept limit =>
                    match extractSkip req with
                    | Refuse format err => refuse format err r
                    | Accept skip =>
                        let '(sinceEpochMS, refused) := extractSince req in
                        ((if refused then
                            refuse
                              "since '%s' cannot be parsed as RFC3339 or millisecond timestamp: %s"
                              (Errorf ReceiptStoreInvalidRequestBadSince [])
                          else ret tt) ;;
                         queryReplies skip limit ids sinceEpochMS
                                      (FormValue req "from")
                                      (FormValue req "to")
                                      (FormValue req "start")) r
                    end
                end
            end
        end
  end.

Definition getReply (req : Request) (params : list (string * string))
  : Run unit :=
  log InfoLevel "--> %s %s" ;;
  match AuthReadAsyncReplyByUUID (Ctx req) with
  | Some _ =>
      log ErrorLevel "Error querying reply: %s" ;;
      sendRESTError (Errorf Unauthorized []) 401
  | None =>
      let requestID := ByName params "id" in
      res <- persistence_GetReceipt requestID ;;
      let '(result, err) := res in
      match err with
      | Some e =>
          log ErrorLevel "Error querying reply: %s" ;;
          sendRESTError (Errorf ReceiptStoreFailedQuerySingle [ArgError e])
                        500
      | None =>
          match result with
          | None =>
              sendRESTError (Errorf ReceiptStoreFailedNotFound []) 404 ;;
              log InfoLevel "Reply not found"
          | Some receipt =>
              log InfoLevel "Reply found" ;;
              marshalAndReply (JObject receipt)
          end
      end
  end.

End ReceiptStore.

Arguments Accept {A} a.
Arguments Refuse {A} format err.

(** A receipt is terminal, in the words of the spec, when its
    [headers.type] is a transaction success or a transaction failure. *)
Definition terminalReceipt (receipt : Receipt) : Prop :=
  exists headers,
    receipt !! "headers" = Some (JObject headers)
    /\ (headers !! "type" = Some (JString MsgTypeTransactionSuccess)
        \/ headers !! "type" = Some (JString MsgTypeTransactionFailure)).

(** ** Observations on a trace *)

Section Observations.

Context `{Ext : Externals}.

(** The durations handed to [time.Sleep], in order. *)
Definition sleepsOf (evs : list Event) : list Z :=
  omap (fun e => match e with EvSleep d => Some d | _ => None end) evs.

(** The calls of [AddReceipt] with their results, in order. *)
Definition writesOf (evs : list Event)
  : list (string * Receipt * bool * option error) :=
  omap (fun e => match e with
                 | EvAddReceipt id receipt overwrite err =>
                     Some (id, receipt, overwrite, err)
                 | _ => None
                 end) evs.

(** The receipts handed to the gateway's [SendReply], in order. *)
Definition repliesOf (evs : list Event) : list Receipt :=
  omap (fun e => match e with EvSendReply rc => Some rc | _ => None end)
       evs.

(** The limits that [GetReceipts] was called with, and the number of
    receipts it returned each time. *)
Definition limitsQueried (evs : list Event) : list Z :=
  omap (fun e => match e with
                 | EvGetReceipts _ limit _ _ _ _ _ _ => Some limit
                 | _ => None
                 end) evs.

Definition resultSizes (evs : list Event) : list nat :=
  omap (fun e => match e with
                 | EvGetReceipts _ _ _ _ _ _ _ (Some results, _) =>
                     Some (length results)
                 | _ => None
                 end) evs.

(** The time that a list of sleeps takes. *)
Definition slept (ds : list Z) : Z :=
  foldr (fun d acc => Z.max 0 d + acc) 0 ds.

End Observations.

(** ** The in-memory receipts (package kldrest) *)

Module MemoryReceipts.

(** A call either returns or panics. *)
Inductive GoResult (A : Type) :=
| Returns (a : A)
| Panics (v : PanicValue).
Arguments Returns {A} a.
Arguments Panics {A} v.

(** The struct [memoryReceipts]: [MaxDocs] of its configuration and the
    [container/list] of receipts, front first. *)
Record memoryReceipts := mkMemoryReceipts {
  MaxDocs : Z;
  receipts : list Receipt
}.

Definition newMemoryReceipts (maxDocs : Z) : memoryReceipts :=
  mkMemoryReceipts maxDocs [].

(** [for i := 0; i < skip && curElem != nil; i++ { curElem = Next }]. *)
Fixpoint skipLoop (i skip : Z) (curElem : list Receipt) : list Receipt :=
  match curElem with
  | [] => []
  | _ :: next => if i <? skip then skipLoop (i + 1) skip next else curElem
  end.

(** [for i := 0; i < limit && curElem != nil; i++ { append; Next }]. *)
Fixpoint collectLoop (i limit : Z) (results curElem : list Receipt)
  : list Receipt :=
  match curElem with
  | [] => results
  | value :: next =>
      if i <? limit then collectLoop (i + 1) limit (results ++ [value]) next
      else results
  end.

(** [make([]map[string]interface{}, 0, limit)] panics when [limit] is
    negative or beyond what [makeslice] allows for a slice of maps. *)
Definition GetReceipts (m : memoryReceipts) (skip limit : Z)
    (ids : list string)
  : GoResult (option (list Receipt) * option error) :=
  if 0 <? Z.of_nat (length ids) then
    Returns (None,
             Some (ErrorString "Memory receipts do not support id filtering"))
  else if negb (Go.makeslice_cap_in_range Go.PtrSize limit)
  then Panics MakesliceCap
  else
    let results := [] in
    let curElem := skipLoop 0 skip (receipts m) in
    Returns (Some (collectLoop 0 limit results curElem), None).

(** [id == requestID] for the [interface{}] stored under ["_id"]. *)
Definition hasID (requestID : string) (r : Receipt) : bool :=
  match r !! "_id" with
  | Some (JString id) => String.eqb id requestID
  | _ => false
  end.

Fixpoint findReceipt (requestID : string) (curElem : list Receipt)
  : option Receipt :=
  match curElem with
  | [] => None
  | r :: next =>
      if hasID requestID r then Some r else findReceipt requestID next
  end.

Definition GetReceipt (m : memoryReceipts) (requestID : string)
  : option Receipt * option error :=
  (findReceipt requestID (receipts m), None).

Definition AddReceipt (m : memoryReceipts) (receipt : Receipt)
  : option error * memoryReceipts :=
  let curLen := Z.of_nat (length (receipts m)) in
  let kept := if (0 <? curLen) && (MaxDocs m <=? curLen)
              then removelast (receipts m) else receipts m in
  (None, mkMemoryReceipts (MaxDocs m) (receipt :: kept)).

End MemoryReceipts.

(** ** The first reply processor (package kldwebhooks) *)

Module KldWebhooks.
Section Bridge.

Context `{Ext : Externals}.

(** The bridge as far as [processReply] uses it: the Mongo collection
    ([None] is nil) given by the result of its [Insert], the documents
    handed to [Insert] and the log. *)
Record WebhooksBridge := mkBridge {
  mongo : option (Receipt -> option error);
  inserted : list Receipt;
  logged : list (Level * string)
}.

Definition logf (lvl : Level) (format : string) : M WebhooksBridge unit :=
  fun w => Done tt (mkBridge (mongo w) (inserted w)
                             (logged w ++ [(lvl, format)])).

(** [getString]: [reflect.TypeOf(val).Kind()] is a call through a nil
    [reflect.Type] when the value is nil (a JSON null). *)
Definition getString (genericMap : Receipt) (key : string)
  : M WebhooksBridge string :=
  logf InfoLevel "genericMap: %+v" ;;
  match genericMap !! key with
  | Some JNull => panic NilDereference
  | Some (JString s) => ret s
  | _ => ret ""
  end.

Definition mongo_Insert (doc : Receipt) : M WebhooksBridge (option error) :=
  fun w =>
    match mongo w with
    | None => Panic NilDereference w
    | Some insert =>
        Done (insert doc)
             (mkBridge (mongo w) (inserted w ++ [doc]) (logged w))
    end.

(** The test of the headers reads [reflect.TypeOf(headers)], the static
    type of the declared variable, which is always a map: only the
    presence of the key decides, and the type assertion
    [iHeaders.(map[string]interface{})] panics on anything else than an
    object. *)
Definition processReply (msgBytes : list Byte.byte) : M WebhooksBridge unit :=
  match json_Unmarshal msgBytes with
  | inr _ =>
      logf ErrorLevel "Unable to unmarshal reply message '%s' as JSON: %s"
  | inl parsedMsg =>
      match parsedMsg !! "headers" with
      | None => logf ErrorLevel "Failed to extract request headers from '%s'"
      | Some iHeaders =>
          match iHeaders with
          | JObject headers =>
              requestId <- getString headers "requestId" ;;
              if String.eqb requestId "" then
                logf ErrorLevel
                     "Failed to extract headers.requestId from '%s'"
              else
                reqOffset <- getString headers "reqOffset" ;;
                msgType <- getString headers "type" ;;
                result <- (if String.eqb msgType MsgTypeError
                           then getString parsedMsg "errorMessage"
                           else getString parsedMsg "transactionHash") ;;
                logf InfoLevel
                     "Received reply message. requestId='%s' reqOffset='%s' type='%s': %s" ;;
                fun w =>
                  if negb (String.eqb requestId "")
                     && bool_decide (is_Some (mongo w))
                  then
                    (err <- mongo_Insert
                              (<["_id" := JString requestId]> parsedMsg) ;;
                     match err with
                     | Some _ =>
                         logf ErrorLevel
                              "Failed to insert '%s' into mongodb: %s"
                     | None => logf InfoLevel "Inserted receipt into MongoDB"
                     end) w
                  else Done tt w
          | _ => panic TypeAssertion
          end
      end
  end.

End Bridge.
End KldWebhooks.

(** ** Test doubles *)

(** A scripted persistence in the manner of the mocks of the repository's
    tests: the stored receipts (newest first), an error that every query
    returns when set, the results of the next calls of [AddReceipt] and
    the result of the calls after those.  A write that is not scripted to
    fail stores the receipt, unless [overwrite] is off and the id is
    taken.  A call of [AddReceipt] takes 1 ns on the clock. *)
Record mockPersistence := mkMock {
  stored : list Receipt;
  queryErr : option error;
  addScript : list (option error);
  addDefault : option error
}.

Definition mock_store (id : string) (receipt : Receipt) (overwrite : bool)
    (m : mockPersistence) (script : list (option error))
  : option error * mockPersistence :=
  match MemoryReceipts.findReceipt id (stored m) with
  | Some _ =>
      if overwrite then
        (None, mkMock (receipt :: filter (λ r, ¬ MemoryReceipts.hasID id r)
                                         (stored m))
                      (queryErr m) script (addDefault m))
      else (Some (Errorf ReceiptStoreKeyNotUnique []),
            mkMock (stored m) (queryErr m) script (addDefault m))
  | None =>
      (None, mkMock (receipt :: stored m) (queryErr m) script (addDefault m))
  end.

#[export] Instance mock_ReceiptStorePersistence
  : ReceiptStorePersistence mockPersistence := {
  GetReceipts m skip limit ids _ _ _ _ :=
    match queryErr m with
    | Some e => (None, Some e)
    | None =>
        (Some (MemoryReceipts.collectLoop 0 limit []
                 (MemoryReceipts.skipLoop 0 skip (stored m))), None)
    end;
  GetReceipt m id :=
    match queryErr m with
    | Some e => (None, Some e)
    | None => (MemoryReceipts.findReceipt id (stored m), None)
    end;
  AddReceipt m id receipt overwrite :=
    match addScript m with
    | Some e :: script =>
        (Some e, mkMock (stored m) (queryErr m) script (addDefault m))
    | None :: script => mock_store id receipt overwrite m script
    | [] =>
        match addDefault m with
        | Some e => (Some e, m)
        | None => mock_store id receipt overwrite m []
        end
    end;
  AddReceiptDuration _ _ _ _ := 1%N
}.

(** The documents that the decoder stub knows, by the text of the
    message. *)
Definition headersOf (requestId type : string) : Json :=
  JObject {[ "requestId" := JString requestId; "type" := JString type ]}.

Definition successReply : Receipt :=
  {[ "headers" := headersOf "req-4" "transaction-success";
     "transactionHash" := JString "0xabcd" ]}.

Definition redeliveryReply (requestId : string) : Receipt :=
  {[ "headers" := headersOf requestId "transaction-redelivery-prevented";
     "transactionHash" := JString "0xdead" ]}.

Definition mock_json_Unmarshal (msgBytes : list Byte.byte) : Receipt + error :=
  let text := string_of_list_byte msgBytes in
  if String.eqb text "success req-4" then inl successReply
  else if String.eqb text "redelivery req-3" then inl (redeliveryReply "req-3")
  else if String.eqb text "redelivery req-4" then inl (redeliveryReply "req-4")
  else if String.eqb text "no headers" then inl ∅
  else if String.eqb text "headers is a string" then
    inl {[ "headers" := JString "x" ]}
  else if String.eqb text "requestId is a number" then
    inl {[ "headers" := JObject {[ "requestId" := JInt 7 ]} ]}
  else inr (ErrorString "invalid character").

(** Collaborators for the concrete runs: the request context is the
    answer of the authorisation hooks. *)
Definition mockExternals : Externals := {|
  TransactionReceipt := list Byte.byte;
  RequestContext := option error;
  json_Unmarshal := mock_json_Unmarshal;
  json_Unmarshal_receipt b := inl b;
  json_MarshalIndent _ := inl [];
  time_Parse_RFC3339Nano _ := None;
  AuthListAsyncReplies ctx := ctx;
  AuthReadAsyncReplyByUUID ctx := ctx;
  Code _ := "FFEC100212";
  ErrorNoCode _ := "Resubmission prevented: check the transaction hash"
|}.

Definition bytes (s : string) : list Byte.byte := list_byte_of_string s.

(** Concrete stores for the runs below. *)
Definition mockConf : ReceiptStoreConf := mkConf 0 100 0 0.

Definition emptyMock : mockPersistence := mkMock [] None [] None.

Definition downMock : mockPersistence :=
  mkMock [] (Some (ErrorString "connection refused")) [] None.

Definition mockGateway : SmartContractGateway (Ext := mockExternals) :=
  mkGateway (Ext := mockExternals) (fun _ => None).

Definition emptyStore : receiptStore (Ext := mockExternals) :=
  newReceiptStore mockConf (Some emptyMock) (Some mockGateway) 0.


(** A persistence whose writes all fail, and a store on top of it with
    the default retry policy. *)
Definition failingMock : mockPersistence :=
  mkMock [] None [] (Some (ErrorString "write failed")).

Definition failingStore : receiptStore (Ext := mockExternals) :=
  newReceiptStore mockConf (Some failingMock) (Some mockGateway) 0.

(** A store that holds the successful receipt of [req-4]. *)
Definition storedSuccess : Receipt :=
  <["_id" := JString "req-4"]> successReply.

Definition terminalStore : receiptStore (Ext := mockExternals) :=
  newReceiptStore mockConf (Some (mkMock [storedSuccess] None [] None))
                  (Some mockGateway) 0.

(** A store that holds the pending receipt of [req-3]. *)
Definition storedPending : Receipt :=
  {[ "_id" := JString "req-3"; "pending" := JBool true ]}.

Definition pendingStore : receiptStore (Ext := mockExternals) :=
  newReceiptStore mockConf (Some (mkMock [storedPending] None [] None))
                  (Some mockGateway) 0.

(** A store that holds three receipts, and requests for the list. *)
Definition receiptOf (id : string) : Receipt := {[ "_id" := JString id ]}.

Definition threeStore : receiptStore (Ext := mockExternals) :=
  newReceiptStore mockConf
    (Some (mkMock [receiptOf "c"; receiptOf "b"; receiptOf "a"] None [] None))
    None 0.

Definition requestWithLimit (limit : string)
  : Request (Ext := mockExternals) :=
  mkRequest (Ext := mockExternals) None {[ "limit" := [limit] ]}.

Definition threeReceipts : MemoryReceipts.memoryReceipts :=
  MemoryReceipts.mkMemoryReceipts 250
    [receiptOf "c"; receiptOf "b"; receiptOf "a"].

(** ** Further observations on a trace *)

Section MoreObservations.

Context `{Ext : Externals}.

(** The receipts handed to the gateway's [PostDeploy], in order. *)
Definition deploysOf (evs : list Event) : list TransactionReceipt :=
  omap (fun e => match e with EvPostDeploy rc => Some rc | _ => None end)
       evs.

(** The ids that [GetReceipt] was called with, in order. *)
Definition lookupsOf (evs : list Event) : list string :=
  omap (fun e => match e with EvGetReceipt id _ => Some id | _ => None end)
       evs.

End MoreObservations.

Section QueryObservations.

Context `{Ext : Externals}.

(** The arguments that [GetReceipts] was called with, in order. *)
Definition queriesOf (evs : list Event)
  : list (Z * Z * list string * Z * string * string * string) :=
  omap (fun e => match e with
                 | EvGetReceipts skip limit ids since from to start _ =>
                     Some (skip, limit, ids, since, from, to, start)
                 | _ => None
                 end) evs.

(** The errors sent with [sendRESTError], with their status, in order. *)
Definition restErrorsOf (evs : list Event) : list (error * Z) :=
  omap (fun e => match e with
                 | EvSendRESTError err status => Some (err, status)
                 | _ => None
                 end) evs.

(** The bodies written to the response, in order. *)
Definition bodiesOf (evs : list Event) : list (list Byte.byte) :=
  omap (fun e => match e with EvWrite body => Some body | _ => None end) evs.

End QueryObservations.

(** ** The consumer loop of package kldwebhooks *)

Module KldWebhooksConsumer.
Section Consumer.

Context `{Ext : Externals}.

(** [for msg := range consumer.Messages() { w.processReply(msg.Value) }],
    over the messages that the channel delivers before it is closed. *)
Fixpoint rangeMessages (messages : list (list Byte.byte))
  : M KldWebhooks.WebhooksBridge unit :=
  match messages with
  | [] => ret tt
  | msg :: rest => KldWebhooks.processReply msg ;; rangeMessages rest
  end.

(** [ConsumerMessagesLoop]: the wait group is given by the number of
    calls of its [Done], which the loop returns when it has made its
    own. *)
Definition ConsumerMessagesLoop (messages : list (list Byte.byte))
    (wgDone : nat) : M KldWebhooks.WebhooksBridge nat :=
  rangeMessages messages ;; ret (S wgDone).

(** What [getString] returns for the key, [None] when it panics. *)
Definition stringAt (genericMap : Receipt) (key : string) : option string :=
  match genericMap !! key with
  | Some JNull => None
  | Some (JString s) => Some s
  | _ => Some ""
  end.

(** The document that a reply is to be stored as: the decoded message
    with its [_id] set to the [requestId] of its headers, for a message
    that has one. *)
Definition document (msgBytes : list Byte.byte) : option Receipt :=
  match json_Unmarshal msgBytes with
  | inl parsedMsg =>
      match parsedMsg !! "headers" with
      | Some (JObject headers) =>
          match headers !! "requestId" with
          | Some (JString requestId) =>
              if String.eqb requestId "" then None
              else Some (<["_id" := JString requestId]> parsedMsg)
          | _ => None
          end
      | _ => None
      end
  | inr _ => None
  end.

(** The documents that a bridge with the collection [collection] hands
    to [Insert] for the messages. *)
Definition documents {C} (collection : option C)
    (messages : list (list Byte.byte)) : list Receipt :=
  match collection with
  | Some _ => omap document messages
  | None => []
  end.

End Consumer.
End KldWebhooksConsumer.

(** ** The connection of package kldwebhooks to MongoDB *)

Module mgo.

(** [mgo.CollectionInfo], as far as [connectMongoDB] fills it in. *)
Record CollectionInfo := mkCollectionInfo {
  Capped : bool;
  MaxDocs : Z
}.

End mgo.

Module KldWebhooksMongo.

(** The interfaces [MongoCollection] and [MongoDatabase], by the results
    of their methods. *)
Record MongoCollection := mkCollection {
  Insert : Receipt -> option error;
  Create : mgo.CollectionInfo -> option error
}.

Record MongoDatabase := mkDatabase {
  Connect : string -> option error;
  GetCollection : string -> string -> MongoCollection
}.

(** [w.conf.MongoDB]. *)
Record MongoDBConf := mkMongoDBConf {
  URL : string;
  Database : string;
  Collection : string;
  MaxDocs : Z
}.

(** The calls made on the database and on its collection. *)
Inductive MongoCall :=
| CallConnect (url : string)
| CallGetCollection (database collection : string)
| CallCreate (info : mgo.CollectionInfo).

(** [fmt.Errorf("Unable to connect to MongoDB: %s", err)]. *)
Inductive ConnectError :=
| UnableToConnect (err : error).

(** [connectMongoDB]: the result is the error and the calls that were
    made, in order.  The collection is kept in the bridge by its
    [Insert]. *)
Definition connectMongoDB (conf : MongoDBConf) (mongo : MongoDatabase)
  : M KldWebhooks.WebhooksBridge (option ConnectError * list MongoCall) :=
  if String.eqb (URL conf) "" then
    KldWebhooks.logf DebugLevel
      "No MongoDB URL configured. Receipt store disabled" ;;
    ret (None, [])
  else
    match Connect mongo (URL conf) with
    | Some err => ret (Some (UnableToConnect err), [CallConnect (URL conf)])
    | None =>
        let collection :=
          GetCollection mongo (Database conf) (Collection conf) in
        (fun w => Done tt (KldWebhooks.mkBridge
                             (Some (Insert collection))
                             (KldWebhooks.inserted w)
                             (KldWebhooks.logged w))) ;;
        let info := mgo.mkCollectionInfo (0 <? MaxDocs conf) (MaxDocs conf) in
        (match Create collection info with
         | Some _ => KldWebhooks.logf InfoLevel "MongoDB collection exists: %s"
         | None => ret tt
         end) ;;
        KldWebhooks.logf InfoLevel
          "Connected to MongoDB on %s DB=%s Collection=%s" ;;
        ret (None, [CallConnect (URL conf);
                    CallGetCollection (Database conf) (Collection conf);
                    CallCreate info])
    end.

End KldWebhooksMongo.

(** ** Package eth: the privacy group of a private transaction *)

Module Eth.

(** [OrionPrivacyGroup], the result of [priv_findPrivacyGroup]. *)
Record OrionPrivacyGroup := mkOrionPrivacyGroup {
  PrivacyGroupID : string
}.

(** The interface [RPCClient] as far as it is used: the two methods that
    are called through [CallContext], each by what it decodes into the
    result or the error it returns. *)
Record RPCClient := mkRPCClient {
  priv_findPrivacyGroup : list string -> list OrionPrivacyGroup + error;
  priv_createPrivacyGroup : gmap string (list string) -> string + error
}.

(** The calls made on the client. *)
Inductive RPCCall :=
| CallFindPrivacyGroup (allMembers : list string)
| CallCreatePrivacyGroup (params : gmap string (list string)).

(** [errors.Errorf(errors.RPCCallReturnedError, method, err)]. *)
Inductive RPCError :=
| RPCCallReturnedError (method : string) (err : error).

(** [GetOrionPrivacyGroup]: the result is the group id, the error and
    the calls that were made, in order.  The context only carries the
    timeout of 30 s, and the address argument is not used. *)
Definition GetOrionPrivacyGroup (rpc : RPCClient) (privateFrom : string)
    (privateFor : list string)
  : string * option RPCError * list RPCCall :=
  let allMembers := [privateFrom] ++ privateFor in
  let params : gmap string (list string) :=
    {[ "addresses" := allMembers ]} in
  match priv_findPrivacyGroup rpc allMembers with
  | inr err =>
      ("", Some (RPCCallReturnedError "priv_findPrivacyGroup" err),
       [CallFindPrivacyGroup allMembers])
  | inl privacyGroups =>
      if (length privacyGroups =? 0)%nat then
        match priv_createPrivacyGroup rpc params with
        | inr err =>
            ("", Some (RPCCallReturnedError "priv_createPrivacyGroup" err),
             [CallFindPrivacyGroup allMembers;
              CallCreatePrivacyGroup params])
        | inl privacyGroup =>
            (privacyGroup, None,
             [CallFindPrivacyGroup allMembers;
              CallCreatePrivacyGroup params])
        end
      else
        (default "" (PrivacyGroupID <$> head privacyGroups), None,
         [CallFindPrivacyGroup allMembers])
  end.

End Eth.

(** Two more documents for the decoder stub: a reply whose [requestId]
    is null, and the reply to a deployment. *)
Definition deploymentReply : Receipt :=
  {[ "headers" := headersOf "req-5" "transaction-success";
     "contractAddress" := JString "0x1234";
     "transactionHash" := JString "0xabcd" ]}.

Definition more_json_Unmarshal (msgBytes : list Byte.byte)
  : Receipt + error :=
  let text := string_of_list_byte msgBytes in
  if String.eqb text "requestId is null" then
    inl {[ "headers" := JObject {[ "requestId" := JNull ]} ]}
  else if String.eqb text "deployment req-5" then inl deploymentReply
  else mock_json_Unmarshal msgBytes.

Definition moreExternals : Externals := {|
  TransactionReceipt := list Byte.byte;
  RequestContext := option error;
  json_Unmarshal := more_json_Unmarshal;
  json_Unmarshal_receipt b := inl b;
  json_MarshalIndent _ := inl [];
  time_Parse_RFC3339Nano _ := None;
  AuthListAsyncReplies ctx := ctx;
  AuthReadAsyncReplyByUUID ctx := ctx;
  Code _ := "FFEC100212";
  ErrorNoCode _ := "Resubmission prevented: check the transaction hash"
|}.

(** A store for the deployment: its gateway's [PostDeploy] fails. *)
Definition brokenGateway : SmartContractGateway (Ext := moreExternals) :=
  mkGateway (Ext := moreExternals)
            (fun _ => Some (ErrorString "registration failed")).

Definition deployStore : receiptStore (Ext := moreExternals) :=
  newReceiptStore mockConf (Some emptyMock) (Some brokenGateway) 0.

(** A store without persistence tier, and one whose tier is down. *)
Definition disabledStore : receiptStore (Ext := mockExternals)
                                        (P := mockPersistence) :=
  newReceiptStore mockConf None None 0.

Definition downStore : receiptStore (Ext := mockExternals) :=
  newReceiptStore mockConf (Some downMock) (Some mockGateway) 0.

(** A request with one query parameter. *)
Definition requestWith (name value : string)
  : Request (Ext := mockExternals) :=
  mkRequest (Ext := mockExternals) None {[ name := [value] ]}.

(** A bridge whose collection refuses every document, and one without a
    collection. *)
Definition refusingBridge : KldWebhooks.WebhooksBridge :=
  KldWebhooks.mkBridge (Some (fun _ => Some (ErrorString "duplicate key")))
                       [] [].

Definition disabledBridge : KldWebhooks.WebhooksBridge :=
  KldWebhooks.mkBridge None [] [].

(** A database in the manner of the [mockMongo] of the tests: [connErr]
    is the answer of [Connect] and [collErr] that of [Create]; [Insert]
    accepts every document. *)
Definition mockMongo (connErr collErr : option error)
  : KldWebhooksMongo.MongoDatabase :=
  KldWebhooksMongo.mkDatabase
    (fun _ => connErr)
    (fun _ _ => KldWebhooksMongo.mkCollection (fun _ => None)
                                              (fun _ => collErr)).

Definition mockMongoConf : KldWebhooksMongo.MongoDBConf :=
  KldWebhooksMongo.mkMongoDBConf "mongodb://localhost:27017" "db" "receipts"
                                 1000.

(** A node that knows one privacy group, for the members [a] and [b]. *)
Definition mockRPC : Eth.RPCClient :=
  Eth.mkRPCClient
    (fun allMembers =>
       if bool_decide (allMembers = ["a"; "b"])
       then inl [Eth.mkOrionPrivacyGroup "group-1"]
       else inl [])
    (fun _ => inl "group-2").

(** A persistence tier whose writes all fail, each after [latency]
    nanoseconds on the clock, and two stores on it that retry after
    100 ms and for 100 ms: one with a latency of 1 ns, one with a latency
    of 150 ms. *)
Record slowPersistence := mkSlow {
  latency : N
}.

Definition slow_ReceiptStorePersistence
  : ReceiptStorePersistence slowPersistence := {|
  GetReceipts _ _ _ _ _ _ _ _ := (Some [], None);
  GetReceipt _ _ := (None, None);
  AddReceipt m _ _ _ := (Some (ErrorString "write failed"), m);
  AddReceiptDuration m _ _ _ := latency m
|}.

Definition shortConf : ReceiptStoreConf := mkConf 0 100 100 100.

Definition slowStore
  : receiptStore (Ext := mockExternals) (P := slowPersistence) :=
  newReceiptStore shortConf (Some (mkSlow 1)) None 0.

Definition stalledStore
  : receiptStore (Ext := mockExternals) (P := slowPersistence) :=
  newReceiptStore shortConf (Some (mkSlow 150000000)) None 0.
(** * Properties *)

Section Properties.

Context `{Ext : Externals} {P : Type} `{!ReceiptStorePersistence P}.

Implicit Types (r : @receiptStore Ext P) (p : P) (receipt : Receipt).

(** ** reserveID *)

Lemma reserved_insert msgID (m : gmap string bool) r :
  reserved msgID (set_reservedIDs (<[msgID := true]> m) r) = true.
Proof. unfold reserved; simpl. by rewrite lookup_insert_eq. Qed.

Lemma reserved_emit msgID e r : reserved msgID (emit e r) = reserved msgID r.
Proof. reflexivity. Qed.

Lemma reserveID_held msgID r p :
  persistence r = Some p -> reserved msgID r = true ->
  reserveID msgID r =
    Done (None,
          Some (match snd (GetReceipt p msgID) with
                | Some e => e
                | None => Errorf ReceiptStoreKeyNotUnique []
                end))
         (emit (EvGetReceipt msgID (GetReceipt p msgID)) r).
Proof.
  intros Hp Hres.
  unfold reserveID, bind, persistence_GetReceipt. rewrite Hp.
  destruct (GetReceipt p msgID) as [m [e|]]; simpl; [done|].
  rewrite reserved_emit, Hres, orb_true_r. done.
Qed.

Lemma reserveID_success msgID r rel r1 :
  reserveID msgID r = Done (Some rel, None) r1 ->
  exists p, persistence r = Some p
    /\ GetReceipt p msgID = (None, None)
    /\ reserved msgID r = false
    /\ rel = release msgID
    /\ r1 = set_reservedIDs (<[msgID := true]> (reservedIDs r))
              (emit (EvGetReceipt msgID (None, None)) r).
Proof.
  unfold reserveID, bind, persistence_GetReceipt.
  destruct (persistence r) as [p|] eqn:Hp; [|done].
  destruct (GetReceipt p msgID) as [m [e|]] eqn:Hget; simpl; [done|].
  rewrite reserved_emit.
  destruct m as [m|]; simpl; [done|].
  destruct (reserved msgID r) eqn:Hres; simpl; [done|].
  intros [= <- <-]. by exists p.
Qed.

(** C2 (as amended): once [reserveID] has succeeded for an id, the id is
    in the reservation set; while it is there, every further
    [reserveID] of the id returns no handle and an error, which is
    KeyNotUnique when the lookup of the receipt succeeds and the error
    of the lookup otherwise, and leaves the reservation set as it is;
    the release handle removes the id from the set. *)
Theorem reserveID_idempotency (msgID : string) r rel r1 :
  reserveID msgID r = Done (Some rel, None) r1 ->
  reserved msgID r1 = true
  /\ (forall r2 p,
        persistence r2 = Some p -> reserved msgID r2 = true ->
        exists e r2',
          reserveID msgID r2 = Done (None, Some e) r2'
          /\ reservedIDs r2' = reservedIDs r2
          /\ (snd (GetReceipt p msgID) = None ->
              e = Errorf ReceiptStoreKeyNotUnique [])
          /\ (forall e', snd (GetReceipt p msgID) = Some e' -> e = e'))
  /\ (forall r2, exists r3,
        rel r2 = Done tt r3
        /\ reservedIDs r3 = delete msgID (reservedIDs r2)
        /\ reserved msgID r3 = false).
Proof.
  intros Hfirst.
  destruct (reserveID_success _ _ _ _ Hfirst)
    as (p0 & Hp0 & Hget0 & Hfree & -> & ->).
  split; [apply reserved_insert|]. split.
  - intros r2 p Hp Hres. eexists _, _. split; [by apply reserveID_held|].
    split; [done|]. split.
    + by intros ->.
    + by intros e' ->.
  - intros r2. eexists. split; [reflexivity|]. split; [done|].
    unfold reserved; simpl. by rewrite lookup_delete_eq.
Qed.

(** ** writeReceipt *)

Lemma sleepsOf_app (a b : list Event) :
  sleepsOf (a ++ b) = sleepsOf a ++ sleepsOf b.
Proof. apply omap_app. Qed.

Lemma writesOf_app (a b : list Event) :
  writesOf (a ++ b) = writesOf a ++ writesOf b.
Proof. apply omap_app. Qed.

Lemma repliesOf_app (a b : list Event) :
  repliesOf (a ++ b) = repliesOf a ++ repliesOf b.
Proof. apply omap_app. Qed.

Lemma wrap64_small z : - 2 ^ 63 <= z < 2 ^ 63 -> Go.wrap64 z = z.
Proof.
  intros Hz. unfold Go.wrap64.
  rewrite Z.mod_small; lia.
Qed.

Lemma satInt64_mono a b : a <= b -> Go.satInt64 a <= Go.satInt64 b.
Proof. unfold Go.satInt64. lia. Qed.

Lemma took_nonneg n : forall p (id : string) receipt overwrite,
  0 <= took n p id receipt overwrite.
Proof.
  induction n as [|n IH]; intros p id receipt overwrite; simpl; [lia|].
  specialize (IH (AddReceipt p id receipt overwrite).2 id receipt overwrite).
  lia.
Qed.

Section Loop.

Variables (requestID : string) (receipt : Receipt) (overwrite : bool)
          (startTime retryTimeout : Z).

#[local] Abbreviation loop fuel :=
  (writeReceipt_loop fuel requestID receipt overwrite startTime retryTimeout).
#[local] Abbreviation failed :=
  (fun e : error => (requestID, receipt, overwrite, Some e)).
#[local] Abbreviation panicFormat :=
  "%s: Failed to insert into receipt store after %.2fs: %s".
#[local] Abbreviation duration p :=
  (Z.of_N (AddReceiptDuration p requestID receipt overwrite)).
#[local] Abbreviation spent n p := (took n p requestID receipt overwrite).

(** One iteration, written out. *)
Lemma writeReceipt_loop_step fuel delay attempt r p :
  persistence r = Some p ->
  let r1 :=
    if 0 <? attempt then
      emit (EvSleep delay)
        (set_clock (clock r + Z.max 0 delay)
           (emit (EvLog InfoLevel
                    "%s: Waiting %.2fs before re-attempt:%d mongo write")
                 r))
    else r in
  let delay' := if 0 <? attempt then backoff delay else delay in
  let written p' := set_persistence p' (set_clock (clock r1 + duration p) r1) in
  loop (S fuel) delay attempt r =
    match AddReceipt p requestID receipt overwrite with
    | (None, p') =>
        Done Break
          (emit (EvLog InfoLevel "%s: Inserted receipt into receipt store")
             (emit (EvAddReceipt requestID receipt overwrite None)
                   (written p')))
    | (Some e, p') =>
        let r2 := emit (EvAddReceipt requestID receipt overwrite (Some e))
                       (written p') in
        if negb overwrite then Done (Return e) r2
        else
          let r3 :=
            emit (EvLog ErrorLevel
                    "%s: addReceipt attempt: %d failed, err: %s") r2 in
          if retryTimeout <? Go.satInt64 (clock r3 - startTime) then
            Panic (LogPanic panicFormat)
              (emit (EvLog PanicLevel panicFormat)
                 (emit (EvLog InfoLevel "%s: receipt: %+v") r3))
          else loop fuel delay' (Go.wrap64 (attempt + 1)) r3
    end.
Proof.
  intros Hp. cbn zeta beta.
  unfold writeReceipt_loop; fold writeReceipt_loop.
  destruct (0 <? attempt);
    unfold bind, log, time_Sleep, ret, persistence_AddReceipt,
           time_Since, panic; cbn beta iota; cbn [persistence emit set_clock];
    rewrite Hp;
    destruct (AddReceipt p requestID receipt overwrite) as [[e|] p'];
    try reflexivity;
    destruct overwrite; cbn [negb]; try reflexivity;
    cbn [clock emit set_clock set_persistence];
    match goal with
    | |- context [retryTimeout <? ?t] => destruct (retryTimeout <? t)
    end; reflexivity.
Qed.

(** The run of the loop from an iteration that is not the first one:
    either the fuel runs out, or there is a number of failed writes,
    each followed by a retry because the deadline had not passed on the
    clock, and a last write that ends the loop.  The clock has moved on
    by the sleeps and by the time that the writes took. *)
Lemma writeReceipt_loop_run fuel : forall delay attempt r p,
  0 < attempt -> attempt + Z.of_nat fuel < 2 ^ 63 ->
  persistence r = Some p ->
  loop fuel delay attempt r = OutOfFuel
  \/ exists r' evs fails last,
       events r' = events r ++ evs
       /\ sameStore r r'
       /\ clock r'
          = clock r + slept (sleepsOf evs) + spent (S (length fails)) p
       /\ sleepsOf evs = schedule (S (length fails)) delay
       /\ writesOf evs = (failed <$> fails)
                         ++ [(requestID, receipt, overwrite, last)]
       /\ repliesOf evs = []
       /\ (forall k, (k < length fails)%nat ->
             Go.satInt64 (clock r + slept (schedule (S k) delay)
                          + spent (S k) p - startTime) <= retryTimeout)
       /\ match last with
          | None => loop fuel delay attempt r = Done Break r'
          | Some e =>
              if overwrite then
                loop fuel delay attempt r
                = Panic (LogPanic panicFormat) r'
                /\ retryTimeout < Go.satInt64 (clock r' - startTime)
              else
                loop fuel delay attempt r = Done (Return e) r'
                /\ fails = []
          end.
Proof.
  induction fuel as [|fuel IH]; intros delay attempt r p Hpos Hfuel Hp;
    [by left|].
  assert (Hattempt : (0 <? attempt) = true) by (apply Z.ltb_lt; lia).
  rewrite (writeReceipt_loop_step fuel delay attempt r p Hp).
  rewrite Hattempt. cbn zeta.
  set (r1 := emit (EvSleep delay) _).
  destruct (AddReceipt p requestID receipt overwrite) as [[e|] p'] eqn:Hadd.
  2:{ (* the write succeeds *)
    right. eexists _, _, [], None.
    split; [|split; [|split; [|split; [|split; [|split; [|split]]]]]];
      [ | | | | | | |reflexivity].
    - subst r1; simpl. rewrite <- !app_assoc. reflexivity.
    - subst r1; repeat split; simpl; eauto.
    - subst r1; simpl. lia.
    - reflexivity.
    - reflexivity.
    - reflexivity.
    - simpl; lia. }
  destruct overwrite eqn:How; cbn [negb].
  2:{ (* no retry *)
    right. eexists _, _, [], (Some e).
    split; [|split; [|split; [|split; [|split; [|split; [|split]]]]]];
      [ | | | | | | |split; reflexivity].
    - subst r1; simpl. rewrite <- !app_assoc. reflexivity.
    - subst r1; repeat split; simpl; eauto.
    - subst r1; simpl. lia.
    - reflexivity.
    - reflexivity.
    - reflexivity.
    - simpl; lia. }
  set (r2 := emit (EvLog ErrorLevel _) _).
  assert (Hclock2 : clock r2
                    = clock r + Z.max 0 delay
                      + Z.of_N (AddReceiptDuration p requestID receipt true))
    by (subst r2 r1; reflexivity).
  destruct (retryTimeout <? Go.satInt64 (clock r2 - startTime)) eqn:Hlate.
  { (* past the deadline *)
    right. eexists _, _, [], (Some e).
    split; [|split; [|split; [|split; [|split; [|split; [|split]]]]]];
      [ | | | | | | |split; [reflexivity|]].
    - subst r2 r1; simpl. rewrite <- !app_assoc. reflexivity.
    - subst r2 r1; repeat split; simpl; eauto.
    - subst r2 r1; simpl. lia.
    - reflexivity.
    - reflexivity.
    - reflexivity.
    - simpl; lia.
    - apply Z.ltb_lt in Hlate. exact Hlate. }
  (* within the deadline: the next iteration *)
  apply Z.ltb_ge in Hlate.
  rewrite (wrap64_small (attempt + 1)) by lia.
  destruct (IH (backoff delay) (attempt + 1) r2 p') as
    [Hout | (r' & evs & fails & last & Hev & Hsame & Hclock & Hsl & Hwr
             & Hrep & Hwithin & Hlast)];
    [lia | lia | by (subst r2 r1; simpl) | by left |].
  right. exists r', ([EvLog InfoLevel
            "%s: Waiting %.2fs before re-attempt:%d mongo write";
          EvSleep delay;
          EvAddReceipt requestID receipt true (Some e);
          EvLog ErrorLevel "%s: addReceipt attempt: %d failed, err: %s"]
         ++ evs), (e :: fails), last.
  assert (Hspent : forall n,
             took (S n) p requestID receipt true
             = Z.of_N (AddReceiptDuration p requestID receipt true)
               + took n p' requestID receipt true).
  { intros n. simpl. by rewrite Hadd. }
  split; [|split; [|split; [|split; [|split; [|split; [|split]]]]]].
  - rewrite Hev. subst r2 r1; simpl. rewrite <- !app_assoc. reflexivity.
  - destruct Hsame as (? & ? & ? & ?). repeat split; [by etrans| by etrans
      | by etrans | done].
  - rewrite Hclock, Hclock2, sleepsOf_app.
    change (length (e :: fails)) with (S (length fails)).
    rewrite (Hspent (S (length fails))). simpl sleepsOf. simpl slept. lia.
  - rewrite sleepsOf_app, Hsl. reflexivity.
  - rewrite writesOf_app, Hwr. reflexivity.
  - rewrite repliesOf_app, Hrep. reflexivity.
  - intros [|k] Hk.
    + rewrite (Hspent 0%nat). simpl. rewrite !Z.add_0_r, <- Hclock2.
      exact Hlate.
    + specialize (Hwithin k ltac:(simpl in Hk; lia)).
      rewrite Hclock2 in Hwithin. rewrite (Hspent (S k)).
      change (schedule (S (S k)) delay)
        with (delay :: schedule (S k) (backoff delay)).
      change (slept (delay :: ?l)) with (Z.max 0 delay + slept l).
      replace (clock r + (Z.max 0 delay
                          + slept (schedule (S k) (backoff delay)))
               + (Z.of_N (AddReceiptDuration p requestID receipt true)
                  + took (S k) p' requestID receipt true) - startTime)
        with (clock r + Z.max 0 delay
              + Z.of_N (AddReceiptDuration p requestID receipt true)
              + slept (schedule (S k) (backoff delay))
              + took (S k) p' requestID receipt true - startTime)
        by lia.
      exact Hwithin.
  - exact Hlast.
Qed.

(** When the fuel runs out, every attempt has failed within the
    deadline. *)
Lemma writeReceipt_loop_out_of_fuel fuel : forall delay attempt r p,
  0 < attempt -> attempt + Z.of_nat fuel < 2 ^ 63 ->
  persistence r = Some p ->
  loop fuel delay attempt r = OutOfFuel ->
  forall k, (k < fuel)%nat ->
    Go.satInt64 (clock r + slept (schedule (S k) delay) + spent (S k) p
                 - startTime)
    <= retryTimeout.
Proof.
  induction fuel as [|fuel IH]; intros delay attempt r p Hpos Hfuel Hp;
    [intros _ k Hk; lia|].
  assert (Hattempt : (0 <? attempt) = true) by (apply Z.ltb_lt; lia).
  rewrite (writeReceipt_loop_step fuel delay attempt r p Hp).
  rewrite Hattempt. cbn zeta.
  destruct (AddReceipt p requestID receipt overwrite) as [[e|] p'] eqn:Hadd;
    [|done].
  destruct (negb overwrite); [done|].
  set (r2 := emit (EvLog ErrorLevel _) _).
  assert (Hclock2 : clock r2 = clock r + Z.max 0 delay + duration p)
    by reflexivity.
  destruct (retryTimeout <? Go.satInt64 (clock r2 - startTime)) eqn:Hlate;
    [done|].
  apply Z.ltb_ge in Hlate.
  rewrite (wrap64_small (attempt + 1)) by lia.
  assert (Hspent : forall n, spent (S n) p = duration p + spent n p').
  { intros n. simpl. by rewrite Hadd. }
  intros Hout [|k] Hk.
  - rewrite (Hspent 0%nat). simpl. rewrite !Z.add_0_r, <- Hclock2.
    exact Hlate.
  - assert (Hk' : (k < fuel)%nat) by lia.
    pose proof (IH (backoff delay) (attempt + 1) r2 p' ltac:(lia) ltac:(lia)
                   ltac:(by (subst r2; simpl)) Hout k Hk') as Hw.
    rewrite Hclock2 in Hw. rewrite (Hspent (S k)).
    change (schedule (S (S k)) delay)
      with (delay :: schedule (S k) (backoff delay)).
    change (slept (delay :: ?l)) with (Z.max 0 delay + slept l).
    replace (clock r + (Z.max 0 delay
                        + slept (schedule (S k) (backoff delay)))
             + (duration p + spent (S k) p') - startTime)
      with (clock r + Z.max 0 delay + duration p
            + slept (schedule (S k) (backoff delay)) + spent (S k) p'
            - startTime)
      by lia.
    exact Hw.
Qed.

End Loop.

Lemma writeReceipt_unfold fuel requestID receipt overwrite r :
  writeReceipt fuel requestID receipt overwrite r =
    match writeReceipt_loop fuel requestID receipt overwrite (clock r)
            (retryDeadline r) (initialDelay r) 0 r with
    | Done Break r' =>
        Done None
          match smartContractGW r' with
          | Some _ => emit (EvSendReply receipt) r'
          | None => r'
          end
    | Done (Return err) r' => Done (Some err) r'
    | Panic v r' => Panic v r'
    | OutOfFuel => OutOfFuel
    end.
Proof.
  unfold writeReceipt, bind, time_Now, initialDelay, retryDeadline.
  destruct (writeReceipt_loop _ _ _ _ _ _ _ _ r) as [[|err] r'|v r'|];
    try reflexivity.
  unfold sendReply, ret. destruct (smartContractGW r'); reflexivity.
Qed.

Lemma satInt64_0 : Go.satInt64 0 = 0.
Proof. reflexivity. Qed.

(** The run of [writeReceipt]: unless the fuel runs out, there are the
    failed writes that were retried, each because the time on the clock
    (the sleeps so far and the time that the writes took) was within the
    deadline, separated by the sleeps of the schedule, and the last
    write, which decides the outcome. *)
Lemma writeReceipt_run fuel requestID receipt overwrite r p :
  persistence r = Some p -> Z.of_nat fuel < 2 ^ 62 ->
  writeReceipt fuel requestID receipt overwrite r = OutOfFuel
  \/ exists r' evs fails last,
       events r' = events r ++ evs
       /\ sameStore r r'
       /\ sleepsOf evs = schedule (length fails) (initialDelay r)
       /\ writesOf evs
          = ((fun e => (requestID, receipt, overwrite, Some e)) <$> fails)
            ++ [(requestID, receipt, overwrite, last)]
       /\ (clock r'
           = clock r + slept (sleepsOf evs)
             + took (S (length fails)) p requestID receipt overwrite
           /\ forall k, (k < length fails)%nat ->
                Go.satInt64
                  (slept (schedule k (initialDelay r))
                   + took (S k) p requestID receipt overwrite)
                <= retryDeadline r)
       /\ match last with
          | None =>
              writeReceipt fuel requestID receipt overwrite r = Done None r'
              /\ (forall gw, smartContractGW r = Some gw ->
                    exists evs0, evs = evs0 ++ [EvSendReply receipt]
                                 /\ repliesOf evs0 = [])
              /\ (smartContractGW r = None -> repliesOf evs = [])
          | Some e =>
              repliesOf evs = []
              /\ if overwrite then
                   writeReceipt fuel requestID receipt overwrite r
                   = Panic (LogPanic
                       "%s: Failed to insert into receipt store after %.2fs: %s")
                       r'
                   /\ retryDeadline r < Go.satInt64 (clock r' - clock r)
                 else
                   writeReceipt fuel requestID receipt overwrite r
                   = Done (Some e) r'
                   /\ evs = [EvAddReceipt requestID receipt false (Some e)]
          end.
Proof.
  intros Hp Hfuel. rewrite writeReceipt_unfold.
  destruct fuel as [|fuel]; [by left|].
  rewrite (writeReceipt_loop_step _ _ _ _ _ fuel _ 0 r p Hp).
  change (0 <? 0) with false. cbn zeta iota.
  destruct (AddReceipt p requestID receipt overwrite) as [[e|] p'] eqn:Hadd.
  2:{ (* the first write succeeds *)
    right.
    destruct (smartContractGW r) as [gw|] eqn:Hgw.
    - eexists _, _, [], None.
      cbn [smartContractGW emit set_persistence set_clock].
      rewrite Hgw.
      split; [|split; [|split; [|split; [|split; [|split; [|split]]]]]];
        [ | | | | |reflexivity| | ].
      + simpl. rewrite <- !app_assoc. reflexivity.
      + repeat split; simpl; eauto.
      + reflexivity.
      + reflexivity.
      + split; [simpl; lia|simpl; lia].
      + intros gw' _.
        exists [EvAddReceipt requestID receipt overwrite None;
                EvLog InfoLevel "%s: Inserted receipt into receipt store"].
        split; reflexivity.
      + done.
    - eexists _, _, [], None.
      cbn [smartContractGW emit set_persistence set_clock].
      rewrite Hgw.
      split; [|split; [|split; [|split; [|split; [|split; [|split]]]]]];
        [ | | | | |reflexivity| | ].
      + simpl. rewrite <- !app_assoc. reflexivity.
      + repeat split; simpl; eauto.
      + reflexivity.
      + reflexivity.
      + split; [simpl; lia|simpl; lia].
      + done.
      + reflexivity. }
  destruct overwrite eqn:How; cbn [negb].
  2:{ (* no retry *)
    right.
    exists (emit (EvAddReceipt requestID receipt false (Some e))
              (set_persistence p'
                 (set_clock
                    (clock r
                     + Z.of_N (AddReceiptDuration p requestID receipt false))
                    r))),
           [EvAddReceipt requestID receipt false (Some e)], [], (Some e).
    split; [|split; [|split; [|split; [|split; [|split; [|split]]]]]];
      try reflexivity.
    - repeat split; simpl; eauto.
    - split; [simpl; lia|simpl; lia]. }
  set (r3 := emit (EvLog ErrorLevel _) _).
  assert (Hclock3 : clock r3
                    = clock r
                      + Z.of_N (AddReceiptDuration p requestID receipt true))
    by reflexivity.
  assert (Hspent : forall n,
             took (S n) p requestID receipt true
             = Z.of_N (AddReceiptDuration p requestID receipt true)
               + took n p' requestID receipt true).
  { intros n. simpl. by rewrite Hadd. }
  destruct (retryDeadline r <? Go.satInt64 (clock r3 - clock r)) eqn:Hlate.
  { (* a deadline that has passed at the first failure *)
    right.
    eexists _, [EvAddReceipt requestID receipt true (Some e);
                EvLog ErrorLevel "%s: addReceipt attempt: %d failed, err: %s";
                EvLog InfoLevel "%s: receipt: %+v";
                EvLog PanicLevel
                  "%s: Failed to insert into receipt store after %.2fs: %s"],
             [], (Some e).
    split; [|split; [|split; [|split; [|split; [|split; [|split]]]]]];
      [ | | | | | |reflexivity| ].
    - subst r3; simpl. rewrite <- !app_assoc. reflexivity.
    - subst r3; repeat split; simpl; eauto.
    - reflexivity.
    - reflexivity.
    - split; [simpl; lia|simpl; lia].
    - reflexivity.
    - apply Z.ltb_lt in Hlate. exact Hlate. }
  apply Z.ltb_ge in Hlate.
  change (Go.wrap64 (0 + 1)) with 1.
  assert (Hp3 : persistence r3 = Some p') by (subst r3; reflexivity).
  destruct (writeReceipt_loop_run requestID receipt true (clock r)
              (retryDeadline r) fuel (initialDelay r) 1 r3 p'
              ltac:(lia) ltac:(lia) Hp3)
    as [Hout | (r' & evs & fails & last & Hev & Hsame & Hclock & Hsl & Hwr
                & Hrep & Hwithin & Hlast)];
    [left; by rewrite Hout|].
  right.
  assert (Hsame3 : sameStore r r').
  { destruct Hsame as (? & ? & ? & ?). repeat split; [by etrans | by etrans
      | by etrans | done]. }
  assert (Hwithin' : forall k, (k < length (e :: fails))%nat ->
            Go.satInt64 (slept (schedule k (initialDelay r))
                         + took (S k) p requestID receipt true)
            <= retryDeadline r).
  { intros [|k] Hk.
    - rewrite (Hspent 0%nat). simpl. rewrite Z.add_0_r.
      rewrite Hclock3 in Hlate.
      replace (clock r + Z.of_N (AddReceiptDuration p requestID receipt true)
               - clock r)
        with (Z.of_N (AddReceiptDuration p requestID receipt true))
        in Hlate by lia.
      exact Hlate.
    - specialize (Hwithin k ltac:(simpl in Hk; lia)).
      rewrite Hclock3 in Hwithin. rewrite (Hspent (S k)).
      replace (clock r + Z.of_N (AddReceiptDuration p requestID receipt true)
               + slept (schedule (S k) (initialDelay r))
               + took (S k) p' requestID receipt true - clock r)
        with (slept (schedule (S k) (initialDelay r))
              + (Z.of_N (AddReceiptDuration p requestID receipt true)
                 + took (S k) p' requestID receipt true)) in Hwithin by lia.
      exact Hwithin. }
  assert (Hclock' : forall tail,
            sleepsOf tail = [] ->
            clock r'
            = clock r
              + slept (sleepsOf
                  ([EvAddReceipt requestID receipt true (Some e);
                    EvLog ErrorLevel
                      "%s: addReceipt attempt: %d failed, err: %s"]
                   ++ evs ++ tail))
              + took (S (length (e :: fails))) p requestID receipt true).
  { intros tail Htail. rewrite Hclock, Hclock3.
    rewrite !sleepsOf_app, Htail, app_nil_r.
    change (length (e :: fails)) with (S (length fails)).
    rewrite (Hspent (S (length fails))). simpl sleepsOf. simpl app. lia. }
  destruct last as [e'|].
  - destruct Hlast as [Hlast Hdead]. rewrite Hlast.
    exists r', ([EvAddReceipt requestID receipt true (Some e);
                 EvLog ErrorLevel "%s: addReceipt attempt: %d failed, err: %s"]
                ++ evs), (e :: fails), (Some e').
    split; [|split; [|split; [|split; [|split; [|split; [|split]]]]]];
      [ | | | | | |reflexivity| ].
    + rewrite Hev. subst r3; simpl. rewrite <- !app_assoc. reflexivity.
    + exact Hsame3.
    + rewrite sleepsOf_app, Hsl. reflexivity.
    + rewrite writesOf_app, Hwr. reflexivity.
    + split; [|exact Hwithin'].
      rewrite (Hclock' [] eq_refl). by rewrite app_nil_r.
    + rewrite repliesOf_app, Hrep. reflexivity.
    + exact Hdead.
  - rewrite Hlast.
    assert (Hgw' : smartContractGW r' = smartContractGW r)
      by (destruct Hsame3 as (? & ? & ?); done).
    rewrite Hgw'.
    destruct (smartContractGW r) as [gw|] eqn:Hgw.
    + exists (emit (EvSendReply receipt) r'),
        ([EvAddReceipt requestID receipt true (Some e);
          EvLog ErrorLevel "%s: addReceipt attempt: %d failed, err: %s"]
         ++ evs ++ [EvSendReply receipt]), (e :: fails), None.
      split; [|split; [|split; [|split; [|split; [|split; [|split]]]]]];
        [ | | | | |reflexivity| | ].
      * simpl. rewrite Hev. subst r3; simpl. rewrite <- !app_assoc.
        reflexivity.
      * destruct Hsame3 as (? & ? & ? & ?). repeat split; simpl; done.
      * rewrite sleepsOf_app, sleepsOf_app, Hsl. simpl.
        by rewrite app_nil_r.
      * rewrite writesOf_app, writesOf_app, Hwr. simpl.
        by rewrite app_nil_r.
      * split; [|exact Hwithin'].
        change (clock (emit (EvSendReply receipt) r')) with (clock r').
        exact (Hclock' [EvSendReply receipt] eq_refl).
      * intros gw' _. eexists. split; [by rewrite app_assoc|].
        rewrite repliesOf_app, Hrep. reflexivity.
      * done.
    + exists r', ([EvAddReceipt requestID receipt true (Some e);
                   EvLog ErrorLevel
                     "%s: addReceipt attempt: %d failed, err: %s"]
                  ++ evs), (e :: fails), None.
      split; [|split; [|split; [|split; [|split; [|split; [|split]]]]]];
        [ | | | | |reflexivity| | ].
      * rewrite Hev. subst r3; simpl. rewrite <- !app_assoc. reflexivity.
      * exact Hsame3.
      * rewrite sleepsOf_app, Hsl. reflexivity.
      * rewrite writesOf_app, Hwr. reflexivity.
      * split; [|exact Hwithin'].
        rewrite (Hclock' [] eq_refl). by rewrite app_nil_r.
      * done.
      * intros _. rewrite repliesOf_app, Hrep. reflexivity.
Qed.

(** With fuel for as many attempts as the deadline leaves room for, the
    run of [writeReceipt] ends: the time on the clock is at least the
    time of the sleeps. *)
Lemma writeReceipt_terminates n requestID receipt overwrite r :
  is_Some (persistence r) -> Z.of_nat n < 2 ^ 62 ->
  retryDeadline r < Go.satInt64 (slept (schedule n (initialDelay r))) ->
  writeReceipt (S n) requestID receipt overwrite r <> OutOfFuel.
Proof.
  intros [p Hp] Hn Hdead. rewrite writeReceipt_unfold.
  rewrite (writeReceipt_loop_step _ _ _ _ _ n _ 0 r p Hp).
  change (0 <? 0) with false. cbn zeta iota.
  destruct (AddReceipt p requestID receipt overwrite) as [[e|] p'] eqn:Hadd;
    [|done].
  destruct overwrite; cbn [negb]; [|done].
  set (r3 := emit (EvLog ErrorLevel _) _).
  assert (Hclock3 : clock r3
                    = clock r
                      + Z.of_N (AddReceiptDuration p requestID receipt true))
    by reflexivity.
  destruct (retryDeadline r <? Go.satInt64 (clock r3 - clock r)) eqn:Hlate;
    [done|].
  apply Z.ltb_ge in Hlate.
  change (Go.wrap64 (0 + 1)) with 1.
  destruct (writeReceipt_loop n requestID receipt true (clock r)
              (retryDeadline r) (initialDelay r) 1 r3) as [[|err] r'|v r'|]
    eqn:Hloop; try done.
  destruct n as [|n].
  { simpl in Hdead. rewrite satInt64_0 in Hdead.
    assert (Go.satInt64 0 <= Go.satInt64 (clock r3 - clock r))
      by (apply satInt64_mono; lia).
    rewrite satInt64_0 in *. lia. }
  pose proof (writeReceipt_loop_out_of_fuel requestID receipt true (clock r)
                (retryDeadline r) (S n) (initialDelay r) 1 r3 p'
                ltac:(lia) ltac:(lia) ltac:(by (subst r3; simpl))
                Hloop n ltac:(lia)) as Hw.
  rewrite Hclock3 in Hw.
  pose proof (took_nonneg (S n) p' requestID receipt true) as Hnonneg.
  assert (Go.satInt64 (slept (schedule (S n) (initialDelay r)))
          <= Go.satInt64
               (clock r + Z.of_N (AddReceiptDuration p requestID receipt true)
                + slept (schedule (S n) (initialDelay r))
                + took (S n) p' requestID receipt true - clock r))
    by (apply satInt64_mono; lia).
  lia.
Qed.

(** With [overwriteAndRetry] the loop is never left by [return err]. *)
Lemma writeReceipt_loop_no_error requestID receipt fuel :
  forall start timeout delay attempt r err r',
    writeReceipt_loop fuel requestID receipt true start timeout delay
                      attempt r
    <> Done (Return err) r'.
Proof.
  induction fuel as [|fuel IH];
    intros start timeout delay attempt r err r'; [done|].
  unfold writeReceipt_loop; fold writeReceipt_loop.
  unfold bind.
  destruct (if 0 <? attempt then _ else _) as [delay' r1|v r1|];
    [|done|done].
  destruct (persistence_AddReceipt requestID receipt true r1)
    as [[e|] r2|v r2|]; cbn [negb]; try done.
  unfold log at 1. cbn beta iota.
  unfold time_Since at 1. cbn beta iota.
  destruct (timeout <? _); [done|]. unfold ret. apply IH.
Qed.

(** C3: the retry policy of [writeReceipt].  The store built by
    [newReceiptStore] retries after 500 ms and for 120 s unless the
    configuration says otherwise.  Without [overwriteAndRetry] a failed
    first write is returned at once, after that single call of
    [AddReceipt] and no sleep.  With it, a run that ends consists of the
    failed writes that were retried, of the sleeps between the writes,
    which start at the initial delay and are multiplied by the float64
    1.1 each time, and of a last write.  The deadline is compared with
    the time on the clock since the start, which is the time of the
    sleeps so far and the time that the writes took: a failed write is
    retried when this time is within the deadline, and the run panics at
    the first failed write that finds it beyond, be it the first write
    of all.  The run returns nil when the last write succeeds, and never
    returns an error.  Given fuel for the attempts that the sleeps alone
    leave room for, the run does end. *)
Theorem writeReceipt_retry_policy (requestID : string) receipt r p :
  persistence r = Some p ->
  (forall c gw now,
      let r0 := newReceiptStore c (Some p) gw now in
      RetryInitialDelayMS (conf r0)
      = (if RetryInitialDelayMS c <=? 0 then 500
         else RetryInitialDelayMS c)
      /\ RetryTimeoutMS (conf r0)
         = (if RetryTimeoutMS c <=? 0 then 120 * 1000
            else RetryTimeoutMS c))
  /\ (forall delay,
        backoff delay
        = Go.int64_of_float64
            (Go.float64_mul (Go.float64_of_int delay) backoffFactor))
  /\ backoffFactor
     = SFdiv Go.prec Go.emax (Go.float64_of_int 11) (Go.float64_of_int 10)
  /\ schedule 3 (500 * Go.Millisecond)
     = [500 * Go.Millisecond; 550 * Go.Millisecond; 605 * Go.Millisecond]
  /\ (forall fuel e p',
        AddReceipt p requestID receipt false = (Some e, p') ->
        writeReceipt (S fuel) requestID receipt false r
        = Done (Some e)
               (emit (EvAddReceipt requestID receipt false (Some e))
                  (set_persistence p'
                     (set_clock
                        (clock r
                         + Z.of_N (AddReceiptDuration p requestID receipt
                                                      false))
                        r))))
  /\ (forall fuel, Z.of_nat fuel < 2 ^ 62 ->
        writeReceipt fuel requestID receipt true r = OutOfFuel
        \/ exists r' evs fails last,
             events r' = events r ++ evs
             /\ sleepsOf evs = schedule (length fails) (initialDelay r)
             /\ writesOf evs
                = ((fun e => (requestID, receipt, true, Some e)) <$> fails)
                  ++ [(requestID, receipt, true, last)]
             /\ clock r'
                = clock r + slept (sleepsOf evs)
                  + took (S (length fails)) p requestID receipt true
             /\ (forall k, (k < length fails)%nat ->
                   Go.satInt64
                     (slept (schedule k (initialDelay r))
                      + took (S k) p requestID receipt true)
                   <= retryDeadline r)
             /\ match last with
                | None =>
                    writeReceipt fuel requestID receipt true r
                    = Done None r'
                | Some e =>
                    writeReceipt fuel requestID receipt true r
                    = Panic (LogPanic
                        "%s: Failed to insert into receipt store after %.2fs: %s")
                        r'
                    /\ retryDeadline r
                       < Go.satInt64
                           (slept (schedule (length fails) (initialDelay r))
                            + took (S (length fails)) p requestID receipt
                                   true)
                end)
  /\ (forall fuel e p',
        AddReceipt p requestID receipt true = (Some e, p') ->
        retryDeadline r
        < Go.satInt64 (Z.of_N (AddReceiptDuration p requestID receipt true)) ->
        exists r',
          writeReceipt (S fuel) requestID receipt true r
          = Panic (LogPanic
              "%s: Failed to insert into receipt store after %.2fs: %s") r'
          /\ writesOf (drop (length (events r)) (events r'))
             = [(requestID, receipt, true, Some e)]
          /\ sleepsOf (drop (length (events r)) (events r')) = [])
  /\ (forall fuel e r',
        writeReceipt fuel requestID receipt true r <> Done (Some e) r')
  /\ (forall n overwrite,
        Z.of_nat n < 2 ^ 62 ->
        retryDeadline r
        < Go.satInt64 (slept (schedule n (initialDelay r))) ->
        writeReceipt (S n) requestID receipt overwrite r <> OutOfFuel).
Proof.
  intros Hp.
  assert (Hsome : is_Some (persistence r)) by eauto.
  split; [|split; [|split; [|split; [|split; [|split; [|split; [|split]]]]]]].
  - intros c gw now. unfold newReceiptStore. cbn zeta.
    destruct (RetryTimeoutMS c <=? 0) eqn:Ht;
      destruct (RetryInitialDelayMS c <=? 0) eqn:Hd; cbn;
      rewrite ?Hd; cbn;
      destruct (MaxDocs c <=? 0); cbn; rewrite ?Ht, ?Hd; done.
  - reflexivity.
  - vm_compute. reflexivity.
  - vm_compute. reflexivity.
  - intros fuel e p' Hadd. rewrite writeReceipt_unfold.
    rewrite (writeReceipt_loop_step _ _ _ _ _ fuel _ 0 r p Hp).
    change (0 <? 0) with false. cbn zeta iota. rewrite Hadd. reflexivity.
  - intros fuel Hfuel.
    destruct (writeReceipt_run fuel requestID receipt true r p Hp Hfuel)
      as [Hout | (r' & evs & fails & last & Hev & _ & Hsl & Hwr
                  & [Hclock Hwithin] & Hlast)]; [by left|].
    right. exists r', evs, fails, last.
    split; [done|]. split; [done|]. split; [done|]. split; [done|].
    split; [done|].
    destruct last as [e|]; [|by destruct Hlast].
    destruct Hlast as [_ [Hrun Hdead]]. split; [exact Hrun|].
    rewrite Hclock, Hsl in Hdead.
    replace (clock r + slept (schedule (length fails) (initialDelay r))
             + took (S (length fails)) p requestID receipt true - clock r)
      with (slept (schedule (length fails) (initialDelay r))
            + took (S (length fails)) p requestID receipt true)
      in Hdead by lia.
    exact Hdead.
  - intros fuel e p' Hadd Hlate. rewrite writeReceipt_unfold.
    rewrite (writeReceipt_loop_step _ _ _ _ _ fuel _ 0 r p Hp).
    change (0 <? 0) with false. cbn zeta iota. rewrite Hadd.
    cbn [negb clock emit set_clock set_persistence].
    replace (clock r + Z.of_N (AddReceiptDuration p requestID receipt true)
             - clock r)
      with (Z.of_N (AddReceiptDuration p requestID receipt true)) by lia.
    apply Z.ltb_lt in Hlate. rewrite Hlate.
    eexists. split; [reflexivity|]. simpl.
    rewrite <- !app_assoc, drop_app_length. by split.
  - intros fuel e r' Heq.
    rewrite writeReceipt_unfold in Heq.
    destruct (writeReceipt_loop fuel requestID receipt true (clock r)
                (retryDeadline r) (initialDelay r) 0 r)
      as [[|err] r''|v r''|] eqn:Hloop; try done.
    by eapply writeReceipt_loop_no_error.
  - intros n overwrite Hn Hdead. by apply writeReceipt_terminates.
Qed.

Lemma writeReceipt_nil_persistence fuel requestID receipt overwrite r r' :
  persistence r = None ->
  writeReceipt fuel requestID receipt overwrite r <> Done None r'.
Proof.
  intros Hp. rewrite writeReceipt_unfold. destruct fuel as [|fuel]; [done|].
  unfold writeReceipt_loop; fold writeReceipt_loop.
  change (0 <? 0) with false.
  unfold bind, ret, persistence_AddReceipt. rewrite Hp. done.
Qed.

Lemma writeAccepted_unfold fuel msgID msgAck msg r :
  writeAccepted fuel msgID msgAck msg r
  = writeReceipt fuel msgID
      (acceptedReceipt msgID msgAck msg (Z.quot (clock r) Go.Millisecond))
      false r.
Proof. reflexivity. Qed.

Lemma acceptedReceipt_pending msgID msgAck msg receivedAt :
  acceptedReceipt msgID msgAck msg receivedAt !! "pending"
  = Some (JBool true).
Proof.
  unfold acceptedReceipt.
  rewrite lookup_insert_ne by done. rewrite lookup_insert_ne by done.
  apply lookup_insert_eq.
Qed.

(** C10: whenever [writeReceipt] returns nil and a gateway is set, the
    last thing it did was to hand the receipt to the gateway's
    [SendReply], after the write of that receipt had succeeded.  This
    holds for any value of [overwriteAndRetry], and so for
    [writeAccepted], whose receipt is still pending. *)
Theorem writeReceipt_sends_reply fuel r gw :
  smartContractGW r = Some gw ->
  Z.of_nat fuel < 2 ^ 62 ->
  (forall (requestID : string) receipt overwrite r',
      writeReceipt fuel requestID receipt overwrite r = Done None r' ->
      exists evs,
        events r' = events r ++ evs ++ [EvSendReply receipt]
        /\ repliesOf evs = []
        /\ last (writesOf evs)
           = Some (requestID, receipt, overwrite, None))
  /\ (forall (msgID msgAck : string) (msg : Receipt) r',
        writeAccepted fuel msgID msgAck msg r = Done None r' ->
        exists evs receipt,
          receipt = acceptedReceipt msgID msgAck msg
                      (Z.quot (clock r) Go.Millisecond)
          /\ receipt !! "pending" = Some (JBool true)
          /\ events r' = events r ++ evs ++ [EvSendReply receipt]
          /\ repliesOf evs = []
          /\ last (writesOf evs) = Some (msgID, receipt, false, None)).
Proof.
  intros Hgw Hfuel.
  assert (Hmain : forall (requestID : string) receipt overwrite r',
    writeReceipt fuel requestID receipt overwrite r = Done None r' ->
    exists evs,
      events r' = events r ++ evs ++ [EvSendReply receipt]
      /\ repliesOf evs = []
      /\ last (writesOf evs) = Some (requestID, receipt, overwrite, None)).
  { intros requestID receipt overwrite r' Hdone.
    destruct (persistence r) as [p|] eqn:Hp;
      [|by apply writeReceipt_nil_persistence in Hdone].
    destruct (writeReceipt_run fuel requestID receipt overwrite r p
                Hp Hfuel)
      as [Hout | (r1 & evs & fails & lastw & Hev & _ & _ & Hwr & _ & Hlast)];
      [congruence|].
    destruct lastw as [e|].
    { destruct Hlast as [_ Hlast]. destruct overwrite;
        destruct Hlast as [Hlast _]; congruence. }
    destruct Hlast as (Heq & Hreply & _).
    assert (r1 = r') by congruence. subst r1.
    destruct (Hreply gw Hgw) as (evs0 & -> & Hrep0).
    exists evs0. rewrite Hev. split; [done|]. split; [done|].
    rewrite writesOf_app in Hwr. simpl in Hwr. rewrite app_nil_r in Hwr.
    rewrite Hwr. apply last_snoc. }
  split; [exact Hmain|].
  intros msgID msgAck msg r' Hdone. rewrite writeAccepted_unfold in Hdone.
  destruct (Hmain _ _ _ _ Hdone) as (evs & Hev & Hrep & Hlast).
  exists evs, (acceptedReceipt msgID msgAck msg
                 (Z.quot (clock r) Go.Millisecond)).
  split; [done|]. split; [apply acceptedReceipt_pending|]. done.
Qed.

(** ** processReply *)

Lemma GetMapString_string (m : Receipt) key s :
  m !! key = Some (JString s) -> GetMapString m key = s.
Proof. unfold GetMapString. by intros ->. Qed.

Lemma GetMapString_nonempty (m : Receipt) key s :
  GetMapString m key = s -> s <> "" -> m !! key = Some (JString s).
Proof.
  unfold GetMapString. intros Hs Hne.
  destruct (m !! key) as [[]|]; congruence.
Qed.

Lemma extractHeaders_object (m headers : Receipt) :
  m !! "headers" = Some (JObject headers) ->
  extractHeaders m = Some headers.
Proof. unfold extractHeaders. by intros ->. Qed.

Lemma isTerminal_terminalReceipt (existing : Receipt) :
  isTerminal existing = true <-> terminalReceipt existing.
Proof.
  unfold isTerminal, terminalReceipt, extractHeaders. split.
  - intros Hterm. apply orb_true_iff in Hterm.
    destruct (existing !! "headers") as [[| | | | |l|headers]|];
      simpl in Hterm;
      try (destruct Hterm as [Hterm|Hterm];
           apply String.eqb_eq in Hterm; discriminate Hterm).
    exists headers. split; [done|].
    destruct Hterm as [Hterm|Hterm]; apply String.eqb_eq in Hterm;
      [right|left]; by apply GetMapString_nonempty.
  - intros (headers & -> & [Htype|Htype]); simpl;
      rewrite (GetMapString_string _ _ _ Htype); reflexivity.
Qed.

Lemma processReply_unfold fuel msgBytes parsedMsg headers requestID r :
  json_Unmarshal msgBytes = inl parsedMsg ->
  parsedMsg !! "headers" = Some (JObject headers) ->
  headers !! "requestId" = Some (JString requestID) ->
  requestID <> "" ->
  processReply fuel msgBytes r =
    match classifyReply requestID (GetMapString headers "type") parsedMsg r
    with
    | Done None r1 => Done tt r1
    | Done (Some parsedMsg') r1 =>
        let r2 :=
          emit (EvLog InfoLevel
            "Received reply message. requestId='%s' reqOffset='%s' type='%s': %s")
            r1 in
        match postDeploy (GetMapString headers "type")
                         (GetMapString parsedMsg "contractAddress")
                         msgBytes r2 with
        | Done _ r3 =>
            let receipt :=
              <["_id" := JString requestID]>
                (<["receivedAt" := JInt (Z.quot (clock r3) Go.Millisecond)]>
                   parsedMsg') in
            if bool_decide (is_Some (persistence r3)) then
              match writeReceipt fuel requestID receipt true r3 with
              | Done _ r4 => Done tt r4
              | Panic v r4 => Panic v r4
              | OutOfFuel => OutOfFuel
              end
            else Done tt r3
        | Panic v r3 => Panic v r3
        | OutOfFuel => OutOfFuel
        end
    | Panic v r1 => Panic v r1
    | OutOfFuel => OutOfFuel
    end.
Proof.
  intros Hjson Hheaders Hid Hne.
  unfold processReply. rewrite Hjson.
  rewrite (extractHeaders_object _ _ Hheaders).
  rewrite (GetMapString_string _ _ _ Hid).
  apply String.eqb_neq in Hne. rewrite Hne. cbn [negb andb].
  unfold bind at 1.
  destruct (classifyReply _ _ _ r) as [[parsedMsg'|] r1|v r1|];
    reflexivity.
Qed.

(** C1: for a request id whose stored receipt is terminal, a reply of
    type transaction-redelivery-prevented is dropped: [processReply]
    returns after the lookup and a warning in the log, without any call
    of [AddReceipt], and the persistence tier is as it was. *)
Theorem redelivery_keeps_terminal_receipt fuel msgBytes
    (parsedMsg headers existing : Receipt) (requestID : string) r p :
  json_Unmarshal msgBytes = inl parsedMsg ->
  parsedMsg !! "headers" = Some (JObject headers) ->
  headers !! "requestId" = Some (JString requestID) ->
  requestID <> "" ->
  headers !! "type" = Some (JString MsgTypeTransactionRedeliveryPrevented) ->
  persistence r = Some p ->
  GetReceipt p requestID = (Some existing, None) ->
  terminalReceipt existing ->
  exists r',
    processReply fuel msgBytes r = Done tt r'
    /\ persistence r' = Some p
    /\ events r'
       = events r
         ++ [EvGetReceipt requestID (Some existing, None);
             EvLog WarnLevel
               "Ignoring redelivery reply message. requestId='%s' reqOffset='%s' type='%s': %s"]
    /\ writesOf (drop (length (events r)) (events r')) = [].
Proof.
  intros Hjson Hheaders Hid Hne Htype Hp Hget Hterm.
  rewrite (processReply_unfold _ _ _ _ _ _ Hjson Hheaders Hid Hne).
  rewrite (GetMapString_string _ _ _ Htype).
  unfold classifyReply. cbn [String.eqb MsgTypeError
    MsgTypeTransactionRedeliveryPrevented Ascii.eqb Bool.eqb].
  unfold bind, persistence_GetReceipt. rewrite Hp, Hget.
  apply isTerminal_terminalReceipt in Hterm. rewrite Hterm.
  unfold log, ret. cbn beta iota.
  eexists. split; [reflexivity|]. split; [by simpl|].
  split; [simpl; by rewrite <- app_assoc|].
  simpl. rewrite <- app_assoc, drop_app_length. reflexivity.
Qed.

Lemma postDeploy_other msgType contractAddr msgBytes r :
  msgType <> MsgTypeTransactionSuccess ->
  postDeploy msgType contractAddr msgBytes r = Done tt r.
Proof.
  intros Hne. unfold postDeploy. apply String.eqb_neq in Hne.
  rewrite Hne. by destruct (smartContractGW r).
Qed.

Lemma classifyReply_redelivery_pending requestID parsedMsg r p existing :
  persistence r = Some p ->
  GetReceipt p requestID = (existing, None) ->
  (forall rc, existing = Some rc -> ~ terminalReceipt rc) ->
  classifyReply requestID MsgTypeTransactionRedeliveryPrevented parsedMsg r
  = Done (Some (redeliveryError parsedMsg))
         (emit (EvGetReceipt requestID (existing, None)) r).
Proof.
  intros Hp Hget Hpending. unfold classifyReply.
  cbn [String.eqb MsgTypeError MsgTypeTransactionRedeliveryPrevented
       Ascii.eqb Bool.eqb].
  unfold bind, persistence_GetReceipt. rewrite Hp, Hget.
  destruct existing as [rc|]; [|reflexivity].
  destruct (isTerminal rc) eqn:Hterm; [|reflexivity].
  apply isTerminal_terminalReceipt in Hterm. by destruct (Hpending rc).
Qed.

(** C4: for a request id whose stored receipt is absent or not terminal,
    a reply of type transaction-redelivery-prevented is turned into the
    error "resubmission prevented, check the transaction hash" and
    handed to [writeReceipt] with overwrite on: the receipt carries the
    code and the text of that error and still the transaction hash of
    the reply; when the persistence tier accepts the write the receipt
    is stored by that one call, and whenever [processReply] returns the
    last call of [AddReceipt] was that write and succeeded. *)
Theorem redelivery_rewrites_pending_receipt fuel msgBytes
    (parsedMsg headers : Receipt) (existing : option Receipt)
    (requestID : string) r p :
  json_Unmarshal msgBytes = inl parsedMsg ->
  parsedMsg !! "headers" = Some (JObject headers) ->
  headers !! "requestId" = Some (JString requestID) ->
  requestID <> "" ->
  headers !! "type" = Some (JString MsgTypeTransactionRedeliveryPrevented) ->
  persistence r = Some p ->
  GetReceipt p requestID = (existing, None) ->
  (forall rc, existing = Some rc -> ~ terminalReceipt rc) ->
  let r1 :=
    emit (EvLog InfoLevel
      "Received reply message. requestId='%s' reqOffset='%s' type='%s': %s")
      (emit (EvGetReceipt requestID (existing, None)) r) in
  let receipt :=
    <["_id" := JString requestID]>
      (<["receivedAt" := JInt (Z.quot (clock r) Go.Millisecond)]>
         (redeliveryError parsedMsg)) in
  receipt !! "errorCode" = Some (JString (Code idempotencyErr))
  /\ receipt !! "errorMessage" = Some (JString (ErrorNoCode idempotencyErr))
  /\ receipt !! "transactionHash" = parsedMsg !! "transactionHash"
  /\ processReply fuel msgBytes r
     = match writeReceipt fuel requestID receipt true r1 with
       | Done _ r' => Done tt r'
       | Panic v r' => Panic v r'
       | OutOfFuel => OutOfFuel
       end
  /\ (forall p',
        AddReceipt p requestID receipt true = (None, p') ->
        exists r',
          processReply (S fuel) msgBytes r = Done tt r'
          /\ persistence r' = Some p'
          /\ writesOf (drop (length (events r)) (events r'))
             = [(requestID, receipt, true, None)])
  /\ (Z.of_nat fuel < 2 ^ 62 ->
      forall r',
        processReply fuel msgBytes r = Done tt r' ->
        last (writesOf (drop (length (events r)) (events r')))
        = Some (requestID, receipt, true, None)).
Proof.
  intros Hjson Hheaders Hid Hne Htype Hp Hget Hpending r1 receipt.
  assert (Hrun : processReply fuel msgBytes r
     = match writeReceipt fuel requestID receipt true r1 with
       | Done _ r' => Done tt r'
       | Panic v r' => Panic v r'
       | OutOfFuel => OutOfFuel
       end /\ forall fuel', processReply fuel' msgBytes r
     = match writeReceipt fuel' requestID receipt true r1 with
       | Done _ r' => Done tt r'
       | Panic v r' => Panic v r'
       | OutOfFuel => OutOfFuel
       end).
  { assert (Hall : forall fuel', processReply fuel' msgBytes r
     = match writeReceipt fuel' requestID receipt true r1 with
       | Done _ r' => Done tt r'
       | Panic v r' => Panic v r'
       | OutOfFuel => OutOfFuel
       end); [|by split].
    intros fuel'.
    rewrite (processReply_unfold _ _ _ _ _ _ Hjson Hheaders Hid Hne).
    rewrite (GetMapString_string _ _ _ Htype).
    rewrite (classifyReply_redelivery_pending _ _ _ _ _ Hp Hget Hpending).
    cbn zeta. rewrite postDeploy_other by done.
    fold r1.
    rewrite bool_decide_eq_true_2 by (subst r1; simpl; eauto).
    reflexivity. }
  destruct Hrun as [Hrun Hall].
  assert (Hp1 : persistence r1 = Some p) by (subst r1; simpl; done).
  split; [|split; [|split; [|split; [|split]]]].
  - subst receipt. unfold redeliveryError.
    by rewrite !lookup_insert_ne, lookup_insert_eq by done.
  - subst receipt. unfold redeliveryError.
    by rewrite !lookup_insert_ne, lookup_insert_eq by done.
  - subst receipt. unfold redeliveryError.
    by rewrite !lookup_insert_ne by done.
  - exact Hrun.
  - intros p' Hadd. rewrite Hall, writeReceipt_unfold.
    rewrite (writeReceipt_loop_step _ _ _ _ _ fuel _ 0 r1 p Hp1).
    change (0 <? 0) with false. cbn zeta iota. rewrite Hadd.
    subst r1. cbn [smartContractGW emit set_persistence set_clock].
    destruct (smartContractGW r); eexists; (split; [reflexivity|]);
      (split; [reflexivity|]); simpl;
      rewrite <- !app_assoc, drop_app_length; reflexivity.
  - intros Hfuel r' Hdone. rewrite Hrun in Hdone.
    destruct (writeReceipt_run fuel requestID receipt true r1 p
                Hp1 Hfuel)
      as [Hout | (r2 & evs & fails & lastw & Hev & _ & _ & Hwr & _ & Hlast)];
      [by rewrite Hout in Hdone|].
    destruct lastw as [e|].
    { destruct Hlast as [_ [Hlast _]]. by rewrite Hlast in Hdone. }
    destruct Hlast as (Heq & _). rewrite Heq in Hdone.
    injection Hdone as <-. rewrite Hev. subst r1. simpl.
    rewrite <- !app_assoc, drop_app_length. simpl.
    rewrite Hwr. apply last_snoc.
Qed.

(** C8 (as amended): [processReply] returns without any call of the
    persistence tier, after one error line in the log, when the message
    is not valid JSON, when its [headers] field is missing or not an
    object, and when [headers.requestId] is missing, not a string or
    empty.  On any other message, with a persistence tier in place and
    fuel for the retry loop, the only way in which it does not return is
    the deliberate panic of [writeReceipt] after the retry deadline. *)
Theorem processReply_drops_malformed fuel msgBytes r :
  (forall err,
      json_Unmarshal msgBytes = inr err ->
      processReply fuel msgBytes r
      = Done tt (emit (EvLog ErrorLevel
                   "Unable to unmarshal reply message '%s' as JSON: %s") r))
  /\ (forall parsedMsg : Receipt,
        json_Unmarshal msgBytes = inl parsedMsg ->
        (forall headers, parsedMsg !! "headers" <> Some (JObject headers)) ->
        processReply fuel msgBytes r
        = Done tt (emit (EvLog ErrorLevel
                     "Failed to extract request headers from '%+v'") r))
  /\ (forall parsedMsg headers : Receipt,
        json_Unmarshal msgBytes = inl parsedMsg ->
        parsedMsg !! "headers" = Some (JObject headers) ->
        (forall requestID, headers !! "requestId" = Some (JString requestID)
                           -> requestID = "") ->
        processReply fuel msgBytes r
        = Done tt (emit (EvLog ErrorLevel
                     "Failed to extract headers.requestId from '%+v'") r))
  /\ (is_Some (persistence r) -> Z.of_nat fuel < 2 ^ 62 ->
      forall v r',
        processReply fuel msgBytes r = Panic v r' ->
        v = LogPanic
              "%s: Failed to insert into receipt store after %.2fs: %s").
Proof.
  split; [|split; [|split]].
  - intros err Hjson. unfold processReply. by rewrite Hjson.
  - intros parsedMsg Hjson Hnone. unfold processReply, extractHeaders.
    rewrite Hjson.
    destruct (parsedMsg !! "headers") as [[| | | | | |headers]|] eqn:Hh;
      try reflexivity.
    by destruct (Hnone headers).
  - intros parsedMsg headers Hjson Hheaders Hid. unfold processReply.
    rewrite Hjson, (extractHeaders_object _ _ Hheaders).
    replace (GetMapString headers "requestId") with ""; [reflexivity|].
    unfold GetMapString.
    destruct (headers !! "requestId") as [[| | | |s| |]|]; try reflexivity.
    symmetry. by apply Hid.
  - intros [p Hp] Hfuel v r'. unfold processReply.
    destruct (json_Unmarshal msgBytes) as [parsedMsg|err]; [|done].
    destruct (extractHeaders parsedMsg) as [headers|]; [|done].
    destruct (String.eqb _ ""); [done|]. cbn [negb andb].
    unfold bind at 1.
    assert (Hclass : exists next r1,
      classifyReply (GetMapString headers "requestId")
                    (GetMapString headers "type") parsedMsg r
      = Done next r1 /\ is_Some (persistence r1)).
    { unfold classifyReply. destruct (String.eqb _ MsgTypeError);
        [eexists _, _; split; [reflexivity|eauto]|].
      destruct (String.eqb _ MsgTypeTransactionRedeliveryPrevented);
        [|eexists _, _; split; [reflexivity|eauto]].
      unfold bind, persistence_GetReceipt. rewrite Hp.
      destruct (GetReceipt p _) as [[existing|] [e|]];
        try (eexists _, _; split; [reflexivity|simpl; eauto]).
      destruct (isTerminal existing);
        eexists _, _; (split; [reflexivity|simpl; eauto]). }
    destruct Hclass as (next & r1 & -> & Hp1).
    destruct next as [parsedMsg'|]; [|done].
    unfold bind at 1. unfold log at 1. cbn beta iota.
    unfold bind at 1.
    set (r2 := emit _ r1).
    assert (Hpost : exists r3,
      postDeploy (GetMapString headers "type")
                 (GetMapString parsedMsg "contractAddress") msgBytes r2
      = Done tt r3 /\ is_Some (persistence r3)).
    { unfold postDeploy. destruct (smartContractGW r2) as [gw|];
        [|by eexists].
      destruct (_ && _); [|by eexists].
      destruct (json_Unmarshal_receipt msgBytes) as [receipt|e];
        [|by eexists].
      destruct (PostDeploy gw receipt); by eexists. }
    destruct Hpost as (r3 & -> & Hp3).
    unfold bind at 1. unfold nowMillis, bind, time_Now, ret.
    cbn beta iota.
    destruct (bool_decide _); [|done].
    match goal with
    | |- context [writeReceipt fuel ?id ?rc true r3] =>
        destruct Hp3 as [p3 Hp3];
        destruct (writeReceipt_run fuel id rc true r3 p3 Hp3 Hfuel)
          as [Hout | (r4 & evs & fails & lastw & _ & _ & _ & _ & _ & Hlast)]
    end; [by rewrite Hout|].
    destruct lastw as [e|].
    + destruct Hlast as [_ [-> _]]. by intros [= <- _].
    + destruct Hlast as [-> _]. done.
Qed.

(** ** The REST surface *)

(** [GET /reply/:id] for a request that passes the authorisation: 404
    when the persistence tier has no receipt, 500 when it returns an
    error, and a nil dereference, before anything is written to the
    response, when there is no persistence tier. *)
Lemma getReply_statuses req params r :
  AuthReadAsyncReplyByUUID (Ctx req) = None ->
  let r0 := emit (EvLog InfoLevel "--> %s %s") r in
  let requestID := ByName params "id" in
  (forall p, persistence r = Some p ->
     GetReceipt p requestID = (None, None) ->
     exists r',
       getReply req params r = Done tt r'
       /\ responseStatus (drop (length (events r)) (events r')) = Some 404)
  /\ (forall p result e, persistence r = Some p ->
        GetReceipt p requestID = (result, Some e) ->
        exists r',
          getReply req params r = Done tt r'
          /\ responseStatus (drop (length (events r)) (events r'))
             = Some 500)
  /\ (persistence r = None ->
      getReply req params r = Panic NilDereference r0
      /\ responseStatus (drop (length (events r)) (events r0)) = None).
Proof.
  intros Hauth r0 requestID.
  unfold getReply, bind, log. cbn beta iota. rewrite Hauth.
  unfold persistence_GetReceipt. cbn [persistence emit]. fold requestID.
  split; [|split].
  - intros p Hp Hget. rewrite Hp, Hget. cbn beta iota zeta.
    eexists. split; [reflexivity|]. simpl.
    rewrite <- !app_assoc, drop_app_length. reflexivity.
  - intros p result e Hp Hget. rewrite Hp, Hget. cbn beta iota zeta.
    eexists. split; [reflexivity|]. simpl.
    rewrite <- !app_assoc, drop_app_length. reflexivity.
  - intros Hp. rewrite Hp. split; [reflexivity|].
    subst r0. simpl. rewrite drop_app_length. reflexivity.
Qed.

(** [GET /replies] without a persistence tier: 405. *)
Lemma getReplies_store_disabled req r :
  AuthListAsyncReplies (Ctx req) = None ->
  persistence r = None ->
  exists r',
    getReplies req r = Done tt r'
    /\ responseStatus (drop (length (events r)) (events r')) = Some 405.
Proof.
  intros Hauth Hp. unfold getReplies, bind, log. cbn beta iota.
  rewrite Hauth. cbn [persistence emit]. rewrite Hp.
  eexists. split; [reflexivity|]. simpl.
  rewrite <- !app_assoc, drop_app_length. reflexivity.
Qed.

Lemma getReplies_unfold req r p :
  AuthListAsyncReplies (Ctx req) = None ->
  persistence r = Some p ->
  let r0 := emit (EvLog InfoLevel "--> %s %s") r in
  getReplies req r =
    match extractIDs req with
    | Refuse format err => refuse format err r0
    | Accept (limit, ids) =>
        match extractLimit (QueryLimit (conf r)) limit req with
        | Refuse format err => refuse format err r0
        | Accept limit =>
            match extractSkip req with
            | Refuse format err => refuse format err r0
            | Accept skip =>
                ((if snd (extractSince req) then
                    refuse
                      "since '%s' cannot be parsed as RFC3339 or millisecond timestamp: %s"
                      (Errorf ReceiptStoreInvalidRequestBadSince [])
                  else ret tt) ;;
                 queryReplies skip limit ids (fst (extractSince req))
                              (FormValue req "from") (FormValue req "to")
                              (FormValue req "start")) r0
            end
        end
    end.
Proof.
  intros Hauth Hp r0. unfold getReplies, bind at 1, log at 1.
  cbn beta iota. rewrite Hauth. cbn [persistence emit]. rewrite Hp.
  fold r0. change (conf r0) with (conf r).
  destruct (extractIDs req) as [[limit ids]|]; [|reflexivity].
  destruct (extractLimit _ _ _); [|reflexivity].
  destruct (extractSkip req); [|reflexivity].
  by destruct (extractSince req).
Qed.

(** The three cases of [extractLimit] for a limit that parses. *)
Lemma extractLimit_parsed queryLimit limit req customLimit :
  Go.ParseInt (FormValue req "limit") 32 = (customLimit, None) ->
  extractLimit queryLimit limit req =
    if queryLimit <? customLimit then
      Refuse "Invalid limit value: %s"
             (Errorf ReceiptStoreInvalidRequestMaxLimit [ArgInt queryLimit])
    else if 0 <? customLimit then Accept customLimit
    else Accept limit.
Proof.
  intros Hparse. unfold extractLimit. cbn zeta.
  destruct (String.eqb (FormValue req "limit") "") eqn:Hempty.
  - apply String.eqb_eq in Hempty. rewrite Hempty in Hparse. discriminate.
  - by rewrite Hparse.
Qed.

(** A limit above QueryLimit ends the request with 400. *)
Lemma getReplies_limit_over req r p
    (limit customLimit : Z) (ids : list string) :
  AuthListAsyncReplies (Ctx req) = None ->
  persistence r = Some p ->
  extractIDs req = Accept (limit, ids) ->
  Go.ParseInt (FormValue req "limit") 32 = (customLimit, None) ->
  QueryLimit (conf r) < customLimit ->
  exists r',
    getReplies req r = Done tt r'
    /\ events r'
       = events r
         ++ [EvLog InfoLevel "--> %s %s";
             EvLog ErrorLevel "Invalid limit value: %s";
             EvSendRESTError
               (Errorf ReceiptStoreInvalidRequestMaxLimit
                       [ArgInt (QueryLimit (conf r))]) 400]
    /\ responseStatus (drop (length (events r)) (events r')) = Some 400
    /\ persistence r' = Some p.
Proof.
  intros Hauth Hp Hids Hparse Hover.
  rewrite (getReplies_unfold _ _ _ Hauth Hp). cbn zeta.
  rewrite Hids, (extractLimit_parsed _ _ _ _ Hparse).
  apply Z.ltb_lt in Hover. rewrite Hover.
  eexists. split; [reflexivity|]. simpl.
  rewrite <- !app_assoc. split; [reflexivity|].
  rewrite drop_app_length. by split.
Qed.

(** C6 (as amended): a [GET /replies] request whose limit parses as an
    integer above QueryLimit is refused: the answer is 400 with the
    error ReceiptStoreInvalidRequestMaxLimit, and the persistence tier
    is not queried. *)
Theorem getReplies_refuses_oversized_limit req r p
    (limit customLimit : Z) (ids : list string) :
  AuthListAsyncReplies (Ctx req) = None ->
  persistence r = Some p ->
  extractIDs req = Accept (limit, ids) ->
  Go.ParseInt (FormValue req "limit") 32 = (customLimit, None) ->
  QueryLimit (conf r) < customLimit ->
  exists r',
    getReplies req r = Done tt r'
    /\ events r'
       = events r
         ++ [EvLog InfoLevel "--> %s %s";
             EvLog ErrorLevel "Invalid limit value: %s";
             EvSendRESTError
               (Errorf ReceiptStoreInvalidRequestMaxLimit
                       [ArgInt (QueryLimit (conf r))]) 400]
    /\ responseStatus (drop (length (events r)) (events r')) = Some 400
    /\ limitsQueried (drop (length (events r)) (events r')) = []
    /\ persistence r' = Some p.
Proof.
  intros Hauth Hp Hids Hparse Hover.
  destruct (getReplies_limit_over req r p limit customLimit ids
              Hauth Hp Hids Hparse Hover) as (r' & Hrun & Hev & Hstatus & Hp').
  exists r'. split; [done|]. split; [done|]. split; [done|].
  split; [|done]. rewrite Hev, drop_app_length. reflexivity.
Qed.

(** ** The in-memory receipts *)

Lemma collectLoop_length (curElem : list Receipt) :
  forall i limit (results : list Receipt),
    Z.of_nat (length (MemoryReceipts.collectLoop i limit results curElem))
    <= Z.of_nat (length results) + Z.max 0 (limit - i).
Proof.
  induction curElem as [|value next IH]; intros i limit results; simpl;
    [lia|].
  destruct (i <? limit) eqn:Hi; [|lia].
  apply Z.ltb_lt in Hi.
  specialize (IH (i + 1) limit (results ++ [value])).
  rewrite length_app in IH. simpl in IH. lia.
Qed.

Lemma ParseUint_loop_nonneg bitSize s : forall n v err,
  0 <= n -> 0 < bitSize ->
  Go.ParseUint_loop bitSize n s = (v, err) -> 0 <= v.
Proof.
  induction s as [|c s IH]; intros n v err Hn Hb; simpl.
  - by intros [= <- _].
  - destruct (Go.digit_of c) as [d|] eqn:Hd; [|intros [= <- _]; lia].
    assert (0 <= d).
    { unfold Go.digit_of in Hd. cbn zeta in Hd.
      destruct (_ && _) eqn:Hc; [|done]. injection Hd as <-.
      apply andb_true_iff in Hc as [Hc _]. apply Z.leb_le in Hc. lia. }
    assert (0 <= 2 ^ bitSize - 1).
    { pose proof (Z.pow_pos_nonneg 2 bitSize). lia. }
    destruct (_ <=? n); [intros [= <- _]; lia|].
    destruct (_ <? _); [intros [= <- _]; lia|].
    apply IH; lia.
Qed.

(** A value that [ParseInt] returns without error fits the bit size. *)
Lemma ParseInt_range s bitSize v :
  0 < bitSize ->
  Go.ParseInt s bitSize = (v, None) ->
  - 2 ^ (bitSize - 1) <= v < 2 ^ (bitSize - 1).
Proof.
  intros Hb. unfold Go.ParseInt.
  destruct s as [|c s]; [done|].
  set (split := match String c s with
                | String "+" r => (false, r)
                | String "-" r => (true, r)
                | _ => (false, String c s)
                end).
  destruct split as [neg body].
  destruct (Go.ParseUint body bitSize) as [un err] eqn:Hun.
  assert (Hnn : 0 <= un).
  { unfold Go.ParseUint in Hun. destruct body; [by injection Hun as <- _|].
    by eapply ParseUint_loop_nonneg in Hun. }
  destruct err as [[]|]; [done| |];
    (destruct (negb neg && _) eqn:H1; [done|];
     destruct (neg && _) eqn:H2; [done|];
     intros [= <-]; destruct neg; cbn [negb andb] in H1, H2;
     [apply Z.ltb_ge in H2|apply Z.leb_gt in H1]; lia).
Qed.

Lemma makeslice_cap_in_range_spec limit :
  Go.makeslice_cap_in_range Go.PtrSize limit = true
  <-> 0 <= limit /\ Go.PtrSize * limit <= Go.maxAlloc.
Proof.
  unfold Go.makeslice_cap_in_range.
  rewrite andb_true_iff, Z.leb_le, Z.leb_le. done.
Qed.

Lemma makeslice_cap_int32 limit :
  0 <= limit < 2 ^ 31 -> Go.makeslice_cap_in_range Go.PtrSize limit = true.
Proof.
  intros Hlimit. apply makeslice_cap_in_range_spec.
  unfold Go.PtrSize, Go.maxAlloc. lia.
Qed.

Lemma memory_GetReceipts_in_range m skip limit :
  Go.makeslice_cap_in_range Go.PtrSize limit = true ->
  MemoryReceipts.GetReceipts m skip limit []
  = MemoryReceipts.Returns
      (Some (MemoryReceipts.collectLoop 0 limit []
               (MemoryReceipts.skipLoop 0 skip (MemoryReceipts.receipts m))),
       None).
Proof.
  intros Hcap. unfold MemoryReceipts.GetReceipts. simpl.
  by rewrite Hcap.
Qed.

Lemma memory_GetReceipts_out_of_range m skip limit :
  Go.makeslice_cap_in_range Go.PtrSize limit = false ->
  MemoryReceipts.GetReceipts m skip limit []
  = MemoryReceipts.Panics MakesliceCap.
Proof.
  intros Hcap. unfold MemoryReceipts.GetReceipts. simpl.
  by rewrite Hcap.
Qed.

Lemma memory_GetReceipts_no_ids m skip limit :
  0 <= limit < 2 ^ 31 ->
  exists results,
    MemoryReceipts.GetReceipts m skip limit []
    = MemoryReceipts.Returns (Some results, None)
    /\ Z.of_nat (length results) <= limit.
Proof.
  intros Hlimit.
  rewrite memory_GetReceipts_in_range by by apply makeslice_cap_int32.
  eexists. split; [reflexivity|].
  etrans; [apply collectLoop_length|]. simpl. lia.
Qed.

(** C9 (as amended): with ids to filter by, [GetReceipts] of the
    in-memory store returns no results and an error.  Without ids it
    returns a slice, which holds at most [limit] receipts, and no error
    for every limit from 0 to 2^31 - 1; whenever it returns, it returns
    such a slice and no error; and it panics in [make] for a limit that
    is negative or so large that the slice would be beyond the bound of
    the runtime on one allocation. *)
Theorem memory_GetReceipts_ids_or_results m skip limit (ids : list string) :
  (ids <> [] ->
   MemoryReceipts.GetReceipts m skip limit ids
   = MemoryReceipts.Returns
       (None,
        Some (ErrorString "Memory receipts do not support id filtering")))
  /\ (ids = [] -> 0 <= limit < 2 ^ 31 ->
      exists results,
        MemoryReceipts.GetReceipts m skip limit ids
        = MemoryReceipts.Returns (Some results, None)
        /\ Z.of_nat (length results) <= limit)
  /\ (ids = [] ->
      forall result,
        MemoryReceipts.GetReceipts m skip limit ids
        = MemoryReceipts.Returns result ->
        exists results,
          result = (Some results, None)
          /\ Z.of_nat (length results) <= limit)
  /\ (ids = [] ->
      limit < 0 \/ Go.maxAlloc < Go.PtrSize * limit ->
      MemoryReceipts.GetReceipts m skip limit ids
      = MemoryReceipts.Panics MakesliceCap).
Proof.
  split; [|split; [|split]].
  - intros Hids. unfold MemoryReceipts.GetReceipts.
    destruct ids as [|id ids]; [done|]. reflexivity.
  - intros -> Hlimit. by apply memory_GetReceipts_no_ids.
  - intros -> result.
    destruct (Go.makeslice_cap_in_range Go.PtrSize limit) eqn:Hcap.
    + rewrite memory_GetReceipts_in_range by done. intros [= <-].
      eexists. split; [reflexivity|].
      apply makeslice_cap_in_range_spec in Hcap as [Hlimit _].
      etrans; [apply collectLoop_length|]. simpl. lia.
    + by rewrite memory_GetReceipts_out_of_range by done.
  - intros -> Hout. apply memory_GetReceipts_out_of_range.
    destruct (Go.makeslice_cap_in_range Go.PtrSize limit) eqn:Hcap; [|done].
    apply makeslice_cap_in_range_spec in Hcap. lia.
Qed.

(** C7 (as amended): for a [GET /replies] request whose limit parses as
    an integer: above QueryLimit the answer is 400; from 1 to
    QueryLimit the persistence tier is queried with exactly that limit,
    and the in-memory store then returns at most that many receipts; at
    0 or below the limit is not taken and the default stays in place
    (10, or 0 when ids are given). *)
Theorem getReplies_limit_bounds req r p
    (limit customLimit skip : Z) (ids : list string) :
  AuthListAsyncReplies (Ctx req) = None ->
  persistence r = Some p ->
  extractIDs req = Accept (limit, ids) ->
  Go.ParseInt (FormValue req "limit") 32 = (customLimit, None) ->
  extractSkip req = Accept skip ->
  let query effective :=
    ((if snd (extractSince req) then
        refuse
          "since '%s' cannot be parsed as RFC3339 or millisecond timestamp: %s"
          (Errorf ReceiptStoreInvalidRequestBadSince [])
      else ret tt) ;;
     queryReplies skip effective ids (fst (extractSince req))
                  (FormValue req "from") (FormValue req "to")
                  (FormValue req "start"))
      (emit (EvLog InfoLevel "--> %s %s") r) in
  (QueryLimit (conf r) < customLimit ->
   exists r',
     getReplies req r = Done tt r'
     /\ responseStatus (drop (length (events r)) (events r')) = Some 400)
  /\ (0 < customLimit <= QueryLimit (conf r) ->
      getReplies req r = query customLimit
      /\ forall m, exists results,
           MemoryReceipts.GetReceipts m skip customLimit []
           = MemoryReceipts.Returns (Some results, None)
           /\ Z.of_nat (length results) <= customLimit)
  /\ (customLimit <= 0 -> customLimit <= QueryLimit (conf r) ->
      getReplies req r = query limit
      /\ limit = (if bool_decide (is_Some (Form req !! "id")) then 0
                  else defaultReceiptLimit)).
Proof.
  intros Hauth Hp Hids Hparse Hskip query.
  split; [|split].
  - intros Hover.
    destruct (getReplies_limit_over req r p limit customLimit
                ids Hauth Hp Hids Hparse Hover) as (r' & ? & _ & ? & _).
    by exists r'.
  - intros [Hpos Hle]. split.
    + rewrite (getReplies_unfold _ _ _ Hauth Hp). cbn zeta.
      rewrite Hids, (extractLimit_parsed _ _ _ _ Hparse), Hskip.
      replace (QueryLimit (conf r) <? customLimit) with false
        by (symmetry; apply Z.ltb_ge; lia).
      replace (0 <? customLimit) with true
        by (symmetry; apply Z.ltb_lt; lia).
      reflexivity.
    + intros m. apply memory_GetReceipts_no_ids.
      pose proof (ParseInt_range _ 32 _ ltac:(lia) Hparse). lia.
  - intros Hnonpos Hle. split.
    + rewrite (getReplies_unfold _ _ _ Hauth Hp). cbn zeta.
      rewrite Hids, (extractLimit_parsed _ _ _ _ Hparse), Hskip.
      replace (QueryLimit (conf r) <? customLimit) with false
        by (symmetry; apply Z.ltb_ge; lia).
      replace (0 <? customLimit) with false
        by (symmetry; apply Z.ltb_ge; lia).
      reflexivity.
    + unfold extractIDs in Hids.
      destruct (Form req !! "id") as [l|]; simpl.
      * destruct (forallb _ l); by inversion Hids.
      * by inversion Hids.
Qed.

(** * Further properties *)

(** ** processReply: replies that are not redelivery notices *)

Lemma classifyReply_other (requestID msgType : string) (parsedMsg : Receipt) r :
  msgType <> MsgTypeTransactionRedeliveryPrevented ->
  classifyReply requestID msgType parsedMsg r = Done (Some parsedMsg) r.
Proof.
  intros Hne. unfold classifyReply.
  destruct (String.eqb msgType MsgTypeError); [reflexivity|].
  apply String.eqb_neq in Hne. by rewrite Hne.
Qed.

Lemma postDeploy_no_gateway msgType contractAddr msgBytes r :
  smartContractGW r = None ->
  postDeploy msgType contractAddr msgBytes r = Done tt r.
Proof. intros Hgw. unfold postDeploy. by rewrite Hgw. Qed.

Lemma postDeploy_no_address msgType msgBytes r :
  postDeploy msgType "" msgBytes r = Done tt r.
Proof.
  unfold postDeploy. destruct (smartContractGW r); [|done].
  by rewrite andb_false_r.
Qed.

Lemma classifyReply_redelivery_lookup_error requestID (parsedMsg : Receipt)
    r p existing lookupErr :
  persistence r = Some p ->
  GetReceipt p requestID = (existing, Some lookupErr) ->
  classifyReply requestID MsgTypeTransactionRedeliveryPrevented parsedMsg r
  = Done (Some (redeliveryError parsedMsg))
         (emit (EvGetReceipt requestID (existing, Some lookupErr)) r).
Proof.
  intros Hp Hget. unfold classifyReply.
  cbn [String.eqb MsgTypeError MsgTypeTransactionRedeliveryPrevented
       Ascii.eqb Bool.eqb].
  unfold bind, persistence_GetReceipt. rewrite Hp, Hget.
  by destruct existing.
Qed.

Section Reply.

Variables (msgBytes : list Byte.byte) (parsedMsg headers : Receipt)
          (requestID : string).
Hypothesis Hjson : json_Unmarshal msgBytes = inl parsedMsg.
Hypothesis Hheaders : parsedMsg !! "headers" = Some (JObject headers).
Hypothesis Hid : headers !! "requestId" = Some (JString requestID).
Hypothesis Hne : requestID <> "".

#[local] Abbreviation received :=
  (EvLog InfoLevel
     "Received reply message. requestId='%s' reqOffset='%s' type='%s': %s").
#[local] Abbreviation inserted :=
  (EvLog InfoLevel "%s: Inserted receipt into receipt store").

(** The receipt that [processReply] hands to [writeReceipt] for a message
    that it does not rewrite. *)
#[local] Abbreviation stamped r :=
  (<["_id" := JString requestID]>
     (<["receivedAt" := JInt (Z.quot (clock r) Go.Millisecond)]> parsedMsg)).

(** X1: a reply that is not a redelivery notice and is no deployment to
    hand to the gateway (no gateway, another type than success, or no
    contract address) is written as it came, with [_id] and [receivedAt]
    added and every other field untouched.  When the persistence tier
    accepts the write, [processReply] returns after that single call of
    [AddReceipt], without sleeping, and the gateway, if there is one, gets
    the receipt through [SendReply]. *)
Theorem processReply_stores_reply fuel r p p' :
  GetMapString headers "type" <> MsgTypeTransactionRedeliveryPrevented ->
  smartContractGW r = None
  \/ GetMapString headers "type" <> MsgTypeTransactionSuccess
  \/ GetMapString parsedMsg "contractAddress" = "" ->
  persistence r = Some p ->
  AddReceipt p requestID (stamped r) true = (None, p') ->
  (forall key, key <> "_id" -> key <> "receivedAt" ->
     stamped r !! key = parsedMsg !! key)
  /\ stamped r !! "_id" = Some (JString requestID)
  /\ exists r',
       processReply (S fuel) msgBytes r = Done tt r'
       /\ persistence r' = Some p'
       /\ events r'
          = events r
            ++ [received; EvAddReceipt requestID (stamped r) true None;
                inserted]
            ++ match smartContractGW r with
               | Some _ => [EvSendReply (stamped r)]
               | None => []
               end.
Proof.
  intros Htype Hdeploy Hp Hadd.
  split; [|split].
  - intros key H1 H2. by rewrite !lookup_insert_ne.
  - apply lookup_insert_eq.
  - rewrite (processReply_unfold _ _ _ _ _ _ Hjson Hheaders Hid Hne).
    rewrite classifyReply_other by done. cbn zeta.
    set (r2 := emit received r).
    assert (Hpost : postDeploy (GetMapString headers "type")
                      (GetMapString parsedMsg "contractAddress") msgBytes r2
                    = Done tt r2).
    { destruct Hdeploy as [Hgw | [Hty | Haddr]].
      - by apply postDeploy_no_gateway.
      - by apply postDeploy_other.
      - rewrite Haddr. apply postDeploy_no_address. }
    rewrite Hpost.
    assert (Hp2 : persistence r2 = Some p) by done.
    rewrite bool_decide_eq_true_2 by (rewrite Hp2; eauto).
    change (clock r2) with (clock r).
    rewrite writeReceipt_unfold.
    rewrite (writeReceipt_loop_step _ _ _ _ _ fuel _ 0 r2 p Hp2).
    change (0 <? 0) with false. cbn zeta iota. rewrite Hadd.
    subst r2. cbn [smartContractGW emit set_persistence set_clock].
    destruct (smartContractGW r); eexists; (split; [reflexivity|]);
      (split; [reflexivity|]); simpl; rewrite <- !app_assoc; reflexivity.
Qed.

(** X2: a successful deployment (type success, a contract address, a
    gateway in place, a message that decodes as a transaction receipt) is
    handed to the gateway's [PostDeploy] before the write, once; whether
    [PostDeploy] fails or not, the receipt is written all the same. *)
Theorem processReply_hands_over_deployment fuel r p p' gw deployed :
  GetMapString headers "type" = MsgTypeTransactionSuccess ->
  GetMapString parsedMsg "contractAddress" <> "" ->
  smartContractGW r = Some gw ->
  json_Unmarshal_receipt msgBytes = inl deployed ->
  persistence r = Some p ->
  AddReceipt p requestID (stamped r) true = (None, p') ->
  exists r' evs,
    processReply (S fuel) msgBytes r = Done tt r'
    /\ persistence r' = Some p'
    /\ events r' = events r ++ evs
    /\ deploysOf evs = [deployed]
    /\ writesOf evs = [(requestID, stamped r, true, None)]
    /\ repliesOf evs = [stamped r]
    /\ exists before after,
         evs = before ++ [EvPostDeploy deployed] ++ after
         /\ writesOf before = [].
Proof.
  intros Htype Haddr Hgw Hdecode Hp Hadd.
  rewrite (processReply_unfold _ _ _ _ _ _ Hjson Hheaders Hid Hne).
  rewrite classifyReply_other by (rewrite Htype; discriminate). cbn zeta.
  set (r2 := emit received r).
  unfold postDeploy. cbn [smartContractGW emit]. subst r2.
  cbn [smartContractGW emit]. rewrite Hgw, Htype.
  apply String.eqb_neq in Haddr. rewrite Haddr. cbn [String.eqb negb andb
    MsgTypeTransactionSuccess Ascii.eqb Bool.eqb].
  rewrite Hdecode.
  destruct (PostDeploy gw deployed) as [e|]; unfold log; cbn beta iota zeta.
  - match goal with
    | |- context [bool_decide (is_Some (persistence ?s))] => set (r3 := s)
    end.
    assert (Hp3 : persistence r3 = Some p) by done.
    rewrite bool_decide_eq_true_2 by (rewrite Hp3; eauto).
    change (clock r3) with (clock r).
    rewrite writeReceipt_unfold.
    rewrite (writeReceipt_loop_step _ _ _ _ _ fuel _ 0 r3 p Hp3).
    change (0 <? 0) with false. cbn zeta iota. rewrite Hadd.
    subst r3. cbn [smartContractGW emit set_persistence set_clock]. rewrite Hgw.
    eexists _, _. split; [reflexivity|]. split; [reflexivity|].
    split; [simpl; rewrite <- !app_assoc; reflexivity|].
    split; [reflexivity|]. split; [reflexivity|]. split; [reflexivity|].
    exists [received]. eexists. split; reflexivity.
  - match goal with
    | |- context [bool_decide (is_Some (persistence ?s))] => set (r3 := s)
    end.
    assert (Hp3 : persistence r3 = Some p) by done.
    rewrite bool_decide_eq_true_2 by (rewrite Hp3; eauto).
    change (clock r3) with (clock r).
    rewrite writeReceipt_unfold.
    rewrite (writeReceipt_loop_step _ _ _ _ _ fuel _ 0 r3 p Hp3).
    change (0 <? 0) with false. cbn zeta iota. rewrite Hadd.
    subst r3. cbn [smartContractGW emit set_persistence set_clock]. rewrite Hgw.
    eexists _, _. split; [reflexivity|]. split; [reflexivity|].
    split; [simpl; rewrite <- !app_assoc; reflexivity|].
    split; [reflexivity|]. split; [reflexivity|]. split; [reflexivity|].
    exists [received]. eexists. split; reflexivity.
Qed.

(** X3: without a persistence tier, a reply that is not a redelivery
    notice is logged and dropped: [processReply] returns, whatever the
    fuel, and neither looks up nor writes a receipt; a redelivery notice
    makes it panic, because that branch calls [GetReceipt] through the nil
    interface before the guard of the write is reached. *)
Theorem processReply_without_persistence fuel r :
  persistence r = None ->
  (GetMapString headers "type" <> MsgTypeTransactionRedeliveryPrevented ->
   exists r' evs,
     processReply fuel msgBytes r = Done tt r'
     /\ events r' = events r ++ evs
     /\ writesOf evs = [] /\ lookupsOf evs = [] /\ repliesOf evs = [])
  /\ (GetMapString headers "type" = MsgTypeTransactionRedeliveryPrevented ->
      processReply fuel msgBytes r = Panic NilDereference r).
Proof.
  intros Hp. split.
  - intros Htype.
    rewrite (processReply_unfold _ _ _ _ _ _ Hjson Hheaders Hid Hne).
    rewrite classifyReply_other by done. cbn zeta.
    unfold postDeploy. cbn [smartContractGW emit].
    destruct (smartContractGW r) as [gw|].
    + destruct (_ && _).
      * destruct (json_Unmarshal_receipt msgBytes) as [deployed|e].
        -- destruct (PostDeploy gw deployed); unfold log; cbn beta iota zeta;
             cbn [persistence emit]; rewrite Hp;
             rewrite bool_decide_eq_false_2 by (intros [? ?]; done);
             eexists _, _; (split; [reflexivity|]);
             (split; [simpl; rewrite <- !app_assoc; reflexivity|]); done.
        -- unfold log; cbn beta iota zeta; cbn [persistence emit]; rewrite Hp.
           rewrite bool_decide_eq_false_2 by (intros [? ?]; done).
           eexists _, _; (split; [reflexivity|]).
           split; [simpl; rewrite <- !app_assoc; reflexivity|]. done.
      * cbn [persistence emit]. rewrite Hp.
        rewrite bool_decide_eq_false_2 by (intros [? ?]; done).
        eexists _, _; (split; [reflexivity|]). split; [reflexivity|]. done.
    + cbn [persistence emit]. rewrite Hp.
      rewrite bool_decide_eq_false_2 by (intros [? ?]; done).
      eexists _, _; (split; [reflexivity|]). split; [reflexivity|]. done.
  - intros Htype.
    rewrite (processReply_unfold _ _ _ _ _ _ Hjson Hheaders Hid Hne).
    rewrite Htype. unfold classifyReply.
    cbn [String.eqb MsgTypeError MsgTypeTransactionRedeliveryPrevented
         Ascii.eqb Bool.eqb].
    unfold bind, persistence_GetReceipt. by rewrite Hp.
Qed.

(** X4: when the lookup of the existing receipt fails, a redelivery
    notice is treated like one for a receipt that is not terminal: the
    message is rewritten into the resubmission-prevented error and written
    with overwrite on, whatever the persistence tier holds for the id. *)
Theorem redelivery_after_failed_lookup fuel r p p' existing lookupErr :
  headers !! "type" = Some (JString MsgTypeTransactionRedeliveryPrevented) ->
  persistence r = Some p ->
  GetReceipt p requestID = (existing, Some lookupErr) ->
  let receipt :=
    <["_id" := JString requestID]>
      (<["receivedAt" := JInt (Z.quot (clock r) Go.Millisecond)]>
         (redeliveryError parsedMsg)) in
  AddReceipt p requestID receipt true = (None, p') ->
  exists r' evs,
    processReply (S fuel) msgBytes r = Done tt r'
    /\ persistence r' = Some p'
    /\ events r' = events r ++ evs
    /\ writesOf evs = [(requestID, receipt, true, None)]
    /\ receipt !! "errorCode" = Some (JString (Code idempotencyErr)).
Proof.
  intros Htype Hp Hget receipt Hadd.
  rewrite (processReply_unfold _ _ _ _ _ _ Hjson Hheaders Hid Hne).
  rewrite (GetMapString_string _ _ _ Htype).
  rewrite (classifyReply_redelivery_lookup_error _ _ _ _ _ _ Hp Hget).
  cbn zeta. rewrite postDeploy_other by discriminate.
  match goal with
  | |- context [bool_decide (is_Some (persistence ?s))] => set (r3 := s)
  end.
  assert (Hp3 : persistence r3 = Some p) by done.
  rewrite bool_decide_eq_true_2 by (rewrite Hp3; eauto).
  change (clock r3) with (clock r). fold receipt.
  rewrite writeReceipt_unfold.
  rewrite (writeReceipt_loop_step _ _ _ _ _ fuel _ 0 r3 p Hp3).
  change (0 <? 0) with false. cbn zeta iota. rewrite Hadd.
  subst r3. cbn [smartContractGW emit set_persistence set_clock].
  destruct (smartContractGW r); eexists _, _; (split; [reflexivity|]);
    (split; [reflexivity|]);
    (split; [simpl; rewrite <- !app_assoc; reflexivity|]);
    (split; [reflexivity|]);
    subst receipt; unfold redeliveryError;
    by rewrite !lookup_insert_ne, lookup_insert_eq by done.
Qed.

End Reply.

(** ** writeReceipt: what it leaves alone *)

(** X5: however a run of [writeReceipt] ends (return or panic), it has
    left the configuration, the gateway and the reserved ids alone, every
    call of [AddReceipt] it made was for the same id, receipt and
    overwrite flag, and the gateway's [SendReply] was called at most once,
    with that receipt, and only in a run that returns nil. *)
Theorem writeReceipt_effects fuel (requestID : string) receipt overwrite r r' :
  is_Some (persistence r) ->
  Z.of_nat fuel < 2 ^ 62 ->
  stateOf (writeReceipt fuel requestID receipt overwrite r) = Some r' ->
  exists evs,
    events r' = events r ++ evs
    /\ conf r' = conf r
    /\ smartContractGW r' = smartContractGW r
    /\ reservedIDs r' = reservedIDs r
    /\ Forall (fun w => exists err, w = (requestID, receipt, overwrite, err))
              (writesOf evs)
    /\ (repliesOf evs = []
        \/ repliesOf evs = [receipt]
           /\ writeReceipt fuel requestID receipt overwrite r = Done None r').
Proof.
  intros [p Hp] Hfuel Hstate.
  destruct (writeReceipt_run fuel requestID receipt overwrite r p Hp Hfuel)
    as [Hout | (r1 & evs & fails & lastw & Hev & Hsame & _ & Hwr & _ & Hlast)];
    [by rewrite Hout in Hstate|].
  assert (r1 = r' /\ (repliesOf evs = []
            \/ repliesOf evs = [receipt]
               /\ writeReceipt fuel requestID receipt overwrite r
                  = Done None r')) as [<- Hreplies].
  { destruct lastw as [e|].
    - destruct Hlast as [Hrep Hlast]. destruct overwrite.
      + destruct Hlast as [Hrun _]. rewrite Hrun in Hstate.
        injection Hstate as <-. split; [done|by left].
      + destruct Hlast as [Hrun _]. rewrite Hrun in Hstate.
        injection Hstate as <-. split; [done|by left].
    - destruct Hlast as (Hrun & Hgw & Hnogw). rewrite Hrun in Hstate.
      injection Hstate as <-. split; [done|].
      destruct (smartContractGW r) as [gw|] eqn:Hg.
      + destruct (Hgw gw eq_refl) as (evs0 & -> & Hrep0). right.
        rewrite repliesOf_app, Hrep0. by split.
      + left. by apply Hnogw. }
  exists evs. destruct Hsame as (Hconf & Hgw & Hres & _).
  repeat (split; [done|]). split; [|done].
  rewrite Hwr. apply Forall_app. split.
  - apply Forall_fmap, Forall_forall. intros e _. by exists (Some e).
  - apply Forall_singleton. by exists lastw.
Qed.

(** ** reserveID: the life of a reservation *)

Lemma reserveID_free msgID r p :
  persistence r = Some p ->
  GetReceipt p msgID = (None, None) ->
  reserved msgID r = false ->
  reserveID msgID r
  = Done (Some (release msgID), None)
         (set_reservedIDs (<[msgID := true]> (reservedIDs r))
            (emit (EvGetReceipt msgID (None, None)) r)).
Proof.
  intros Hp Hget Hfree. unfold reserveID, bind, persistence_GetReceipt.
  rewrite Hp, Hget. cbn beta iota zeta.
  rewrite reserved_emit, Hfree. reflexivity.
Qed.

(** X6: a reservation touches no other id, and its release gives the id
    back: after [reserveID] has succeeded, every other id is reserved or
    free as before; after the release handle has run, the set of reserved
    ids is the one from before the reservation, and [reserveID] of the
    same id succeeds again. *)
Theorem reserveID_release_roundtrip (msgID : string) r rel r1 :
  reserveID msgID r = Done (Some rel, None) r1 ->
  (forall other, other <> msgID -> reserved other r1 = reserved other r)
  /\ exists r2,
       rel r1 = Done tt r2
       /\ (forall id, reserved id r2 = reserved id r)
       /\ persistence r2 = persistence r
       /\ exists r3,
            reserveID msgID r2 = Done (Some (release msgID), None) r3
            /\ reserved msgID r3 = true.
Proof.
  intros Hfirst.
  destruct (reserveID_success _ _ _ _ Hfirst)
    as (p & Hp & Hget & Hfree & -> & ->).
  split.
  - intros other Hother. unfold reserved; simpl.
    by rewrite lookup_insert_ne.
  - eexists. split; [reflexivity|].
    assert (Hback : forall id,
      reserved id
        (set_reservedIDs
           (delete msgID
              (reservedIDs
                 (set_reservedIDs (<[msgID := true]> (reservedIDs r))
                    (emit (EvGetReceipt msgID (None, None)) r))))
           (set_reservedIDs (<[msgID := true]> (reservedIDs r))
              (emit (EvGetReceipt msgID (None, None)) r)))
      = reserved id r).
    { intros id. unfold reserved; simpl.
      destruct (decide (id = msgID)) as [->|Hne].
      - rewrite lookup_delete_eq. unfold reserved in Hfree.
        by rewrite Hfree.
      - rewrite lookup_delete_ne by done. by rewrite lookup_insert_ne. }
    split; [exact Hback|]. split; [done|].
    eexists. split.
    + apply reserveID_free with (p := p); [done|done|].
      rewrite Hback. exact Hfree.
    + apply reserved_insert.
Qed.

(** X7: the admission of a request id happens once.  After the id has
    been reserved, its accepted receipt written (the persistence tier
    took it and now returns a receipt for the id) and the reservation
    released, a further [reserveID] of the id fails with KeyNotUnique and
    reserves nothing. *)
Theorem admission_happens_once fuel (msgID msgAck : string) (msg : Receipt)
    r rel r1 p p' stored :
  reserveID msgID r = Done (Some rel, None) r1 ->
  persistence r = Some p ->
  AddReceipt p msgID
    (acceptedReceipt msgID msgAck msg (Z.quot (clock r) Go.Millisecond))
    false = (None, p') ->
  GetReceipt p' msgID = (Some stored, None) ->
  exists r2 r3 r4,
    writeAccepted (S fuel) msgID msgAck msg r1 = Done None r2
    /\ rel r2 = Done tt r3
    /\ reserved msgID r3 = false
    /\ reserveID msgID r3
       = Done (None, Some (Errorf ReceiptStoreKeyNotUnique [])) r4
    /\ reservedIDs r4 = reservedIDs r3.
Proof.
  intros Hfirst Hp Hadd Hstored.
  destruct (reserveID_success _ _ _ _ Hfirst)
    as (p0 & Hp0 & Hget & Hfree & -> & ->).
  assert (p0 = p) by congruence. subst p0.
  set (r1 := set_reservedIDs _ _).
  assert (Hp1 : persistence r1 = Some p) by done.
  rewrite writeAccepted_unfold, writeReceipt_unfold.
  rewrite (writeReceipt_loop_step _ _ _ _ _ fuel _ 0 r1 p Hp1).
  change (0 <? 0) with false. cbn zeta iota.
  change (clock r1) with (clock r). rewrite Hadd.
  eexists _, _, _. split; [reflexivity|]. split; [reflexivity|].
  split.
  { unfold reserved. cbn [reservedIDs set_reservedIDs].
    by rewrite lookup_delete_eq. }
  split.
  - unfold reserveID, bind, persistence_GetReceipt.
    match goal with
    | |- context [persistence ?s] =>
        assert (Hp3 : persistence s = Some p')
    end.
    { subst r1.
      cbn [smartContractGW emit set_persistence set_reservedIDs set_clock].
      by destruct (smartContractGW r). }
    rewrite Hp3, Hstored. reflexivity.
  - reflexivity.
Qed.

(** ** The REST surface: what reaches the persistence tier *)

Lemma queriesOf_app (a b : list Event) :
  queriesOf (a ++ b) = queriesOf a ++ queriesOf b.
Proof. apply omap_app. Qed.

Lemma extractIDs_accept req limit ids :
  extractIDs req = Accept (limit, ids) ->
  (limit = 0 \/ limit = defaultReceiptLimit)
  /\ Forall (fun id => Go.uuidCharsVerifier_MatchString id = true) ids.
Proof.
  unfold extractIDs. destruct (Form req !! "id") as [l|].
  - destruct (forallb _ l) eqn:Hall; [|done]. intros [= <- <-].
    split; [by left|]. apply Forall_forall. intros id Hin.
    rewrite forallb_forall in Hall. apply Hall. by apply list_elem_of_In.
  - intros [= <- <-]. split; [by right|]. constructor.
Qed.

Lemma extractLimit_accept queryLimit limit req l :
  extractLimit queryLimit limit req = Accept l ->
  l = limit \/ 0 < l <= queryLimit.
Proof.
  unfold extractLimit. cbn zeta.
  destruct (String.eqb _ ""); [intros [= <-]; by left|].
  destruct (Go.ParseInt _ 32) as [customLimit [e|]]; [done|].
  destruct (queryLimit <? customLimit) eqn:Hq; [done|].
  destruct (0 <? customLimit) eqn:Hpos; intros [= <-]; [right|by left].
  apply Z.ltb_ge in Hq. apply Z.ltb_lt in Hpos. lia.
Qed.

Lemma extractSkip_accept req skip :
  extractSkip req = Accept skip -> 0 <= skip < 2 ^ 31.
Proof.
  unfold extractSkip. cbn zeta.
  destruct (String.eqb _ ""); [intros [= <-]; lia|].
  destruct (Go.ParseInt _ 32) as [skipI64 [e|]] eqn:Hparse; [done|].
  destruct (0 <? skipI64) eqn:Hpos; [|done]. intros [= <-].
  apply ParseInt_range in Hparse; [|lia]. apply Z.ltb_lt in Hpos.
  change (2 ^ (32 - 1)) with (2 ^ 31) in Hparse. lia.
Qed.

Lemma queryReplies_queries skip limit ids since from to start r r' :
  stateOf (queryReplies skip limit ids since from to start r) = Some r' ->
  exists evs,
    events r' = events r ++ evs
    /\ queriesOf evs
       = match persistence r with
         | Some _ => [(skip, limit, ids, since, from, to, start)]
         | None => []
         end.
Proof.
  unfold queryReplies, bind, persistence_GetReceipts.
  destruct (persistence r) as [p|];
    [|intros [= <-]; exists []; by rewrite app_nil_r].
  destruct (GetReceipts p skip limit ids since from to start)
    as [results [e|]]; cbn beta iota zeta.
  - intros [= <-]. eexists. split; [simpl; by rewrite <- !app_assoc|done].
  - destruct results as [rs|]; cbn beta iota zeta.
    + unfold marshalAndReply, log, bind, sendRESTError. cbn beta iota.
      destruct (json_MarshalIndent _); intros [= <-];
        (eexists; split; [simpl; by rewrite <- !app_assoc|done]).
    + intros [= <-]. eexists. by split.
Qed.

(** X8: the arguments that [getReplies] hands to the persistence tier are
    checked ones.  Whatever the request, the tier is queried at most
    once, and only for an authorised request: with a skip from 0 to
    2^31-1, with a limit that is the default (10, or 0 when ids are
    given) or lies between 1 and QueryLimit, with ids that all match
    [[0-9a-zA-Z-]+], and with the [from], [to] and [start] values of the
    form. *)
Theorem getReplies_checked_query req r r' :
  stateOf (getReplies req r) = Some r' ->
  let queries := queriesOf (drop (length (events r)) (events r')) in
  (length queries <= 1)%nat
  /\ Forall (fun '(skip, limit, ids, since, from, to, start) =>
               AuthListAsyncReplies (Ctx req) = None
               /\ 0 <= skip < 2 ^ 31
               /\ (limit = 0 \/ limit = defaultReceiptLimit
                   \/ 0 < limit <= QueryLimit (conf r))
               /\ Forall (fun id => Go.uuidCharsVerifier_MatchString id
                                    = true) ids
               /\ from = FormValue req "from" /\ to = FormValue req "to"
               /\ start = FormValue req "start") queries.
Proof.
  intros Hstate queries. subst queries.
  assert (Hnone : forall evs,
    events r' = events r ++ evs -> queriesOf evs = [] ->
    (length (queriesOf (drop (length (events r)) (events r'))) <= 1)%nat
    /\ Forall (fun '(skip, limit, ids, since, from, to, start) =>
               AuthListAsyncReplies (Ctx req) = None
               /\ 0 <= skip < 2 ^ 31
               /\ (limit = 0 \/ limit = defaultReceiptLimit
                   \/ 0 < limit <= QueryLimit (conf r))
               /\ Forall (fun id => Go.uuidCharsVerifier_MatchString id
                                    = true) ids
               /\ from = FormValue req "from" /\ to = FormValue req "to"
               /\ start = FormValue req "start")
              (queriesOf (drop (length (events r)) (events r')))).
  { intros evs Hev Hq. rewrite Hev, drop_app_length, Hq.
    split; [simpl; lia|constructor]. }
  revert Hstate. unfold getReplies, bind at 1, log at 1. cbn beta iota.
  set (r0 := emit (EvLog InfoLevel "--> %s %s") r).
  destruct (AuthListAsyncReplies (Ctx req)) as [e|] eqn:Hauth.
  { intros [= <-]. eapply Hnone; [simpl; by rewrite <- !app_assoc|done]. }
  change (persistence r0) with (persistence r).
  destruct (persistence r) as [p|] eqn:Hp.
  2:{ intros [= <-]. eapply Hnone; [simpl; by rewrite <- !app_assoc|done]. }
  destruct (extractIDs req) as [[limit0 ids]|format err] eqn:Hids.
  2:{ intros [= <-]. eapply Hnone; [simpl; by rewrite <- !app_assoc|done]. }
  change (conf r0) with (conf r).
  destruct (extractLimit _ _ _) as [limit|format err] eqn:Hlimit.
  2:{ intros [= <-]. eapply Hnone; [simpl; by rewrite <- !app_assoc|done]. }
  destruct (extractSkip req) as [skip|format err] eqn:Hskip.
  2:{ intros [= <-]. eapply Hnone; [simpl; by rewrite <- !app_assoc|done]. }
  destruct (extractSince req) as [since refused].
  unfold bind at 1.
  assert (Hr1 : exists pre, (if refused then refuse
      "since '%s' cannot be parsed as RFC3339 or millisecond timestamp: %s"
      (Errorf ReceiptStoreInvalidRequestBadSince []) else ret tt) r0
      = Done tt (mkStore (conf r) (persistence r) (smartContractGW r)
                         (reservedIDs r) (clock r) (events r ++ pre))
      /\ queriesOf pre = []).
  { subst r0. destruct refused.
    - exists [EvLog InfoLevel "--> %s %s";
              EvLog ErrorLevel
                "since '%s' cannot be parsed as RFC3339 or millisecond timestamp: %s";
              EvSendRESTError
                (Errorf ReceiptStoreInvalidRequestBadSince []) 400].
      split; [|reflexivity]. unfold refuse, bind, log, sendRESTError, emit.
      simpl. rewrite <- !app_assoc. reflexivity.
    - exists [EvLog InfoLevel "--> %s %s"]. split; reflexivity. }
  destruct Hr1 as (pre & -> & Hpre).
  intros Hstate.
  apply queryReplies_queries in Hstate as (evs & Hev & Hq).
  cbn [events persistence] in Hev, Hq. rewrite Hp in Hq.
  rewrite Hev, <- app_assoc, drop_app_length, !queriesOf_app, Hpre, Hq.
  split; [simpl; lia|]. apply Forall_singleton.
  apply extractIDs_accept in Hids as [Hl0 Hvalid].
  apply extractLimit_accept in Hlimit.
  apply extractSkip_accept in Hskip.
  split; [done|]. split; [done|]. split; [|by repeat split].
  destruct Hlimit as [->|?]; [|by right; right].
  destruct Hl0 as [->| ->]; [by left|by right; left].
Qed.

Lemma responseStatus_drop_app (pre evs : list Event) :
  responseStatus (drop (length pre) (pre ++ evs)) = responseStatus evs.
Proof. by rewrite drop_app_length. Qed.

(** X9: a request that the authorisation hook refuses is answered with
    401 by both handlers, before anything else is looked at: the
    persistence tier is not called, not even to see whether there is
    one. *)
Theorem handlers_refuse_unauthorized req params r denied :
  (AuthListAsyncReplies (Ctx req) = Some denied ->
   exists r',
     getReplies req r = Done tt r'
     /\ events r'
        = events r ++ [EvLog InfoLevel "--> %s %s";
                       EvLog ErrorLevel "Error querying replies: %s";
                       EvSendRESTError (Errorf Unauthorized []) 401]
     /\ persistence r' = persistence r)
  /\ (AuthReadAsyncReplyByUUID (Ctx req) = Some denied ->
      exists r',
        getReply req params r = Done tt r'
        /\ events r'
           = events r ++ [EvLog InfoLevel "--> %s %s";
                          EvLog ErrorLevel "Error querying reply: %s";
                          EvSendRESTError (Errorf Unauthorized []) 401]
        /\ persistence r' = persistence r).
Proof.
  split; intros Hauth.
  - unfold getReplies, bind, log, sendRESTError. cbn beta iota.
    rewrite Hauth. eexists. split; [reflexivity|].
    split; [simpl; by rewrite <- !app_assoc|done].
  - unfold getReply, bind, log, sendRESTError. cbn beta iota.
    rewrite Hauth. eexists. split; [reflexivity|].
    split; [simpl; by rewrite <- !app_assoc|done].
Qed.

(** X10: a [skip] parameter is only taken when it is a positive 32-bit
    integer: a [skip] that does not parse, and also a [skip] of 0 or
    below, ends the request with 400 (ReceiptStoreInvalidRequestBadSkip)
    and without a query. *)
Theorem getReplies_refuses_bad_skip req r p limit0 limit ids value err :
  AuthListAsyncReplies (Ctx req) = None ->
  persistence r = Some p ->
  extractIDs req = Accept (limit0, ids) ->
  extractLimit (QueryLimit (conf r)) limit0 req = Accept limit ->
  FormValue req "skip" <> "" ->
  Go.ParseInt (FormValue req "skip") 32 = (value, err) ->
  is_Some err \/ value <= 0 ->
  exists r',
    getReplies req r = Done tt r'
    /\ events r'
       = events r
         ++ [EvLog InfoLevel "--> %s %s";
             EvLog ErrorLevel "Invalid skip value: %s";
             EvSendRESTError (Errorf ReceiptStoreInvalidRequestBadSkip []) 400]
    /\ persistence r' = Some p.
Proof.
  intros Hauth Hp Hids Hlimit Hskip Hparse Hbad.
  rewrite (getReplies_unfold _ _ _ Hauth Hp). cbn zeta.
  rewrite Hids, Hlimit.
  assert (Hrefuse : extractSkip req
            = Refuse "Invalid skip value: %s"
                     (Errorf ReceiptStoreInvalidRequestBadSkip [])).
  { unfold extractSkip. cbn zeta.
    apply String.eqb_neq in Hskip. rewrite Hskip, Hparse.
    destruct err as [e|]; [done|].
    destruct Hbad as [[? ?]|Hle]; [done|].
    by replace (0 <? value) with false by (symmetry; apply Z.ltb_ge; lia). }
  rewrite Hrefuse. eexists. split; [reflexivity|].
  split; [simpl; by rewrite <- !app_assoc|done].
Qed.

(** X11: a [since] that is neither an RFC 3339 time nor a 64-bit integer
    is answered with 400 (ReceiptStoreInvalidRequestBadSince), but the
    handler does not return there: it still queries the persistence tier,
    with the value that [ParseInt] returned beside its error as the
    epoch, and the status the client sees stays 400. *)
Theorem getReplies_bad_since_still_queries req r p r'
    limit0 limit skip ids value err :
  AuthListAsyncReplies (Ctx req) = None ->
  persistence r = Some p ->
  extractIDs req = Accept (limit0, ids) ->
  extractLimit (QueryLimit (conf r)) limit0 req = Accept limit ->
  extractSkip req = Accept skip ->
  FormValue req "since" <> "" ->
  time_Parse_RFC3339Nano (FormValue req "since") = None ->
  Go.ParseInt (FormValue req "since") 64 = (value, Some err) ->
  stateOf (getReplies req r) = Some r' ->
  let evs := drop (length (events r)) (events r') in
  responseStatus evs = Some 400
  /\ head (restErrorsOf evs)
     = Some (Errorf ReceiptStoreInvalidRequestBadSince [], 400)
  /\ queriesOf evs
     = [(skip, limit, ids, value, FormValue req "from", FormValue req "to",
         FormValue req "start")].
Proof.
  intros Hauth Hp Hids Hlimit Hskip Hsince Hrfc Hparse.
  rewrite (getReplies_unfold _ _ _ Hauth Hp). cbn zeta.
  rewrite Hids, Hlimit, Hskip.
  assert (Hs : extractSince req = (value, true)).
  { unfold extractSince. cbn zeta. apply String.eqb_neq in Hsince.
    by rewrite Hsince, Hrfc, Hparse. }
  rewrite Hs. cbn [fst snd]. unfold bind at 1.
  unfold refuse, bind, log, sendRESTError. cbn beta iota.
  match goal with
  | |- stateOf (queryReplies _ _ _ _ _ _ _ ?s) = _ -> _ => set (r1 := s)
  end.
  intros Hstate.
  apply queryReplies_queries in Hstate as (evs & Hev & Hq).
  assert (Hev1 : events r1
            = events r
              ++ [EvLog InfoLevel "--> %s %s";
                  EvLog ErrorLevel
                    "since '%s' cannot be parsed as RFC3339 or millisecond timestamp: %s";
                  EvSendRESTError
                    (Errorf ReceiptStoreInvalidRequestBadSince []) 400]).
  { subst r1. simpl. by rewrite <- !app_assoc. }
  change (persistence r1) with (persistence r) in Hq. rewrite Hp in Hq.
  cbn zeta. rewrite Hev, Hev1, <- app_assoc, drop_app_length.
  split; [reflexivity|]. split; [reflexivity|].
  rewrite queriesOf_app, Hq. reflexivity.
Qed.

(** X12: what [getReplies] answers once the parameters are accepted.  The
    tier is queried with the extracted skip, limit and ids; its receipts
    are answered with 200 and the bytes of [json.MarshalIndent]; an error
    of the tier, and also receipts that do not serialise, are answered
    with 500.  A request without any parameter asks for the first 10
    receipts. *)
Theorem getReplies_answers req r p limit0 limit skip ids since :
  AuthListAsyncReplies (Ctx req) = None ->
  persistence r = Some p ->
  extractIDs req = Accept (limit0, ids) ->
  extractLimit (QueryLimit (conf r)) limit0 req = Accept limit ->
  extractSkip req = Accept skip ->
  extractSince req = (since, false) ->
  let result := GetReceipts p skip limit ids since (FormValue req "from")
                            (FormValue req "to") (FormValue req "start") in
  (forall receipts body,
      result = (Some receipts, None) ->
      json_MarshalIndent (JArray (JObject <$> receipts)) = inl body ->
      exists r',
        getReplies req r = Done tt r'
        /\ responseStatus (drop (length (events r)) (events r')) = Some 200
        /\ bodiesOf (drop (length (events r)) (events r')) = [body]
        /\ restErrorsOf (drop (length (events r)) (events r')) = [])
  /\ (forall receipts failure,
        result = (Some receipts, None) ->
        json_MarshalIndent (JArray (JObject <$> receipts)) = inr failure ->
        exists r',
          getReplies req r = Done tt r'
          /\ restErrorsOf (drop (length (events r)) (events r'))
             = [(Errorf ReceiptStoreSerializeResponse [], 500)]
          /\ bodiesOf (drop (length (events r)) (events r')) = [])
  /\ (forall receipts failure,
        result = (receipts, Some failure) ->
        exists r',
          getReplies req r = Done tt r'
          /\ restErrorsOf (drop (length (events r)) (events r'))
             = [(Errorf ReceiptStoreFailedQuery [ArgError failure], 500)]
          /\ bodiesOf (drop (length (events r)) (events r')) = [])
  /\ (Form req = ∅ ->
      limit0 = 10 /\ limit = 10 /\ skip = 0 /\ ids = [] /\ since = 0).
Proof.
  intros Hauth Hp Hids Hlimit Hskip Hsince result.
  assert (Hrun : getReplies req r
            = queryReplies skip limit ids since (FormValue req "from")
                (FormValue req "to") (FormValue req "start")
                (emit (EvLog InfoLevel "--> %s %s") r)).
  { rewrite (getReplies_unfold _ _ _ Hauth Hp). cbn zeta.
    by rewrite Hids, Hlimit, Hskip, Hsince. }
  rewrite Hrun. unfold queryReplies, bind, persistence_GetReceipts.
  cbn [persistence emit]. rewrite Hp. fold result.
  split; [|split; [|split]].
  - intros receipts body Hres Hmarshal. rewrite Hres. cbn beta iota zeta.
    unfold marshalAndReply, log, bind. cbn beta iota. rewrite Hmarshal.
    eexists. split; [reflexivity|]. simpl.
    rewrite <- !app_assoc, drop_app_length. by repeat split.
  - intros receipts failure Hres Hmarshal. rewrite Hres. cbn beta iota zeta.
    unfold marshalAndReply, log, bind, sendRESTError. cbn beta iota.
    rewrite Hmarshal.
    eexists. split; [reflexivity|]. simpl.
    rewrite <- !app_assoc, drop_app_length. by repeat split.
  - intros receipts failure Hres. rewrite Hres. cbn beta iota zeta.
    unfold log, bind, sendRESTError. cbn beta iota.
    eexists. split; [reflexivity|]. simpl.
    rewrite <- !app_assoc, drop_app_length. by repeat split.
  - intros Hform.
    unfold extractIDs in Hids. unfold extractLimit in Hlimit.
    unfold extractSkip in Hskip. unfold extractSince in Hsince.
    unfold FormValue in *. rewrite Hform in *.
    rewrite !lookup_empty in *. cbn in *.
    injection Hids as <- <-. injection Hlimit as <-.
    injection Hskip as <-. injection Hsince as <-. done.
Qed.

(** X13: what [getReply] answers for an id that the persistence tier
    has: 200 with the bytes of [json.MarshalIndent] for the receipt, and
    500 (ReceiptStoreSerializeResponse) when the receipt does not
    serialise.  The id is the route parameter [id], looked up once. *)
Theorem getReply_answers_receipt req params r p (receipt : Receipt) :
  AuthReadAsyncReplyByUUID (Ctx req) = None ->
  persistence r = Some p ->
  GetReceipt p (ByName params "id") = (Some receipt, None) ->
  exists r',
    getReply req params r = Done tt r'
    /\ persistence r' = Some p
    /\ lookupsOf (drop (length (events r)) (events r'))
       = [ByName params "id"]
    /\ match json_MarshalIndent (JObject receipt) with
       | inl body =>
           responseStatus (drop (length (events r)) (events r')) = Some 200
           /\ bodiesOf (drop (length (events r)) (events r')) = [body]
       | inr _ =>
           restErrorsOf (drop (length (events r)) (events r'))
           = [(Errorf ReceiptStoreSerializeResponse [], 500)]
           /\ bodiesOf (drop (length (events r)) (events r')) = []
       end.
Proof.
  intros Hauth Hp Hget.
  unfold getReply, bind, log, persistence_GetReceipt. cbn beta iota.
  rewrite Hauth. cbn [persistence emit]. rewrite Hp, Hget.
  cbn beta iota zeta. unfold marshalAndReply, log, bind, sendRESTError.
  cbn beta iota.
  destruct (json_MarshalIndent (JObject receipt)) as [body|failure];
    (eexists; split; [reflexivity|]; split; [exact Hp|]; simpl;
     rewrite <- !app_assoc, drop_app_length; by repeat split).
Qed.

(** ** The in-memory store *)

Lemma skipLoop_drop (curElem : list Receipt) :
  forall i skip,
    MemoryReceipts.skipLoop i skip curElem
    = drop (Z.to_nat (skip - i)) curElem.
Proof.
  induction curElem as [|value next IH]; intros i skip; simpl.
  - by rewrite drop_nil.
  - destruct (i <? skip) eqn:Hi.
    + apply Z.ltb_lt in Hi. rewrite IH.
      replace (Z.to_nat (skip - i)) with (S (Z.to_nat (skip - (i + 1))))
        by lia.
      reflexivity.
    + apply Z.ltb_ge in Hi.
      by replace (Z.to_nat (skip - i)) with 0%nat by lia.
Qed.

Lemma collectLoop_take (curElem : list Receipt) :
  forall i limit (results : list Receipt),
    MemoryReceipts.collectLoop i limit results curElem
    = results ++ take (Z.to_nat (limit - i)) curElem.
Proof.
  induction curElem as [|value next IH]; intros i limit results; simpl.
  - by rewrite take_nil, app_nil_r.
  - destruct (i <? limit) eqn:Hi.
    + apply Z.ltb_lt in Hi. rewrite IH.
      replace (Z.to_nat (limit - i)) with (S (Z.to_nat (limit - (i + 1))))
        by lia.
      by rewrite <- app_assoc.
    + apply Z.ltb_ge in Hi.
      replace (Z.to_nat (limit - i)) with 0%nat by lia.
      by rewrite app_nil_r.
Qed.

Lemma memory_GetReceipts_take_drop m skip limit :
  Go.makeslice_cap_in_range Go.PtrSize limit = true ->
  MemoryReceipts.GetReceipts m skip limit []
  = MemoryReceipts.Returns
      (Some (take (Z.to_nat limit)
                  (drop (Z.to_nat skip) (MemoryReceipts.receipts m))),
       None).
Proof.
  intros Hcap. rewrite memory_GetReceipts_in_range by done.
  by rewrite skipLoop_drop, collectLoop_take, !Z.sub_0_r.
Qed.

Lemma memory_GetReceipts_returned m skip limit result :
  MemoryReceipts.GetReceipts m skip limit []
  = MemoryReceipts.Returns result ->
  Go.makeslice_cap_in_range Go.PtrSize limit = true.
Proof.
  destruct (Go.makeslice_cap_in_range Go.PtrSize limit) eqn:Hcap; [done|].
  by rewrite memory_GetReceipts_out_of_range by done.
Qed.

(** X14: the two loops of the in-memory [GetReceipts] return a window of
    the list.  For a limit from 0 to 2^31 - 1 the call returns; and
    whenever it returns, the slice holds the receipts at the positions
    [skip], ..., [skip + limit - 1], in the order of the list, fewer when
    the list ends before, and the whole rest of the list when [limit]
    reaches its end.  A negative [skip] is a [skip] of 0. *)
Theorem memory_GetReceipts_window m skip limit :
  (0 <= limit < 2 ^ 31 ->
   exists results,
     MemoryReceipts.GetReceipts m skip limit []
     = MemoryReceipts.Returns (Some results, None))
  /\ forall result,
       MemoryReceipts.GetReceipts m skip limit []
       = MemoryReceipts.Returns result ->
       exists results,
         result = (Some results, None)
         /\ (forall i : nat,
               results !! i
               = if bool_decide (Z.of_nat i < limit)
                 then MemoryReceipts.receipts m !! (Z.to_nat skip + i)%nat
                 else None)
         /\ Z.of_nat (length results)
            = Z.min limit
                (Z.max 0 (Z.of_nat (length (MemoryReceipts.receipts m))
                          - Z.max 0 skip)).
Proof.
  split.
  - intros Hlimit. eexists.
    by apply memory_GetReceipts_take_drop, makeslice_cap_int32.
  - intros result Hrun.
    pose proof (memory_GetReceipts_returned _ _ _ _ Hrun) as Hcap.
    rewrite memory_GetReceipts_take_drop in Hrun by done.
    injection Hrun as <-.
    apply makeslice_cap_in_range_spec in Hcap as [Hlimit _].
    eexists. split; [reflexivity|]. split.
    + intros i. case_bool_decide as Hi.
      * rewrite lookup_take_lt by lia. by rewrite lookup_drop.
      * by rewrite lookup_take_ge by lia.
    + rewrite length_take, length_drop. lia.
Qed.

(** X15: pages of the in-memory store fit together: when the page of [a]
    receipts from [skip] and the page of [b] receipts from [skip + a]
    have been returned, the page of [a + b] receipts from [skip], if it
    is returned, is the first page followed by the second, and it is
    returned when [a + b] is below 2^31. *)
Theorem memory_GetReceipts_pages m skip a b page1 page2 :
  0 <= skip -> 0 <= a -> 0 <= b ->
  MemoryReceipts.GetReceipts m skip a []
  = MemoryReceipts.Returns (Some page1, None) ->
  MemoryReceipts.GetReceipts m (skip + a) b []
  = MemoryReceipts.Returns (Some page2, None) ->
  (a + b < 2 ^ 31 ->
   MemoryReceipts.GetReceipts m skip (a + b) []
   = MemoryReceipts.Returns (Some (page1 ++ page2), None))
  /\ forall result,
       MemoryReceipts.GetReceipts m skip (a + b) []
       = MemoryReceipts.Returns result ->
       result = (Some (page1 ++ page2), None).
Proof.
  intros Hskip Ha Hb Hpage1 Hpage2.
  pose proof (memory_GetReceipts_returned _ _ _ _ Hpage1) as Hcap1.
  pose proof (memory_GetReceipts_returned _ _ _ _ Hpage2) as Hcap2.
  rewrite memory_GetReceipts_take_drop in Hpage1, Hpage2 by done.
  injection Hpage1 as <-. injection Hpage2 as <-.
  assert (Hboth :
    Go.makeslice_cap_in_range Go.PtrSize (a + b) = true ->
    MemoryReceipts.GetReceipts m skip (a + b) []
    = MemoryReceipts.Returns
        (Some (take (Z.to_nat a)
                    (drop (Z.to_nat skip) (MemoryReceipts.receipts m))
               ++ take (Z.to_nat b)
                    (drop (Z.to_nat (skip + a))
                          (MemoryReceipts.receipts m))), None)).
  { intros Hcap. rewrite memory_GetReceipts_take_drop by done.
    do 2 f_equal. rewrite !Z2Nat.inj_add by lia.
    by rewrite <- drop_drop, take_take_drop. }
  split.
  - intros Hsum. apply Hboth, makeslice_cap_int32. lia.
  - intros result Hrun.
    pose proof (memory_GetReceipts_returned _ _ _ _ Hrun) as Hcap.
    rewrite (Hboth Hcap) in Hrun. by injection Hrun as <-.
Qed.

Lemma removelast_take {A} (n : nat) (l : list A) :
  removelast (take n l) = take (Nat.pred (Nat.min n (length l))) l.
Proof.
  rewrite removelast_firstn_len, length_take, take_take. f_equal. lia.
Qed.

Lemma memory_AddReceipt_newest m receipt (added : list Receipt) :
  let cap := Z.to_nat (Z.max 1 (MemoryReceipts.MaxDocs m)) in
  MemoryReceipts.receipts m = take cap added ->
  MemoryReceipts.receipts (MemoryReceipts.AddReceipt m receipt).2
  = take cap (receipt :: added).
Proof.
  intros cap Hinv. unfold MemoryReceipts.AddReceipt. cbn zeta. simpl.
  assert (Hcap : Z.of_nat cap = Z.max 1 (MemoryReceipts.MaxDocs m))
    by (subst cap; lia).
  clearbody cap.
  rewrite Hinv. destruct cap as [|cap']; [lia|].
  rewrite firstn_cons. f_equal. set (cap := S cap') in *.
  destruct (0 <? Z.of_nat (length (take cap added))) eqn:Hpos; simpl.
  - apply Z.ltb_lt in Hpos.
    destruct (MemoryReceipts.MaxDocs m <=? Z.of_nat (length (take cap added)))
      eqn:Hfull.
    + apply Z.leb_le in Hfull. rewrite removelast_take. f_equal.
      rewrite length_take in Hpos, Hfull. lia.
    + apply Z.leb_gt in Hfull. rewrite length_take in Hfull.
      rewrite !take_ge by lia. reflexivity.
  - apply Z.ltb_ge in Hpos. rewrite length_take in Hpos.
    assert (added = []) as -> by (destruct added; [done|simpl in Hpos; lia]).
    by rewrite !take_nil.
Qed.

(** X16: the in-memory store keeps the newest receipts, newest first:
    after any number of calls of [AddReceipt] on a new store it holds the
    last [MaxDocs] receipts that were added, the latest at the front, and
    with a [MaxDocs] of 0 or below it holds the latest receipt alone.
    Every call returns nil, and receipts with the same id are kept side
    by side. *)
Theorem memory_AddReceipt_keeps_newest maxDocs (added : list Receipt) :
  let m := foldl (fun m receipt => (MemoryReceipts.AddReceipt m receipt).2)
                 (MemoryReceipts.newMemoryReceipts maxDocs) added in
  MemoryReceipts.MaxDocs m = maxDocs
  /\ MemoryReceipts.receipts m
     = take (Z.to_nat (Z.max 1 maxDocs)) (reverse added)
  /\ forall receipt, (MemoryReceipts.AddReceipt m receipt).1 = None.
Proof.
  induction added as [|receipt added IH] using rev_ind; cbn zeta.
  - rewrite reverse_nil, take_nil. by repeat split.
  - rewrite foldl_snoc, reverse_snoc. cbn zeta in IH.
    destruct IH as (Hmax & Hinv & _).
    set (m := foldl _ _ added) in *.
    split; [exact Hmax|]. split; [|done].
    rewrite <- Hmax. apply memory_AddReceipt_newest. by rewrite Hmax.
Qed.

Lemma findReceipt_first requestID (curElem : list Receipt) :
  match MemoryReceipts.findReceipt requestID curElem with
  | Some found =>
      exists before after,
        curElem = before ++ found :: after
        /\ MemoryReceipts.hasID requestID found = true
        /\ Forall (fun rc : Receipt =>
                     MemoryReceipts.hasID requestID rc = false) before
  | None =>
      Forall (fun rc : Receipt => MemoryReceipts.hasID requestID rc = false)
             curElem
  end.
Proof.
  induction curElem as [|r next IH]; simpl; [done|].
  destruct (MemoryReceipts.hasID requestID r) eqn:Hid.
  - by exists [], next.
  - destruct (MemoryReceipts.findReceipt requestID next) as [found|].
    + destruct IH as (before & after & -> & Hfound & Hbefore).
      exists (r :: before), after. by repeat split; [|constructor].
    + by constructor.
Qed.

Lemma hasID_spec requestID receipt :
  MemoryReceipts.hasID requestID receipt = true
  <-> receipt !! "_id" = Some (JString requestID).
Proof.
  unfold MemoryReceipts.hasID.
  destruct (receipt !! "_id") as [[]|]; try (split; [discriminate|congruence]).
  rewrite String.eqb_eq. split; congruence.
Qed.

(** X17: [GetReceipt] of the in-memory store returns the receipt nearest
    to the front whose [_id] is the string asked for, nil when the list
    has none, and never an error.  An [_id] that is not a string is never
    found. *)
Theorem memory_GetReceipt_first_match m requestID :
  (MemoryReceipts.GetReceipt m requestID).2 = None
  /\ match (MemoryReceipts.GetReceipt m requestID).1 with
     | Some found =>
         exists before after,
           MemoryReceipts.receipts m = before ++ found :: after
           /\ found !! "_id" = Some (JString requestID)
           /\ Forall (fun rc : Receipt =>
                        rc !! "_id" <> Some (JString requestID)) before
     | None =>
         Forall (fun rc : Receipt => rc !! "_id" <> Some (JString requestID))
                (MemoryReceipts.receipts m)
     end.
Proof.
  split; [reflexivity|]. unfold MemoryReceipts.GetReceipt. cbn [fst].
  pose proof (findReceipt_first requestID (MemoryReceipts.receipts m)) as H.
  assert (Hno : forall l : list Receipt,
             Forall (fun rc : Receipt =>
                       MemoryReceipts.hasID requestID rc = false) l ->
             Forall (fun rc : Receipt =>
                       rc !! "_id" <> Some (JString requestID)) l).
  { intros l Hl. eapply Forall_impl; [exact Hl|]. intros rc Hfalse Hid.
    apply hasID_spec in Hid. congruence. }
  destruct (MemoryReceipts.findReceipt _ _) as [r|].
  - destruct H as (before & after & Heq & Hid & Hbefore).
    exists before, after. repeat split; [done|by apply hasID_spec|auto].
  - auto.
Qed.

(** X18: a receipt that was added is read back: after [AddReceipt] of a
    receipt whose [_id] is the string [requestID], [GetReceipt requestID]
    returns this receipt, whatever the store held for the id before, and
    the first page of [GetReceipts], for a limit from 1 to 2^31 - 1,
    starts with it.  A lookup by another id is answered as before when
    the store was not full. *)
Theorem memory_AddReceipt_GetReceipt m (receipt : Receipt) requestID :
  receipt !! "_id" = Some (JString requestID) ->
  let m' := (MemoryReceipts.AddReceipt m receipt).2 in
  MemoryReceipts.GetReceipt m' requestID = (Some receipt, None)
  /\ (forall limit,
        0 < limit < 2 ^ 31 ->
        exists rest,
          MemoryReceipts.GetReceipts m' 0 limit []
          = MemoryReceipts.Returns (Some (receipt :: rest), None))
  /\ (forall other,
        other <> requestID ->
        Z.of_nat (length (MemoryReceipts.receipts m))
        < MemoryReceipts.MaxDocs m ->
        MemoryReceipts.GetReceipt m' other
        = MemoryReceipts.GetReceipt m other).
Proof.
  intros Hid m'.
  assert (Hhas : MemoryReceipts.hasID requestID receipt = true)
    by by apply hasID_spec.
  split; [|split].
  - unfold MemoryReceipts.GetReceipt. subst m'. simpl. by rewrite Hhas.
  - intros limit Hlimit.
    rewrite memory_GetReceipts_take_drop
      by (apply makeslice_cap_int32; lia).
    subst m'. simpl.
    replace (Z.to_nat limit) with (S (Nat.pred (Z.to_nat limit))) by lia.
    simpl. by eexists.
  - intros other Hother Hroom.
    unfold MemoryReceipts.GetReceipt. subst m'. simpl.
    assert (MemoryReceipts.hasID other receipt = false) as ->.
    { destruct (MemoryReceipts.hasID other receipt) eqn:Hh; [|done].
      apply hasID_spec in Hh. congruence. }
    replace (MemoryReceipts.MaxDocs m
             <=? Z.of_nat (length (MemoryReceipts.receipts m))) with false
      by (symmetry; apply Z.leb_gt; lia).
    by rewrite andb_false_r.
Qed.

(** ** The first reply processor and its consumer loop *)

Lemma getString_stringAt (genericMap : Receipt) key w :
  KldWebhooks.getString genericMap key w
  = let w1 := KldWebhooks.mkBridge
                (KldWebhooks.mongo w) (KldWebhooks.inserted w)
                (KldWebhooks.logged w ++ [(InfoLevel, "genericMap: %+v")]) in
    match KldWebhooksConsumer.stringAt genericMap key with
    | None => Panic NilDereference w1
    | Some s => Done s w1
    end.
Proof.
  unfold KldWebhooks.getString, KldWebhooksConsumer.stringAt,
    KldWebhooks.logf, bind, ret, panic.
  by destruct (genericMap !! key) as [[]|].
Qed.

Ltac getString_step :=
  rewrite !getString_stringAt; cbn beta iota zeta;
  match goal with
  | |- context [KldWebhooksConsumer.stringAt ?m ?k] =>
      destruct (KldWebhooksConsumer.stringAt m k) eqn:?
  end; cbn beta iota.

Lemma kldwebhooks_processReply_panic_independent msgBytes w w2 :
  panicOf (KldWebhooks.processReply msgBytes w)
  = panicOf (KldWebhooks.processReply msgBytes w2).
Proof.
  unfold KldWebhooks.processReply.
  destruct (json_Unmarshal msgBytes) as [parsedMsg|err]; [|done].
  destruct (parsedMsg !! "headers") as [[| | | | | |headers]|]; try done.
  unfold bind, KldWebhooks.logf, KldWebhooks.mongo_Insert.
  getString_step; [|done].
  destruct (String.eqb _ ""); [done|]. cbn beta iota.
  getString_step; [|done].
  getString_step; [|done].
  destruct (String.eqb _ MsgTypeError).
  all: getString_step; [|done].
  all: cbn [KldWebhooks.mongo KldWebhooks.inserted KldWebhooks.logged].
  all: destruct (KldWebhooks.mongo w), (KldWebhooks.mongo w2); simpl.
  all: try done.
  all: repeat match goal with |- context [match ?o ?d with _ => _ end] => destruct (o d) end; done.
Qed.

Lemma kldwebhooks_processReply_state msgBytes w :
  match KldWebhooks.processReply msgBytes w with
  | Done _ w' =>
      KldWebhooks.mongo w' = KldWebhooks.mongo w
      /\ KldWebhooks.inserted w'
         = KldWebhooks.inserted w
           ++ KldWebhooksConsumer.documents (KldWebhooks.mongo w) [msgBytes]
  | Panic _ w' =>
      KldWebhooks.mongo w' = KldWebhooks.mongo w
      /\ KldWebhooks.inserted w' = KldWebhooks.inserted w
  | OutOfFuel => False
  end.
Proof.
  assert (Hnil : forall (l : list Receipt),
             l = l ++ match KldWebhooks.mongo w with
                      | Some _ => [] | None => [] end)
    by (intros l; destruct (KldWebhooks.mongo w); by rewrite app_nil_r).
  unfold KldWebhooks.processReply, KldWebhooksConsumer.documents,
    KldWebhooksConsumer.document. cbn [omap list_omap].
  destruct (json_Unmarshal msgBytes) as [parsedMsg|err]; [|by split].
  destruct (parsedMsg !! "headers") as [[| | | | | |headers]|];
    try by split.
  unfold bind, KldWebhooks.logf, KldWebhooks.mongo_Insert.
  getString_step; [|by split].
  match goal with
  | H : KldWebhooksConsumer.stringAt headers "requestId" = Some ?s |- _ =>
      assert (Hdoc : forall A (a : string -> A) (b : A),
                 match headers !! "requestId" with
                 | Some (JString requestId) =>
                     if String.eqb requestId "" then b else a requestId
                 | _ => b
                 end
                 = if String.eqb s "" then b else a s)
  end.
  { intros A a b. unfold KldWebhooksConsumer.stringAt in *.
    destruct (headers !! "requestId") as [[]|]; by simplify_eq. }
  rewrite Hdoc.
  destruct (String.eqb _ ""); [by split|]. cbn beta iota.
  getString_step; [|by split].
  getString_step; [|by split].
  destruct (String.eqb _ MsgTypeError).
  all: getString_step; [|by split].
  all: cbn [KldWebhooks.mongo KldWebhooks.inserted KldWebhooks.logged].
  all: destruct (KldWebhooks.mongo w) as [insert|]; simpl.
  all: try by rewrite app_nil_r.
  all: by destruct (insert _).
Qed.

Lemma stringAt_not_null (genericMap : Receipt) key :
  genericMap !! key <> Some JNull ->
  exists s, KldWebhooksConsumer.stringAt genericMap key = Some s.
Proof.
  unfold KldWebhooksConsumer.stringAt.
  destruct (genericMap !! key) as [[]|]; by eauto.
Qed.

(** X19: the first reply processor stores a well-formed reply once: for
    a message whose headers are an object with a [requestId] that is a
    string and not empty, and without a null where a string is read, the
    decoded message is handed to [Insert] with its [_id] set to the
    [requestId], exactly once when the bridge has a collection and not at
    all when it has none.  The call returns whatever [Insert] answers. *)
Theorem kldwebhooks_processReply_inserts
    msgBytes (parsedMsg headers : Receipt) requestId w :
  json_Unmarshal msgBytes = inl parsedMsg ->
  parsedMsg !! "headers" = Some (JObject headers) ->
  headers !! "requestId" = Some (JString requestId) ->
  requestId <> "" ->
  headers !! "reqOffset" <> Some JNull ->
  headers !! "type" <> Some JNull ->
  parsedMsg !! "errorMessage" <> Some JNull ->
  parsedMsg !! "transactionHash" <> Some JNull ->
  exists w',
    KldWebhooks.processReply msgBytes w = Done tt w'
    /\ KldWebhooks.mongo w' = KldWebhooks.mongo w
    /\ KldWebhooks.inserted w'
       = KldWebhooks.inserted w
         ++ match KldWebhooks.mongo w with
            | Some _ => [<["_id" := JString requestId]> parsedMsg]
            | None => []
            end.
Proof.
  intros Hjson Hheaders Hid Hne Hoffset Htype Herror Hhash.
  apply stringAt_not_null in Hoffset as [reqOffset Hoffset].
  apply stringAt_not_null in Htype as [msgType Htype].
  apply stringAt_not_null in Herror as [errorMessage Herror].
  apply stringAt_not_null in Hhash as [transactionHash Hhash].
  assert (Hrequest : KldWebhooksConsumer.stringAt headers "requestId"
                     = Some requestId)
    by (unfold KldWebhooksConsumer.stringAt; by rewrite Hid).
  apply String.eqb_neq in Hne.
  unfold KldWebhooks.processReply. rewrite Hjson, Hheaders.
  unfold bind, KldWebhooks.logf, KldWebhooks.mongo_Insert.
  rewrite !getString_stringAt, Hrequest. cbn beta iota zeta. rewrite Hne.
  rewrite !getString_stringAt, Hoffset. cbn beta iota zeta.
  rewrite !getString_stringAt, Htype. cbn beta iota zeta.
  destruct (String.eqb msgType MsgTypeError).
  all: rewrite !getString_stringAt; cbn beta iota zeta.
  all: rewrite ?Herror, ?Hhash; cbn beta iota.
  all: cbn [KldWebhooks.mongo KldWebhooks.inserted KldWebhooks.logged].
  all: destruct (KldWebhooks.mongo w) as [insert|]; simpl.
  all: try (eexists; split; [reflexivity|]; split; [done|]; simpl;
            by rewrite ?app_nil_r).
  all: destruct (insert _); eexists; (split; [reflexivity|]); by split.
Qed.

(** X20: [processReply] of package kldwebhooks does not contain all
    errors: a [headers] field that is not an object fails the type
    assertion, and a JSON null as [requestId], or as [reqOffset] or [type]
    beside a [requestId], is a call through a nil [reflect.Type].  In both
    cases the call panics and nothing has been inserted. *)
Theorem kldwebhooks_processReply_panics
    msgBytes (parsedMsg : Receipt) w :
  json_Unmarshal msgBytes = inl parsedMsg ->
  (forall iHeaders,
      parsedMsg !! "headers" = Some iHeaders ->
      (forall headers, iHeaders <> JObject headers) ->
      KldWebhooks.processReply msgBytes w = Panic TypeAssertion w)
  /\ (forall headers : Receipt,
        parsedMsg !! "headers" = Some (JObject headers) ->
        headers !! "requestId" = Some JNull
        \/ (exists requestId,
               headers !! "requestId" = Some (JString requestId)
               /\ requestId <> ""
               /\ (headers !! "reqOffset" = Some JNull
                   \/ headers !! "type" = Some JNull)) ->
        exists w',
          KldWebhooks.processReply msgBytes w = Panic NilDereference w'
          /\ KldWebhooks.inserted w' = KldWebhooks.inserted w).
Proof.
  intros Hjson. split.
  - intros iHeaders Hheaders Hnot.
    unfold KldWebhooks.processReply. rewrite Hjson, Hheaders.
    destruct iHeaders as [| | | | | |headers]; try reflexivity.
    by destruct (Hnot headers).
  - intros headers Hheaders Hnull.
    pose proof (kldwebhooks_processReply_state msgBytes w) as Hstate.
    assert (Hpanic : panicOf (KldWebhooks.processReply msgBytes w)
                     = Some NilDereference).
    { unfold KldWebhooks.processReply. rewrite Hjson, Hheaders.
      unfold bind, KldWebhooks.logf, KldWebhooks.mongo_Insert.
      rewrite !getString_stringAt. unfold KldWebhooksConsumer.stringAt at 1.
      destruct Hnull as [->|(requestId & -> & Hne & Hnull)]; [done|].
      cbn beta iota zeta. apply String.eqb_neq in Hne. rewrite Hne.
      rewrite !getString_stringAt.
      unfold KldWebhooksConsumer.stringAt at 1.
      destruct Hnull as [->| Htype]; [done|].
      destruct (headers !! "reqOffset") as [[]|]; try done.
      all: cbn beta iota zeta; rewrite !getString_stringAt.
      all: unfold KldWebhooksConsumer.stringAt at 1; by rewrite Htype. }
    destruct (KldWebhooks.processReply msgBytes w) as [a w'|v w'|];
      [done| |done].
    simpl in Hpanic. injection Hpanic as ->.
    exists w'. by split; [|apply Hstate].
Qed.

Lemma rangeMessages_run (messages : list (list Byte.byte)) :
  forall w,
    Forall (fun msg => panicOf (KldWebhooks.processReply msg w) = None)
           messages ->
    exists w',
      KldWebhooksConsumer.rangeMessages messages w = Done tt w'
      /\ KldWebhooks.mongo w' = KldWebhooks.mongo w
      /\ KldWebhooks.inserted w'
         = KldWebhooks.inserted w
           ++ KldWebhooksConsumer.documents (KldWebhooks.mongo w) messages.
Proof.
  induction messages as [|msg rest IH]; intros w Hall.
  - exists w. unfold KldWebhooksConsumer.documents.
    destruct (KldWebhooks.mongo w); by rewrite app_nil_r.
  - apply Forall_cons in Hall as [Hmsg Hrest].
    pose proof (kldwebhooks_processReply_state msg w) as Hstate.
    simpl. unfold bind.
    destruct (KldWebhooks.processReply msg w) as [[] w1|v w1|];
      [|done|done].
    destruct Hstate as [Hmongo Hins].
    destruct (IH w1) as (w' & Hrun & Hmongo' & Hins').
    { eapply Forall_impl; [exact Hrest|]. intros m Hm. simpl in Hm.
      by rewrite (kldwebhooks_processReply_panic_independent m w1 w). }
    exists w'. split; [exact Hrun|]. split; [congruence|].
    rewrite Hins', Hins, Hmongo, <- app_assoc. f_equal.
    unfold KldWebhooksConsumer.documents.
    destruct (KldWebhooks.mongo w); [|done]. simpl.
    by destruct (KldWebhooksConsumer.document msg).
Qed.

(** X21: the consumer loop stores the replies in the order of the
    channel: when no message makes [processReply] panic, the loop handles
    every message, the documents handed to [Insert] are those of the
    messages that have a [requestId], in their order, and [wg.Done] is
    called once. *)
Theorem ConsumerMessagesLoop_inserts_in_order
    (messages : list (list Byte.byte)) wgDone w :
  Forall (fun msg => panicOf (KldWebhooks.processReply msg w) = None)
         messages ->
  exists w',
    KldWebhooksConsumer.ConsumerMessagesLoop messages wgDone w
    = Done (S wgDone) w'
    /\ KldWebhooks.mongo w' = KldWebhooks.mongo w
    /\ KldWebhooks.inserted w'
       = KldWebhooks.inserted w
         ++ KldWebhooksConsumer.documents (KldWebhooks.mongo w) messages.
Proof.
  intros Hall. destruct (rangeMessages_run messages w Hall)
    as (w' & Hrun & Hmongo & Hins).
  exists w'. unfold KldWebhooksConsumer.ConsumerMessagesLoop, bind.
  by rewrite Hrun.
Qed.

(** X22: nothing recovers a panic of [processReply] in the consumer
    loop: at the first message that panics the loop ends with this panic,
    the messages after it are not handled, and [wg.Done] is not called.
    The documents of the messages before it have been inserted. *)
Theorem ConsumerMessagesLoop_stops_at_panic
    (before after : list (list Byte.byte)) poison v wgDone w :
  Forall (fun msg => panicOf (KldWebhooks.processReply msg w) = None)
         before ->
  panicOf (KldWebhooks.processReply poison w) = Some v ->
  exists w',
    KldWebhooksConsumer.ConsumerMessagesLoop (before ++ poison :: after)
                                             wgDone w
    = Panic v w'
    /\ KldWebhooks.inserted w'
       = KldWebhooks.inserted w
         ++ KldWebhooksConsumer.documents (KldWebhooks.mongo w) before.
Proof.
  intros Hall Hpoison.
  assert (Hrange : forall w0,
             KldWebhooks.mongo w0 = KldWebhooks.mongo w ->
             exists w',
               KldWebhooksConsumer.rangeMessages (poison :: after) w0
               = Panic v w'
               /\ KldWebhooks.inserted w' = KldWebhooks.inserted w0).
  { intros w0 _. simpl. unfold bind.
    pose proof (kldwebhooks_processReply_state poison w0) as Hstate.
    rewrite (kldwebhooks_processReply_panic_independent poison w w0)
      in Hpoison.
    destruct (KldWebhooks.processReply poison w0) as [a w1|v1 w1|];
      [done| |done].
    simpl in Hpoison. injection Hpoison as ->. exists w1.
    by split; [|apply Hstate]. }
  unfold KldWebhooksConsumer.ConsumerMessagesLoop.
  revert w Hall Hpoison Hrange.
  induction before as [|msg rest IH]; intros w Hall Hpoison Hrange.
  - destruct (Hrange w eq_refl) as (w' & Hrun & Hins).
    exists w'. unfold bind. simpl app. rewrite Hrun. split; [done|].
    rewrite Hins. unfold KldWebhooksConsumer.documents.
    destruct (KldWebhooks.mongo w); by rewrite app_nil_r.
  - apply Forall_cons in Hall as [Hmsg Hrest].
    pose proof (kldwebhooks_processReply_state msg w) as Hstate.
    simpl. unfold bind at 1 2.
    destruct (KldWebhooks.processReply msg w) as [[] w1|v1 w1|];
      [|done|done].
    destruct Hstate as [Hmongo Hins].
    destruct (IH w1) as (w' & Hrun & Hins').
    { eapply Forall_impl; [exact Hrest|]. intros m Hm. simpl in Hm.
      by rewrite (kldwebhooks_processReply_panic_independent m w1 w). }
    { by rewrite (kldwebhooks_processReply_panic_independent poison w1 w). }
    { intros w0 Hw0. apply Hrange. congruence. }
    exists w'. split; [exact Hrun|].
    rewrite Hins', Hins, Hmongo, <- app_assoc. f_equal.
    unfold KldWebhooksConsumer.documents.
    destruct (KldWebhooks.mongo w); [|done]. simpl.
    by destruct (KldWebhooksConsumer.document msg).
Qed.

(** X23: [connectMongoDB] gives the bridge its collection only after a
    successful [Connect].  Without a URL it returns nil and touches
    neither the database nor the bridge's collection; when [Connect]
    fails it returns the error, wrapped, and leaves the collection as it
    was; otherwise it returns nil whatever [Create] answers, the
    collection of the configured database and name is the one replies are
    inserted into from then on, and [Create] was asked for a collection
    that is capped exactly when [MaxDocs] is positive. *)
Theorem connectMongoDB_enables_store conf db w :
  let info := mgo.mkCollectionInfo (0 <? KldWebhooksMongo.MaxDocs conf)
                                   (KldWebhooksMongo.MaxDocs conf) in
  let collection :=
    KldWebhooksMongo.GetCollection db (KldWebhooksMongo.Database conf)
                                   (KldWebhooksMongo.Collection conf) in
  exists result w',
    KldWebhooksMongo.connectMongoDB conf db w = Done result w'
    /\ KldWebhooks.inserted w' = KldWebhooks.inserted w
    /\ (KldWebhooksMongo.URL conf = "" ->
        result = (None, []) /\ KldWebhooks.mongo w' = KldWebhooks.mongo w)
    /\ (forall err,
          KldWebhooksMongo.URL conf <> "" ->
          KldWebhooksMongo.Connect db (KldWebhooksMongo.URL conf) = Some err ->
          result = (Some (KldWebhooksMongo.UnableToConnect err),
                    [KldWebhooksMongo.CallConnect (KldWebhooksMongo.URL conf)])
          /\ KldWebhooks.mongo w' = KldWebhooks.mongo w)
    /\ (KldWebhooksMongo.URL conf <> "" ->
        KldWebhooksMongo.Connect db (KldWebhooksMongo.URL conf) = None ->
        result
        = (None,
           [KldWebhooksMongo.CallConnect (KldWebhooksMongo.URL conf);
            KldWebhooksMongo.CallGetCollection
              (KldWebhooksMongo.Database conf)
              (KldWebhooksMongo.Collection conf);
            KldWebhooksMongo.CallCreate info])
        /\ KldWebhooks.mongo w'
           = Some (KldWebhooksMongo.Insert collection)
        /\ forall messages,
             KldWebhooksConsumer.documents (KldWebhooks.mongo w') messages
             = omap KldWebhooksConsumer.document messages).
Proof.
  intros info collection.
  unfold KldWebhooksMongo.connectMongoDB, KldWebhooks.logf, bind, ret.
  destruct (String.eqb (KldWebhooksMongo.URL conf) "") eqn:Hurl.
  - apply String.eqb_eq in Hurl.
    eexists _, _. split; [reflexivity|]. split; [done|].
    by repeat split.
  - apply String.eqb_neq in Hurl.
    destruct (KldWebhooksMongo.Connect db (KldWebhooksMongo.URL conf))
      as [err|] eqn:Hconnect.
    + eexists _, _. split; [reflexivity|]. split; [done|].
      split; [done|]. split; [|done].
      by intros err' _ [= <-].
    + fold collection. fold info.
      destruct (KldWebhooksMongo.Create collection info);
        (eexists _, _; split; [reflexivity|]; split; [done|];
         split; [done|]; split; [done|]; by intros _ _).
Qed.

(** ** The privacy group and the construction of the store *)

(** X24: [GetOrionPrivacyGroup] finds before it creates.  It always asks
    [priv_findPrivacyGroup] first, for [privateFrom] followed by
    [privateFor]; it asks [priv_createPrivacyGroup], for the same members
    under [addresses], exactly when the search succeeded without a group;
    it returns the id of the first group found, or else the id created;
    and an error comes with the empty id and names the call that
    failed. *)
Theorem GetOrionPrivacyGroup_finds_before_creating
    rpc (privateFrom : string) (privateFor : list string) :
  let allMembers := privateFrom :: privateFor in
  let params : gmap string (list string) :=
    {[ "addresses" := allMembers ]} in
  let found := Eth.priv_findPrivacyGroup rpc allMembers in
  let '(privacyGroup, err, calls) :=
    Eth.GetOrionPrivacyGroup rpc privateFrom privateFor in
  head calls = Some (Eth.CallFindPrivacyGroup allMembers)
  /\ (calls = [Eth.CallFindPrivacyGroup allMembers]
      \/ calls = [Eth.CallFindPrivacyGroup allMembers;
                  Eth.CallCreatePrivacyGroup params])
  /\ (Eth.CallCreatePrivacyGroup params ∈ calls <-> found = inl [])
  /\ (forall first others,
        found = inl (first :: others) ->
        privacyGroup = Eth.PrivacyGroupID first /\ err = None)
  /\ (found = inl [] ->
      match Eth.priv_createPrivacyGroup rpc params with
      | inl created => privacyGroup = created /\ err = None
      | inr failure =>
          privacyGroup = ""
          /\ err = Some (Eth.RPCCallReturnedError "priv_createPrivacyGroup"
                                                  failure)
      end)
  /\ (forall failure,
        found = inr failure ->
        privacyGroup = ""
        /\ err = Some (Eth.RPCCallReturnedError "priv_findPrivacyGroup"
                                                failure)).
Proof.
  cbn zeta. unfold Eth.GetOrionPrivacyGroup. cbn zeta. simpl app.
  destruct (Eth.priv_findPrivacyGroup rpc (privateFrom :: privateFor))
    as [[|first others]|failure]; simpl.
  - destruct (Eth.priv_createPrivacyGroup rpc _) as [created|failure];
      (split_and!; [done|by right|split; [done|set_solver]|done|done|done]).
  - split_and!; [done|by left| |by intros ? ? [= <- <-]|done|done].
    split; [|done]. intros Hin.
    apply list_elem_of_singleton in Hin. discriminate.
  - split_and!; [done|by left| |done|done|by intros ? [= <-]].
    split; [|done]. intros Hin.
    apply list_elem_of_singleton in Hin. discriminate.
Qed.

(** X25: the store that [newReceiptStore] builds.  The retry timeout, the
    initial delay and [MaxDocs] of its configuration are positive (250
    for a [MaxDocs] that was not), [QueryLimit] is taken as it is, and
    building a store from this configuration again changes nothing.  No
    id is reserved, so that [reserveID] succeeds for every id that the
    persistence tier has no receipt for. *)
Theorem newReceiptStore_fresh c (tier : option P) gw now :
  let r := newReceiptStore c tier gw now in
  0 < RetryTimeoutMS (conf r)
  /\ 0 < RetryInitialDelayMS (conf r)
  /\ 0 < MaxDocs (conf r)
  /\ MaxDocs (conf r) = (if MaxDocs c <=? 0 then 250 else MaxDocs c)
  /\ QueryLimit (conf r) = QueryLimit c
  /\ conf (newReceiptStore (conf r) tier gw now) = conf r
  /\ persistence r = tier
  /\ smartContractGW r = gw
  /\ (forall id, reserved id r = false)
  /\ (forall id p,
        tier = Some p ->
        GetReceipt p id = (None, None) ->
        exists r1,
          reserveID id r = Done (Some (release id), None) r1
          /\ reserved id r1 = true
          /\ forall other, other <> id -> reserved other r1 = false).
Proof.
  cbn zeta.
  assert (Hfree : forall id, reserved id (newReceiptStore c tier gw now)
                             = false) by done.
  assert (Hconf :
    0 < RetryTimeoutMS (conf (newReceiptStore c tier gw now))
    /\ 0 < RetryInitialDelayMS (conf (newReceiptStore c tier gw now))
    /\ 0 < MaxDocs (conf (newReceiptStore c tier gw now))
    /\ MaxDocs (conf (newReceiptStore c tier gw now))
       = (if MaxDocs c <=? 0 then 250 else MaxDocs c)
    /\ QueryLimit (conf (newReceiptStore c tier gw now)) = QueryLimit c).
  { unfold newReceiptStore. cbn zeta.
    destruct (RetryTimeoutMS c <=? 0) eqn:Ht;
      destruct (RetryInitialDelayMS c <=? 0) eqn:Hd;
      destruct (MaxDocs c <=? 0) eqn:Hm; simpl;
      rewrite ?Ht, ?Hd, ?Hm; simpl; rewrite ?Ht, ?Hd, ?Hm; simpl;
      repeat match goal with
             | H : (_ <=? _) = false |- _ => apply Z.leb_gt in H
             end;
      unfold defaultRetryTimeout, defaultRetryInitialDelay, defaultMaxDocs;
      repeat split; lia. }
  destruct Hconf as (Ht & Hd & Hm & Hmax & Hq).
  repeat split; try assumption; try reflexivity.
  - unfold newReceiptStore at 1. cbn zeta.
    apply Z.leb_gt in Ht, Hd, Hm. by rewrite Ht, Hd, Hm.
  - intros id p -> Hget.
    rewrite (reserveID_free id (newReceiptStore c (Some p) gw now) p
               eq_refl Hget (Hfree id)).
    eexists. split; [reflexivity|]. split.
    + unfold reserved. cbn. by rewrite lookup_insert_eq.
    + intros other Hother. unfold reserved. cbn.
      by rewrite lookup_insert_ne.
Qed.

End Properties.

(** * Concrete runs *)

#[local] Existing Instance mockExternals.

(** ** reserveID *)

Lemma reserveID_idempotency_witness :
  reserveID "req-2" emptyStore
  = Done (Some (release "req-2"), None)
         (set_reservedIDs {[ "req-2" := true ]}
            (emit (EvGetReceipt "req-2" (None, None)) emptyStore))
  /\ reserved "req-2"
       (set_reservedIDs {[ "req-2" := true ]}
          (emit (EvGetReceipt "req-2" (None, None)) emptyStore)) = true.
Proof.
  split; [reflexivity|].
  refine (proj1 (reserveID_idempotency "req-2" emptyStore
                   (release "req-2") _ _)).
  reflexivity.
Defined.

(** C2 as the spec states it does not hold: after a successful
    reservation of [req-2], with the reservation still held, a second
    [reserveID] whose lookup of the receipt fails returns the error of the
    lookup, which is not KeyNotUnique. *)
Lemma reserveID_second_error_not_conflict :
  exists rel r1,
    reserveID "req-2" emptyStore = Done (Some rel, None) r1
    /\ reserved "req-2" (set_persistence downMock r1) = true
    /\ exists r2',
        reserveID "req-2" (set_persistence downMock r1)
        = Done (None, Some (ErrorString "connection refused")) r2'
        /\ ErrorString "connection refused"
           <> Errorf ReceiptStoreKeyNotUnique [].
Proof.
  eexists _, _. split; [reflexivity|]. split; [reflexivity|].
  eexists. split; [reflexivity|]. discriminate.
Qed.

(** ** writeReceipt *)

(** The first delays of the default policy, in nanoseconds. *)
Example default_schedule :
  schedule 4 (initialDelay failingStore)
  = [500000000; 550000000; 605000000; 665500000].
Proof. vm_compute. reflexivity. Qed.

(** With writes that always fail, the default policy gives up after 34
    sleeps, which together last longer than 120 s. *)
Example default_deadline :
  slept (schedule 33 (initialDelay failingStore)) = 111125771754
  /\ slept (schedule 34 (initialDelay failingStore)) = 122738348919
  /\ retryDeadline failingStore = 120000000000.
Proof. vm_compute. repeat split; reflexivity. Qed.

Lemma writeReceipt_retry_policy_witness :
  persistence failingStore = Some failingMock
  /\ writeReceipt 35 "req-1" successReply true failingStore <> OutOfFuel.
Proof.
  split; [reflexivity|].
  refine (proj2 (proj2 (proj2 (proj2 (proj2 (proj2 (proj2 (proj2
            (writeReceipt_retry_policy "req-1" successReply failingStore
               failingMock _))))))))
            34%nat true _ _).
  - reflexivity.
  - vm_compute. reflexivity.
  - vm_compute. reflexivity.
Defined.

Lemma writeReceipt_sends_reply_witness :
  smartContractGW emptyStore = Some mockGateway
  /\ exists evs,
       events (emit (EvSendReply successReply)
                 (emit (EvLog InfoLevel
                          "%s: Inserted receipt into receipt store")
                    (emit (EvAddReceipt "req-4" successReply true None)
                       (set_persistence
                          (mkMock [successReply] None [] None)
                          (set_clock 1 emptyStore)))))
       = events emptyStore ++ evs ++ [EvSendReply successReply]
       /\ repliesOf evs = []
       /\ last (writesOf evs) = Some ("req-4", successReply, true, None).
Proof.
  split; [reflexivity|].
  refine (proj1 (writeReceipt_sends_reply 1 emptyStore mockGateway _ _)
                "req-4" successReply true _ _).
  - reflexivity.
  - reflexivity.
  - reflexivity.
Defined.

(** ** processReply *)

Lemma redelivery_keeps_terminal_receipt_witness :
  terminalReceipt storedSuccess
  /\ exists r',
       processReply 35 (bytes "redelivery req-4") terminalStore = Done tt r'
       /\ persistence r' = Some (mkMock [storedSuccess] None [] None)
       /\ events r'
          = events terminalStore
            ++ [EvGetReceipt "req-4" (Some storedSuccess, None);
                EvLog WarnLevel
                  "Ignoring redelivery reply message. requestId='%s' reqOffset='%s' type='%s': %s"]
       /\ writesOf (drop (length (events terminalStore)) (events r')) = [].
Proof.
  assert (Hterm : terminalReceipt storedSuccess).
  { exists {[ "requestId" := JString "req-4";
              "type" := JString "transaction-success" ]}.
    split; [reflexivity|]. left. reflexivity. }
  split; [exact Hterm|].
  refine (redelivery_keeps_terminal_receipt 35 (bytes "redelivery req-4")
            (redeliveryReply "req-4")
            {[ "requestId" := JString "req-4";
               "type" := JString "transaction-redelivery-prevented" ]}
            storedSuccess "req-4" terminalStore
            (mkMock [storedSuccess] None [] None) _ _ _ _ _ _ _ Hterm);
    try reflexivity.
  discriminate.
Defined.

Lemma redelivery_rewrites_pending_receipt_witness :
  exists r',
    processReply 1 (bytes "redelivery req-3") pendingStore = Done tt r'
    /\ writesOf (events r')
       = [("req-3",
           <["_id" := JString "req-3"]>
             (<["receivedAt" := JInt 0]>
                (redeliveryError (redeliveryReply "req-3"))),
           true, None)].
Proof.
  destruct (redelivery_rewrites_pending_receipt 0 (bytes "redelivery req-3")
              (redeliveryReply "req-3")
              {[ "requestId" := JString "req-3";
                 "type" := JString "transaction-redelivery-prevented" ]}
              (Some storedPending) "req-3" pendingStore
              (mkMock [storedPending] None [] None))
    as (_ & _ & _ & _ & Hwrite & _); try reflexivity.
  - discriminate.
  - intros rc [= <-] (headers & Hheaders & _). discriminate Hheaders.
  - destruct (Hwrite (mkMock
                        [<["_id" := JString "req-3"]>
                           (<["receivedAt" := JInt 0]>
                              (redeliveryError (redeliveryReply "req-3")))]
                        None [] None)) as (r' & Hrun & _ & Hwrites).
    + vm_compute. reflexivity.
    + exists r'. split; [exact Hrun|]. exact Hwrites.
Defined.

Lemma processReply_drops_malformed_witness :
  processReply 35 (bytes "not json") emptyStore
  = Done tt (emit (EvLog ErrorLevel
               "Unable to unmarshal reply message '%s' as JSON: %s")
               emptyStore)
  /\ processReply 35 (bytes "headers is a string") emptyStore
     = Done tt (emit (EvLog ErrorLevel
                  "Failed to extract request headers from '%+v'") emptyStore)
  /\ processReply 35 (bytes "requestId is a number") emptyStore
     = Done tt (emit (EvLog ErrorLevel
                  "Failed to extract headers.requestId from '%+v'")
                  emptyStore).
Proof.
  split; [|split].
  - refine (proj1 (processReply_drops_malformed 35 (bytes "not json")
                     emptyStore) (ErrorString "invalid character") _).
    reflexivity.
  - refine (proj1 (proj2 (processReply_drops_malformed 35
                     (bytes "headers is a string") emptyStore))
                  {[ "headers" := JString "x" ]} _ _).
    + reflexivity.
    + intros headers H. discriminate H.
  - refine (proj1 (proj2 (proj2 (processReply_drops_malformed 35
                     (bytes "requestId is a number") emptyStore)))
                  {[ "headers" := JObject {[ "requestId" := JInt 7 ]} ]}
                  {[ "requestId" := JInt 7 ]} _ _ _).
    + reflexivity.
    + reflexivity.
    + intros requestID H. discriminate H.
Defined.

(** C8 as the spec states it does not hold: [processReply] does not
    return on every input.  On a well-formed success reply, with a
    persistence tier whose writes keep failing, it panics once the retry
    deadline of 120 s has passed. *)
Lemma processReply_panics_after_deadline :
  let run := processReply 35 (bytes "success req-4") failingStore in
  panicOf run
  = Some (LogPanic "%s: Failed to insert into receipt store after %.2fs: %s")
  /\ (length ∘ writesOf ∘ events) <$> stateOf run = Some 35%nat
  /\ clock <$> stateOf run = Some 122738348954.
Proof. vm_compute. repeat split; reflexivity. Qed.

(** The first reply processor, of package kldwebhooks, panics on a
    message whose [headers] field is not an object: the test of the field
    looks at the wrong variable, and the type assertion fails. *)
Example kldwebhooks_processReply_headers_not_object :
  KldWebhooks.processReply (bytes "headers is a string")
    (KldWebhooks.mkBridge (Some (fun _ => None)) [] [])
  = Panic TypeAssertion (KldWebhooks.mkBridge (Some (fun _ => None)) [] []).
Proof. reflexivity. Qed.

(** ** The REST surface *)

(** C5, at the failing input: [GET /reply/abc] on a receipt store without
    a persistence tier passes the authorisation and then calls
    [GetReceipt] through the nil interface: the handler panics, and no
    status, 405 or other, has been written to the response.  The handler
    of [GET /replies] on the same store answers 405. *)
Theorem getReply_store_disabled_panics :
  let disabled : receiptStore := newReceiptStore mockConf None None 0 in
  let run := getReply (mkRequest None ∅) [("id", "abc")] disabled in
  panicOf run = Some NilDereference
  /\ (responseStatus ∘ events) <$> stateOf run = Some None
  /\ (responseStatus ∘ events)
       <$> stateOf (getReplies (mkRequest None ∅) disabled)
     = Some (Some 405).
Proof. vm_compute. repeat split; reflexivity. Qed.

(** The other two statuses of C5 on concrete stores: 404 for an id
    without receipt, 500 when the lookup fails. *)
Example getReply_not_found_and_error :
  (responseStatus ∘ events)
    <$> stateOf (getReply (mkRequest None ∅) [("id", "abc")] emptyStore)
  = Some (Some 404)
  /\ (responseStatus ∘ events)
       <$> stateOf (getReply (mkRequest None ∅) [("id", "abc")]
                             (set_persistence downMock emptyStore))
     = Some (Some 500).
Proof. vm_compute. split; reflexivity. Qed.

Lemma getReplies_refuses_oversized_limit_witness :
  QueryLimit (conf emptyStore) < 1000
  /\ exists r',
       getReplies (requestWithLimit "1000") emptyStore = Done tt r'
       /\ events r'
          = events emptyStore
            ++ [EvLog InfoLevel "--> %s %s";
                EvLog ErrorLevel "Invalid limit value: %s";
                EvSendRESTError
                  (Errorf ReceiptStoreInvalidRequestMaxLimit
                          [ArgInt (QueryLimit (conf emptyStore))]) 400]
       /\ responseStatus (drop (length (events emptyStore)) (events r'))
          = Some 400
       /\ limitsQueried (drop (length (events emptyStore)) (events r')) = []
       /\ persistence r' = Some emptyMock.
Proof.
  split; [reflexivity|].
  refine (getReplies_refuses_oversized_limit (requestWithLimit "1000")
            emptyStore emptyMock 10 1000 [] _ _ _ _ _); reflexivity.
Defined.

(** C6 as the spec states it does not hold: with QueryLimit 100, the
    request [GET /replies?limit=1000] is answered with 400 and the
    persistence tier is never queried, with a limit of 100 or any
    other. *)
Lemma getReplies_limit_not_clamped :
  let run := getReplies (requestWithLimit "1000") threeStore in
  QueryLimit (conf threeStore) = 100
  /\ (responseStatus ∘ events) <$> stateOf run = Some (Some 400)
  /\ (limitsQueried ∘ events) <$> stateOf run = Some [].
Proof. vm_compute. repeat split; reflexivity. Qed.

Lemma getReplies_limit_bounds_witness :
  getReplies (requestWithLimit "2") threeStore
  = Done tt
      (emit (EvWrite [])
         (emit (EvWriteHeader 200)
            (emit (EvLog InfoLevel "<-- %s %s [%d]")
               (emit (EvLog DebugLevel
                        "Replies query: skip=%d limit=%d replies=%d")
                  (emit (EvGetReceipts 0 2 [] 0 "" "" ""
                           (Some [receiptOf "c"; receiptOf "b"], None))
                     (emit (EvLog InfoLevel "--> %s %s") threeStore))))))
  /\ exists results,
       MemoryReceipts.GetReceipts threeReceipts 0 2 []
       = MemoryReceipts.Returns (Some results, None)
       /\ Z.of_nat (length results) <= 2.
Proof.
  destruct (getReplies_limit_bounds (requestWithLimit "2") threeStore
              (mkMock [receiptOf "c"; receiptOf "b"; receiptOf "a"]
                      None [] None)
              10 2 0 []) as (_ & Hwithin & _); try reflexivity.
  destruct Hwithin as [Hquery Hmemory];
    [vm_compute; split; [reflexivity|discriminate]|].
  split; [rewrite Hquery; reflexivity|]. apply Hmemory.
Defined.

(** C7 as the spec states it does not hold: with QueryLimit 100, the
    limit 0 is at most QueryLimit, but the request [GET /replies?limit=0]
    is run with the default limit of 10 and returns the three receipts of
    the store, which is more than 0. *)
Lemma getReplies_limit_zero_returns_receipts :
  let run := getReplies (requestWithLimit "0") threeStore in
  0 <= QueryLimit (conf threeStore)
  /\ (responseStatus ∘ events) <$> stateOf run = Some (Some 200)
  /\ (limitsQueried ∘ events) <$> stateOf run = Some [10]
  /\ (resultSizes ∘ events) <$> stateOf run = Some [3%nat]
  /\ ~ (3 <= 0).
Proof.
  split; [vm_compute; intros H; discriminate H|].
  split; [vm_compute; reflexivity|].
  split; [vm_compute; reflexivity|].
  split; [vm_compute; reflexivity|]. lia.
Qed.

(** ** The in-memory receipts *)

Lemma memory_GetReceipts_ids_or_results_witness :
  MemoryReceipts.GetReceipts threeReceipts 0 2 ["a"]
  = MemoryReceipts.Returns
      (None, Some (ErrorString "Memory receipts do not support id filtering"))
  /\ (exists results,
        MemoryReceipts.GetReceipts threeReceipts 1 2 []
        = MemoryReceipts.Returns (Some results, None)
        /\ Z.of_nat (length results) <= 2)
  /\ MemoryReceipts.GetReceipts threeReceipts 0 (2 ^ 62) []
     = MemoryReceipts.Panics MakesliceCap.
Proof.
  split; [|split].
  - refine (proj1 (memory_GetReceipts_ids_or_results threeReceipts 0 2 ["a"])
                  _).
    discriminate.
  - refine (proj1 (proj2 (memory_GetReceipts_ids_or_results threeReceipts 1 2
                            []))
                  _ _).
    + reflexivity.
    + lia.
  - refine (proj2 (proj2 (proj2
              (memory_GetReceipts_ids_or_results threeReceipts 0 (2 ^ 62)
                 [])))
              _ _).
    + reflexivity.
    + right. reflexivity.
Defined.

(** C9 as the spec states it does not hold: without ids and with a
    negative limit, [GetReceipts] of the in-memory store does not return
    at all: [make] panics on the negative capacity. *)
Lemma memory_GetReceipts_negative_limit_panics :
  MemoryReceipts.GetReceipts threeReceipts 0 (-1) []
  = MemoryReceipts.Panics MakesliceCap.
Proof. reflexivity. Qed.
(** * Further runs *)

(** ** processReply *)

Lemma processReply_stores_reply_witness :
  exists r',
    processReply 1 (bytes "success req-4") emptyStore = Done tt r'
    /\ persistence r'
       = Some (mkMock [<["_id" := JString "req-4"]>
                         (<["receivedAt" := JInt 0]> successReply)]
                      None [] None).
Proof.
  destruct (processReply_stores_reply (Ext := mockExternals)
              (P := mockPersistence) (bytes "success req-4") successReply
              {[ "requestId" := JString "req-4";
                 "type" := JString "transaction-success" ]}
              "req-4" ltac:(reflexivity) ltac:(reflexivity) ltac:(reflexivity)
              ltac:(discriminate)
              0 emptyStore emptyMock
              (mkMock [<["_id" := JString "req-4"]>
                         (<["receivedAt" := JInt 0]> successReply)]
                      None [] None))
    as (_ & _ & r' & Hrun & Hp & _).
  - discriminate.
  - right. right. reflexivity.
  - reflexivity.
  - reflexivity.
  - exists r'. split; [exact Hrun|exact Hp].
Defined.

Lemma processReply_hands_over_deployment_witness :
  exists r' evs,
    processReply 1 (bytes "deployment req-5") deployStore = Done tt r'
    /\ events r' = events deployStore ++ evs
    /\ deploysOf evs = [bytes "deployment req-5"]
    /\ length (writesOf evs) = 1%nat.
Proof.
  destruct (processReply_hands_over_deployment (Ext := moreExternals)
              (P := mockPersistence)
              (bytes "deployment req-5") deploymentReply
              {[ "requestId" := JString "req-5";
                 "type" := JString "transaction-success" ]}
              "req-5" ltac:(reflexivity) ltac:(reflexivity) ltac:(reflexivity)
              ltac:(discriminate)
              0 deployStore emptyMock
              (mkMock [<["_id" := JString "req-5"]>
                         (<["receivedAt" := JInt 0]> deploymentReply)]
                      None [] None)
              brokenGateway (bytes "deployment req-5"))
    as (r' & evs & Hrun & _ & Hevs & Hdeploys & Hwrites & _).
  - reflexivity.
  - discriminate.
  - reflexivity.
  - reflexivity.
  - reflexivity.
  - reflexivity.
  - exists r', evs. rewrite Hwrites. by repeat split.
Defined.

Lemma processReply_without_persistence_witness :
  persistence disabledStore = None
  /\ exists r' evs,
       processReply 1 (bytes "success req-4") disabledStore = Done tt r'
       /\ events r' = events disabledStore ++ evs
       /\ writesOf evs = [] /\ lookupsOf evs = [] /\ repliesOf evs = [].
Proof.
  split; [reflexivity|].
  refine (proj1 (processReply_without_persistence (Ext := mockExternals)
                   (P := mockPersistence)
                   (bytes "success req-4") successReply
                   {[ "requestId" := JString "req-4";
                      "type" := JString "transaction-success" ]}
                   "req-4" ltac:(reflexivity) ltac:(reflexivity)
                   ltac:(reflexivity) _
                   1 disabledStore ltac:(reflexivity)) _); discriminate.
Defined.

Lemma redelivery_after_failed_lookup_witness :
  exists r' evs,
    processReply 1 (bytes "redelivery req-3") downStore = Done tt r'
    /\ events r' = events downStore ++ evs
    /\ length (writesOf evs) = 1%nat.
Proof.
  destruct (redelivery_after_failed_lookup (Ext := mockExternals)
              (P := mockPersistence) (bytes "redelivery req-3")
              (redeliveryReply "req-3")
              {[ "requestId" := JString "req-3";
                 "type" := JString "transaction-redelivery-prevented" ]}
              "req-3" ltac:(reflexivity) ltac:(reflexivity) ltac:(reflexivity)
              ltac:(discriminate)
              0 downStore downMock
              (mkMock [<["_id" := JString "req-3"]>
                         (<["receivedAt" := JInt 0]>
                            (redeliveryError (redeliveryReply "req-3")))]
                      (Some (ErrorString "connection refused")) [] None)
              None (ErrorString "connection refused"))
    as (r' & evs & Hrun & _ & Hevs & Hwrites & _).
  - reflexivity.
  - reflexivity.
  - reflexivity.
  - reflexivity.
  - exists r', evs. rewrite Hwrites. by repeat split.
Defined.

(** ** writeReceipt and the reservations *)

Lemma writeReceipt_effects_witness :
  exists evs,
    events (emit (EvSendReply successReply)
              (emit (EvLog InfoLevel
                       "%s: Inserted receipt into receipt store")
                 (emit (EvAddReceipt "req-4" successReply true None)
                    (set_persistence
                       (mkMock [successReply] None [] None)
                       (set_clock 1 emptyStore)))))
    = events emptyStore ++ evs
    /\ Forall (fun w => exists err, w = ("req-4", successReply, true, err))
              (writesOf evs).
Proof.
  destruct (writeReceipt_effects 1 "req-4" successReply true emptyStore
              (emit (EvSendReply successReply)
                 (emit (EvLog InfoLevel
                          "%s: Inserted receipt into receipt store")
                    (emit (EvAddReceipt "req-4" successReply true None)
                       (set_persistence
                          (mkMock [successReply] None [] None)
                          (set_clock 1 emptyStore))))))
    as (evs & Hevs & _ & _ & _ & Hwrites & _).
  - by eexists.
  - reflexivity.
  - reflexivity.
  - exists evs. split; [exact Hevs|exact Hwrites].
Defined.

Lemma reserveID_release_roundtrip_witness :
  exists r2,
    release "req-2"
      (set_reservedIDs {[ "req-2" := true ]}
         (emit (EvGetReceipt "req-2" (None, None)) emptyStore))
    = Done tt r2
    /\ forall id, reserved id r2 = reserved id emptyStore.
Proof.
  destruct (reserveID_release_roundtrip "req-2" emptyStore (release "req-2")
              (set_reservedIDs {[ "req-2" := true ]}
                 (emit (EvGetReceipt "req-2" (None, None)) emptyStore)))
    as (_ & r2 & Hrel & Hfree & _).
  - reflexivity.
  - exists r2. split; [exact Hrel|exact Hfree].
Defined.

Lemma admission_happens_once_witness :
  exists r2 r3 r4,
    writeAccepted 1 "req-2" "ack-2" successReply
      (set_reservedIDs {[ "req-2" := true ]}
         (emit (EvGetReceipt "req-2" (None, None)) emptyStore))
    = Done None r2
    /\ release "req-2" r2 = Done tt r3
    /\ reserveID "req-2" r3
       = Done (None, Some (Errorf ReceiptStoreKeyNotUnique [])) r4.
Proof.
  destruct (admission_happens_once 0 "req-2" "ack-2" successReply emptyStore
              (release "req-2")
              (set_reservedIDs {[ "req-2" := true ]}
                 (emit (EvGetReceipt "req-2" (None, None)) emptyStore))
              emptyMock
              (mkMock [acceptedReceipt "req-2" "ack-2" successReply 0]
                      None [] None)
              (acceptedReceipt "req-2" "ack-2" successReply 0))
    as (r2 & r3 & r4 & Hwrite & Hrel & _ & Hagain & _).
  - reflexivity.
  - reflexivity.
  - reflexivity.
  - reflexivity.
  - exists r2, r3, r4. by repeat split.
Defined.

(** ** The REST surface *)

Lemma getReplies_checked_query_witness :
  exists r',
    stateOf (getReplies (requestWithLimit "2") threeStore) = Some r'
    /\ (length (queriesOf (drop (length (events threeStore)) (events r')))
        <= 1)%nat.
Proof.
  eexists. split; [reflexivity|].
  exact (proj1 (getReplies_checked_query (requestWithLimit "2") threeStore _
                  eq_refl)).
Defined.

Lemma handlers_refuse_unauthorized_witness :
  exists r',
    getReplies (mkRequest (Ext := mockExternals)
       (Some (ErrorString "no token")) ∅) threeStore
    = Done tt r'
    /\ persistence r' = persistence threeStore.
Proof.
  destruct (proj1 (handlers_refuse_unauthorized
                     (mkRequest (Ext := mockExternals)
       (Some (ErrorString "no token")) ∅) []
                     threeStore (ErrorString "no token")) eq_refl)
    as (r' & Hrun & _ & Hp).
  exists r'. split; [exact Hrun|exact Hp].
Defined.

Lemma getReplies_refuses_bad_skip_witness :
  exists r',
    getReplies (requestWith "skip" "0") threeStore = Done tt r'
    /\ queriesOf (drop (length (events threeStore)) (events r')) = [].
Proof.
  destruct (getReplies_refuses_bad_skip (requestWith "skip" "0") threeStore
              (mkMock [receiptOf "c"; receiptOf "b"; receiptOf "a"]
                      None [] None)
              10 10 [] 0 None)
    as (r' & Hrun & Hevs & _).
  - reflexivity.
  - reflexivity.
  - reflexivity.
  - reflexivity.
  - discriminate.
  - reflexivity.
  - right. reflexivity.
  - exists r'. split; [exact Hrun|]. rewrite Hevs, drop_app_length.
    reflexivity.
Defined.

Lemma getReplies_bad_since_still_queries_witness :
  exists r',
    stateOf (getReplies (requestWith "since" "yesterday") threeStore)
    = Some r'
    /\ responseStatus (drop (length (events threeStore)) (events r'))
       = Some 400
    /\ length (queriesOf (drop (length (events threeStore)) (events r')))
       = 1%nat.
Proof.
  eexists. split; [reflexivity|].
  destruct (getReplies_bad_since_still_queries
              (requestWith "since" "yesterday") threeStore
              (mkMock [receiptOf "c"; receiptOf "b"; receiptOf "a"]
                      None [] None)
              _ 10 10 0 [] 0
              Go.ErrSyntax
              eq_refl eq_refl eq_refl eq_refl eq_refl
              ltac:(discriminate) eq_refl eq_refl eq_refl)
    as (Hstatus & _ & Hqueries).
  split; [exact Hstatus|]. by rewrite Hqueries.
Defined.

Lemma getReplies_answers_witness :
  exists r',
    getReplies (mkRequest (Ext := mockExternals) None ∅) threeStore
    = Done tt r'
    /\ responseStatus (drop (length (events threeStore)) (events r'))
       = Some 200.
Proof.
  destruct (getReplies_answers
              (mkRequest (Ext := mockExternals) None ∅) threeStore
              (mkMock [receiptOf "c"; receiptOf "b"; receiptOf "a"]
                      None [] None)
              10 10 0 [] 0)
    as (Hok & _); try reflexivity.
  destruct (Hok [receiptOf "c"; receiptOf "b"; receiptOf "a"] [])
    as (r' & Hrun & Hstatus & _); try reflexivity.
  exists r'. split; [exact Hrun|exact Hstatus].
Defined.

Lemma getReply_answers_receipt_witness :
  exists r',
    getReply (mkRequest (Ext := mockExternals) None ∅) [("id", "req-4")]
             terminalStore
    = Done tt r'
    /\ lookupsOf (drop (length (events terminalStore)) (events r'))
       = ["req-4"].
Proof.
  destruct (getReply_answers_receipt
              (mkRequest (Ext := mockExternals) None ∅) [("id", "req-4")]
              terminalStore (mkMock [storedSuccess] None [] None)
              storedSuccess)
    as (r' & Hrun & _ & Hlookups & _); try reflexivity.
  exists r'. split; [exact Hrun|exact Hlookups].
Defined.

(** ** The in-memory store *)

Lemma memory_GetReceipts_window_witness :
  exists results,
    MemoryReceipts.GetReceipts threeReceipts 1 1 []
    = MemoryReceipts.Returns (Some results, None)
    /\ results !! 0%nat = Some (receiptOf "b")
    /\ results !! 1%nat = None.
Proof.
  destruct (memory_GetReceipts_window threeReceipts 1 1)
    as [Hreturns Hwindow].
  destruct Hreturns as (results & Hrun); [lia|].
  destruct (Hwindow _ Hrun) as (results' & [= <-] & Hlookup & _).
  exists results. split; [exact Hrun|].
  split; [exact (Hlookup 0%nat)|exact (Hlookup 1%nat)].
Defined.

Lemma memory_GetReceipts_pages_witness :
  MemoryReceipts.GetReceipts threeReceipts 0 (1 + 1) []
  = MemoryReceipts.Returns (Some ([receiptOf "c"] ++ [receiptOf "b"]), None).
Proof.
  apply (memory_GetReceipts_pages threeReceipts 0 1 1);
    [lia|lia|lia|reflexivity|reflexivity|lia].
Defined.

Lemma memory_AddReceipt_GetReceipt_witness :
  MemoryReceipts.GetReceipt
    (MemoryReceipts.AddReceipt threeReceipts (receiptOf "d")).2 "d"
  = (Some (receiptOf "d"), None).
Proof.
  exact (proj1 (memory_AddReceipt_GetReceipt threeReceipts (receiptOf "d")
                  "d" eq_refl)).
Defined.

(** ** The first reply processor *)

Lemma kldwebhooks_processReply_inserts_witness :
  exists w',
    KldWebhooks.processReply (bytes "success req-4") refusingBridge
    = Done tt w'
    /\ KldWebhooks.inserted w'
       = [<["_id" := JString "req-4"]> successReply].
Proof.
  destruct (kldwebhooks_processReply_inserts (Ext := mockExternals)
              (bytes "success req-4") successReply
              {[ "requestId" := JString "req-4";
                 "type" := JString "transaction-success" ]}
              "req-4" refusingBridge)
    as (w' & Hrun & _ & Hinserted); try reflexivity; try discriminate.
  exists w'. split; [exact Hrun|exact Hinserted].
Defined.

Lemma kldwebhooks_processReply_panics_witness :
  exists w',
    KldWebhooks.processReply (Ext := moreExternals)
      (bytes "requestId is null") refusingBridge
    = Panic NilDereference w'
    /\ KldWebhooks.inserted w' = [].
Proof.
  refine (proj2 (kldwebhooks_processReply_panics (Ext := moreExternals)
                   (bytes "requestId is null")
                   {[ "headers" := JObject {[ "requestId" := JNull ]} ]}
                   refusingBridge _)
                {[ "requestId" := JNull ]} _ _).
  - reflexivity.
  - reflexivity.
  - left. reflexivity.
Defined.

Lemma ConsumerMessagesLoop_inserts_in_order_witness :
  exists w',
    KldWebhooksConsumer.ConsumerMessagesLoop
      [bytes "success req-4"; bytes "no headers"; bytes "success req-4"]
      0 refusingBridge
    = Done 1%nat w'
    /\ KldWebhooks.inserted w'
       = [<["_id" := JString "req-4"]> successReply;
          <["_id" := JString "req-4"]> successReply].
Proof.
  destruct (ConsumerMessagesLoop_inserts_in_order (Ext := mockExternals)
              [bytes "success req-4"; bytes "no headers";
               bytes "success req-4"] 0 refusingBridge)
    as (w' & Hrun & _ & Hinserted).
  - repeat constructor.
  - exists w'. split; [exact Hrun|exact Hinserted].
Defined.

Lemma ConsumerMessagesLoop_stops_at_panic_witness :
  exists w',
    KldWebhooksConsumer.ConsumerMessagesLoop
      ([bytes "success req-4"]
       ++ bytes "headers is a string" :: [bytes "success req-4"])
      0 refusingBridge
    = Panic TypeAssertion w'
    /\ KldWebhooks.inserted w'
       = [<["_id" := JString "req-4"]> successReply].
Proof.
  destruct (ConsumerMessagesLoop_stops_at_panic (Ext := mockExternals)
              [bytes "success req-4"] [bytes "success req-4"]
              (bytes "headers is a string") TypeAssertion 0 refusingBridge)
    as (w' & Hrun & Hinserted).
  - repeat constructor.
  - reflexivity.
  - exists w'. split; [exact Hrun|exact Hinserted].
Defined.

Lemma connectMongoDB_enables_store_witness :
  exists result w',
    KldWebhooksMongo.connectMongoDB mockMongoConf
      (mockMongo None (Some (ErrorString "snap"))) disabledBridge
    = Done result w'
    /\ result.1 = None
    /\ is_Some (KldWebhooks.mongo w').
Proof.
  destruct (connectMongoDB_enables_store mockMongoConf
              (mockMongo None (Some (ErrorString "snap"))) disabledBridge)
    as (result & w' & Hrun & _ & _ & _ & Hconnected).
  destruct Hconnected as (Hresult & Hmongo & _);
    [discriminate|reflexivity|].
  exists result, w'. split; [exact Hrun|].
  split; [by rewrite Hresult|by rewrite Hmongo].
Defined.

(** ** The privacy group *)

Lemma GetOrionPrivacyGroup_finds_before_creating_witness :
  (Eth.GetOrionPrivacyGroup mockRPC "a" ["b"]).1
  = ("group-1", None)
  /\ (Eth.GetOrionPrivacyGroup mockRPC "c" []).2
     = [Eth.CallFindPrivacyGroup ["c"];
        Eth.CallCreatePrivacyGroup {[ "addresses" := ["c"] ]}].
Proof.
  pose proof (GetOrionPrivacyGroup_finds_before_creating mockRPC "a" ["b"])
    as Hfound.
  pose proof (GetOrionPrivacyGroup_finds_before_creating mockRPC "c" [])
    as Hcreated.
  cbn zeta in Hfound, Hcreated.
  destruct (Eth.GetOrionPrivacyGroup mockRPC "a" ["b"])
    as [[group1 err1] calls1].
  destruct (Eth.GetOrionPrivacyGroup mockRPC "c" [])
    as [[group2 err2] calls2].
  destruct Hfound as (_ & _ & _ & Hfirst & _).
  destruct (Hfirst (Eth.mkOrionPrivacyGroup "group-1") [] eq_refl)
    as [-> ->].
  destruct Hcreated as (_ & [Hcalls|Hcalls] & Hcreate & _).
  - exfalso. rewrite Hcalls in Hcreate.
    pose proof (proj2 Hcreate eq_refl) as Hin.
    apply list_elem_of_singleton in Hin. discriminate.
  - split; [reflexivity|exact Hcalls].
Defined.

(** ** The deadline of writeReceipt on the clock *)

(** With an initial delay and a deadline of 100 ms, a tier whose failing
    writes take 1 ns each is given up after the second write: the clock
    then shows the 100 ms of the sleep and the 2 ns of the writes.  A
    tier whose failing write takes 150 ms is given up after the first
    write, without a sleep.  The scripted tier, whose writes take 1 ns,
    is given up after the second write as well. *)
Example writeReceipt_deadline_on_the_clock :
  let slow :=
    writeReceipt (ReceiptStorePersistence0 := slow_ReceiptStorePersistence)
                 5 "req-1" successReply true slowStore in
  let stalled :=
    writeReceipt (ReceiptStorePersistence0 := slow_ReceiptStorePersistence)
                 5 "req-1" successReply true stalledStore in
  let scripted :=
    writeReceipt 5 "req-1" successReply true
                 (newReceiptStore shortConf (Some failingMock) None 0) in
  (length ∘ writesOf ∘ events) <$> stateOf slow = Some 2%nat
  /\ (sleepsOf ∘ events) <$> stateOf slow = Some [100 * Go.Millisecond]
  /\ clock <$> stateOf slow = Some (100 * Go.Millisecond + 2)
  /\ (length ∘ writesOf ∘ events) <$> stateOf stalled = Some 1%nat
  /\ (sleepsOf ∘ events) <$> stateOf stalled = Some []
  /\ clock <$> stateOf stalled = Some (150 * Go.Millisecond)
  /\ (length ∘ writesOf ∘ events) <$> stateOf scripted = Some 2%nat
  /\ is_Some (panicOf slow) /\ is_Some (panicOf stalled)
  /\ is_Some (panicOf scripted).
Proof. vm_compute. repeat split; eauto. Qed.
